(** * Image activation pipeline: validator, extractor, registry, handlers

    A shallow embedding of the Go sources
      pkg/security/validator.go, pkg/devicemapper/extractor.go,
      pkg/devicemapper/linux.go, the stub manager, pkg/db (schema and
      repository), pkg/fsm (handlers and registration) and
      cmd/flyio-machine/commands/cleanup.go,
    together with the properties of the specification checked against it.

    Layout: the modules [Strings], [Filepath], [Security], [OS], [Tar],
    [Extractor], [Db], [Devicemapper], [Fsm] and [Cleanup] follow the
    sources; [Spec] holds the specification's wording where it is compared
    with the code; [Examples] and [Runs] hold concrete hosts, archives and
    activations; [Measures], [Repository] and [Commands] hold what the
    further properties of the code need (the rest of the repository and of
    the cleanup command). The properties come after all definitions.

    Conventions.
    - Go's [error] is the type [error] below: [nil] or a message built the way
      the source builds it ([fmt.Errorf], [errors.Wrap]).
    - Go's [int] and [int64] are [Z] with the 64-bit wrap-around written out
      ([wrap64]) wherever the source does arithmetic on them.
    - Structured logging ([slog]) has no effect on any result and is left out.
    - The operating system, the kernel's device mapper, the object store and
      the tar reader are outside the sources: their answers are inputs
      (records of functions), and what the code asks them to do is recorded in
      logs carried by the state. *)

From Stdlib Require Import ZArith List String Ascii Bool Lia.
From Stdlib Require Import DecimalString.
From Stdlib Require DecimalPos.
Import ListNotations.

Local Open Scope string_scope.
Local Open Scope Z_scope.

(** Go's [==] on strings. *)
Notation "a == b" := (String.eqb a b) (at level 70, no associativity).

(** ** Go basics *)

Inductive error : Type :=
| nil : error
| Errorf (msg : string) : error.

Definition isNil (e : error) : bool :=
  match e with nil => true | Errorf _ => false end.

(** [err.Error()] of a non-nil error. *)
Definition errorText (e : error) : string :=
  match e with nil => "" | Errorf m => m end.

(** pkg/errors.Wrap: [nil] stays [nil], otherwise "context: cause". *)
Definition Wrap (err : error) (context : string) : error :=
  match err with
  | nil => nil
  | Errorf m => Errorf (context ++ ": " ++ m)
  end.

(** Two's complement wrap-around of a 64-bit signed integer. *)
Definition wrap64 (z : Z) : Z := (z + 2 ^ 63) mod 2 ^ 64 - 2 ^ 63.

(** [fmt.Sprintf("%d", n)]. *)
Definition itoa (n : Z) : string := NilZero.string_of_int (Z.to_int n).

Module Strings.

(** strings.HasPrefix(s, prefix) *)
Definition HasPrefix (s prefix : string) : bool := String.prefix prefix s.

(** strings.Contains(s, substr) *)
Fixpoint Contains (s substr : string) : bool :=
  String.prefix substr s ||
  match s with
  | EmptyString => false
  | String _ rest => Contains rest substr
  end.

(** strings.Split(s, sep) for a one-byte separator: every separator cuts,
    so the result is never empty and may hold empty pieces. *)
Fixpoint Split (s : string) (sep : ascii) : list string :=
  match s with
  | EmptyString => [EmptyString]
  | String c rest =>
      if Ascii.eqb c sep then EmptyString :: Split rest sep
      else match Split rest sep with
           | [] => [String c EmptyString]
           | piece :: pieces => String c piece :: pieces
           end
  end.

(** strings.Join(elems, sep) *)
Fixpoint Join (elems : list string) (sep : string) : string :=
  match elems with
  | [] => ""
  | [e] => e
  | e :: rest => e ++ sep ++ Join rest sep
  end.

End Strings.

(** ** path/filepath on a Unix host

    The standard library's functions, written over path elements. *)
Module Filepath.

Definition Separator : ascii := "/".

(** filepath.IsAbs *)
Definition IsAbs (path : string) : bool := Strings.HasPrefix path "/".

(** The loop of filepath.Clean. [out] holds the real elements written so
    far, last one first; [dotdot] counts the leading [..] elements that
    can no longer be backed over (the source's [dotdot] mark). *)
Fixpoint cleanLoop (rooted : bool) (dotdot : nat) (out elems : list string)
  : nat * list string :=
  match elems with
  | [] => (dotdot, out)
  | e :: rest =>
      if (e == "") || (e == ".") then cleanLoop rooted dotdot out rest
      else if e == ".." then
        match out with
        | _ :: below => cleanLoop rooted dotdot below rest
        | [] =>
            if rooted then cleanLoop rooted dotdot [] rest
            else cleanLoop rooted (S dotdot) [] rest
        end
      else cleanLoop rooted dotdot (e :: out) rest
  end.

(** The elements of the cleaned path, in order. *)
Definition cleanElems (path : string) : list string :=
  let '(dotdot, out) :=
    cleanLoop (IsAbs path) 0 [] (Strings.Split path Separator) in
  (repeat ".." dotdot ++ rev out)%list.

(** filepath.Clean *)
Definition Clean (path : string) : string :=
  if path == "" then "."
  else
    let body := Strings.Join (cleanElems path) "/" in
    if IsAbs path then String Separator body
    else if body == "" then "." else body.

(** filepath.Join: empty elements before the first non-empty one are
    dropped, the rest is joined with separators and cleaned. *)
Fixpoint Join (elem : list string) : string :=
  match elem with
  | [] => ""
  | e :: rest =>
      if e == "" then Join rest else Clean (Strings.Join elem "/")
  end.

Fixpoint hasSeparator (s : string) : bool :=
  match s with
  | EmptyString => false
  | String c rest => Ascii.eqb c Separator || hasSeparator rest
  end.

(** [path[0 : i+1]] for [i] the index of the last separator. *)
Fixpoint uptoLastSeparator (path : string) : string :=
  match path with
  | EmptyString => EmptyString
  | String c rest =>
      if Ascii.eqb c Separator || hasSeparator rest
      then String c (uptoLastSeparator rest)
      else EmptyString
  end.

(** filepath.Dir *)
Definition Dir (path : string) : string := Clean (uptoLastSeparator path).

Fixpoint lastNonEmpty (elems : list string) (found : option string)
  : option string :=
  match elems with
  | [] => found
  | e :: rest =>
      lastNonEmpty rest (if e == "" then found else Some e)
  end.

(** filepath.Base *)
Definition Base (path : string) : string :=
  if path == "" then "."
  else match lastNonEmpty (Strings.Split path Separator) None with
       | Some e => e
       | None => "/"
       end.

End Filepath.

(** ** pkg/security/validator.go *)
Module Security.

(** The validator. [maxCompressionRatio] is a [float64] in the source; its
    only use, the division, comparison and [%.2f] rendering of
    [ValidateCompressionRatio], is the field [ratioCheck]: the error that
    check returns for a non-zero compressed size. *)
Record Validator : Type := mkValidator {
  maxFileSize : Z;
  maxTotalSize : Z;
  ratioCheck : Z -> Z -> error;
  currentTotalSize : Z
}.

Definition withTotal (v : Validator) (n : Z) : Validator :=
  {| maxFileSize := maxFileSize v;
     maxTotalSize := maxTotalSize v;
     ratioCheck := ratioCheck v;
     currentTotalSize := n |}.

Definition errAbsolutePath (tarPath : string) : error :=
  Errorf ("security: absolute path not allowed: " ++ tarPath).

Definition errPathTraversal (tarPath : string) : error :=
  Errorf ("security: path traversal detected: " ++ tarPath).

(** ValidatePath *)
Definition ValidatePath (tarPath : string) : error :=
  if Filepath.IsAbs tarPath then errAbsolutePath tarPath
  else
    let clean := Filepath.Clean tarPath in
    if Strings.HasPrefix clean ".." then errPathTraversal tarPath
    else nil.

(** The depth loop of ValidateSymlink. *)
Fixpoint depthOf (parts : list string) (depth : Z) : Z :=
  match parts with
  | [] => depth
  | part :: rest =>
      if part == ".." then depthOf rest (depth - 1)
      else if negb (part == "") && negb (part == ".")
           then depthOf rest (depth + 1)
           else depthOf rest depth
  end.

Definition errSymlinkEscape (symlinkPath targetPath resolved : string)
  : error :=
  Errorf ("security: path traversal detected: symlink " ++ symlinkPath
          ++ " -> " ++ targetPath ++ " resolves to " ++ resolved).

(** The depth ValidateSymlink computes for a relative target. *)
Definition symlinkDepth (symlinkPath targetPath : string) : Z :=
  let symlinkDir := Filepath.Dir symlinkPath in
  let resolvedPath := Filepath.Join [symlinkDir; targetPath] in
  let cleanResolved := Filepath.Clean resolvedPath in
  depthOf (Strings.Split cleanResolved Filepath.Separator) 0.

(** ValidateSymlink *)
Definition ValidateSymlink (symlinkPath targetPath : string) : error :=
  if Filepath.IsAbs targetPath then nil
  else
    let symlinkDir := Filepath.Dir symlinkPath in
    let resolvedPath := Filepath.Join [symlinkDir; targetPath] in
    let cleanResolved := Filepath.Clean resolvedPath in
    let parts := Strings.Split cleanResolved Filepath.Separator in
    let depth := depthOf parts 0 in
    if depth <? 0
    then errSymlinkEscape symlinkPath targetPath cleanResolved
    else nil.

(** ValidateFileSize *)
Definition ValidateFileSize (v : Validator) (size : Z) : error :=
  if size >? maxFileSize v
  then Errorf ("security: file size " ++ itoa size ++ " exceeds max "
               ++ itoa (maxFileSize v))
  else nil.

(** AddExtractedSize: the counter is bumped before the check, and stays
    bumped when the check fails. *)
Definition AddExtractedSize (v : Validator) (size : Z)
  : Validator * error :=
  let total := wrap64 (currentTotalSize v + size) in
  let v' := withTotal v total in
  if total >? maxTotalSize v
  then (v', Errorf ("security: total extracted size " ++ itoa total
                    ++ " exceeds max " ++ itoa (maxTotalSize v)))
  else (v', nil).

(** ValidateCompressionRatio *)
Definition ValidateCompressionRatio (v : Validator)
           (compressedSize uncompressedSize : Z) : error :=
  if compressedSize =? 0
  then Errorf "security: compressed size cannot be zero"
  else ratioCheck v compressedSize uncompressedSize.

(** Reset *)
Definition Reset (v : Validator) : Validator := withTotal v 0.

(** GetCurrentTotalSize *)
Definition GetCurrentTotalSize (v : Validator) : Z := currentTotalSize v.

End Security.

(** ** The host: operating system calls and their effects

    Each call the sources make is answered by the host record; the calls
    that took effect are logged in order. *)
Module OS.

Inductive Op : Type :=
| MkdirAll (path : string) (perm : Z)
| OpenFile (path : string) (perm : Z)   (* O_CREATE|O_WRONLY|O_TRUNC *)
| Write (path : string) (data : list Byte.byte)
| Close (path : string)
| Symlink (oldname newname : string)
| RemoveAll (path : string)
| Remove (path : string)
| CopyTree (src dst : string).

(** What os.Symlink answers: done, refused because the name exists
    ([os.IsExist]), or another failure. *)
Inductive SymlinkAnswer : Type :=
| SymlinkDone
| SymlinkExists (msg : string)
| SymlinkFailed (msg : string).

Record Host : Type := mkHost {
  mkdirAll : string -> error;
  openFile : string -> error;
  (** io.Copy into the file at a path: [None] when all bytes are written,
      [Some (n, msg)] when it fails with [msg] after [n] bytes. *)
  copyFault : string -> option (nat * string);
  symlink : string -> string -> SymlinkAnswer;
  (** os.Open of an existing file for reading *)
  open : string -> error;
  (** os.Stat: the error, and the size when there is none *)
  stat : string -> error * Z;
  removeAll : string -> error;
  remove : string -> error
}.

(** Whether a name exists once the logged calls are replayed over a tree
    where it had state [before]. *)
Definition under (dir path : string) : bool :=
  (path == dir) || Strings.HasPrefix path (dir ++ "/").

Definition replayOp (path : string) (before : bool) (op : Op) : bool :=
  match op with
  | MkdirAll p _ => before || under path p
  | OpenFile p _ => before || (p == path)
  | Symlink _ p => before || (p == path)
  | CopyTree _ p => before || (p == path)
  | RemoveAll p => before && negb (under p path)
  | Remove p => before && negb (p == path)
  | Write _ _ | Close _ => before
  end.

Definition existsAfter (log : list Op) (path : string) : bool :=
  fold_left (replayOp path) log false.




End OS.

(** ** archive/tar as the extractor sees it *)
Module Tar.

Definition TypeReg : ascii := "0".
Definition TypeLink : ascii := "1".
Definition TypeSymlink : ascii := "2".
Definition TypeChar : ascii := "3".
Definition TypeBlock : ascii := "4".
Definition TypeDir : ascii := "5".
Definition TypeFifo : ascii := "6".

Record Header : Type := mkHeader {
  Name : string;
  Typeflag : ascii;
  Size : Z;
  Mode : Z;
  Linkname : string
}.

Record Entry : Type := mkEntry {
  header : Header;
  body : list Byte.byte
}.

(** The entries [tarReader.Next] returns one after the other, then what
    it returns next: [io.EOF] ([readError = nil]) or a read error. *)
Record Archive : Type := mkArchive {
  entries : list Entry;
  readError : error
}.

End Tar.

(** ** pkg/devicemapper/extractor.go *)
Module Extractor.
Import OS Tar Security.

Section WithHost.
Variable host : Host.
(** The archive behind each readable path. *)
Variable tarAt : string -> Archive.

(** [os.FileMode(header.Mode)]: conversion of an int64 to uint32. *)
Definition FileMode (mode : Z) : Z := mode mod 2 ^ 32.

(** One turn of the loop of ExtractTarball, after [tarReader.Next]
    returned [e]: the validator, the calls that took effect, and the
    error the function returns with ([nil]: the loop goes on). *)
Definition extractEntry (destDir : string) (v : Validator) (e : Entry)
  : Validator * list Op * error :=
  let hdr := header e in
  match ValidatePath (Name hdr) with
  | Errorf m => (v, [], Errorf ("invalid path in tar: " ++ m))
  | nil =>
    let target := Filepath.Join [destDir; Name hdr] in
    if Ascii.eqb (Typeflag hdr) TypeDir then
      match mkdirAll host target with
      | Errorf m => (v, [], Errorf ("failed to create directory: " ++ m))
      | nil => (v, [MkdirAll target 493], nil)
      end
    else if Ascii.eqb (Typeflag hdr) TypeReg then
      match ValidateFileSize v (Size hdr) with
      | Errorf m => (v, [], Errorf m)
      | nil =>
        match AddExtractedSize v (Size hdr) with
        | (v1, Errorf m) => (v1, [], Errorf m)
        | (v1, nil) =>
          let parent := Filepath.Dir target in
          match mkdirAll host parent with
          | Errorf m =>
              (v1, [], Errorf ("failed to create parent dir: " ++ m))
          | nil =>
            let perm := FileMode (Mode hdr) in
            match openFile host target with
            | Errorf m =>
                (v1, [MkdirAll parent 493],
                 Errorf ("failed to create file: " ++ m))
            | nil =>
              match copyFault host target with
              | Some (n, m) =>
                  (v1, [MkdirAll parent 493; OpenFile target perm;
                        Write target (firstn n (body e)); Close target],
                   Errorf ("failed to write file: " ++ m))
              | None =>
                  (v1, [MkdirAll parent 493; OpenFile target perm;
                        Write target (body e); Close target], nil)
              end
            end
          end
        end
      end
    else if Ascii.eqb (Typeflag hdr) TypeSymlink then
      match ValidateSymlink (Name hdr) (Linkname hdr) with
      | Errorf m => (v, [], Errorf ("invalid symlink target: " ++ m))
      | nil =>
        match symlink host (Linkname hdr) target with
        | SymlinkDone => (v, [Symlink (Linkname hdr) target], nil)
        | SymlinkExists _ => (v, [], nil)
        | SymlinkFailed m =>
            (v, [], Errorf ("failed to create symlink: " ++ m))
        end
      end
    else (v, [], nil)
  end.

(** The loop over the entries read before the reader stops. *)
Fixpoint extractEntries (destDir : string) (v : Validator)
         (es : list Entry) : Validator * list Op * error :=
  match es with
  | [] => (v, [], nil)
  | e :: rest =>
      match extractEntry destDir v e with
      | (v1, ops, nil) =>
          let '(v2, ops2, err) := extractEntries destDir v1 rest in
          (v2, (ops ++ ops2)%list, err)
      | (v1, ops, err) => (v1, ops, err)
      end
  end.

(** ExtractTarball *)
Definition ExtractTarball (tarPath destDir : string) (v : Validator)
  : Validator * list Op * error :=
  let v0 := Reset v in
  match open host tarPath with
  | Errorf m => (v0, [], Errorf ("failed to open tar: " ++ m))
  | nil =>
    let archive := tarAt tarPath in
    match extractEntries destDir v0 (entries archive) with
    | (v1, ops, nil) =>
      match readError archive with
      | Errorf m => (v1, ops, Errorf ("tar read error: " ++ m))
      | nil =>
        match stat host tarPath with
        | (Errorf m, _) => (v1, ops, Errorf ("failed to stat tar: " ++ m))
        | (nil, size) =>
            (v1, ops,
             ValidateCompressionRatio v1 size (GetCurrentTotalSize v1))
        end
      end
    | (v1, ops, err) => (v1, ops, err)
    end
  end.

End WithHost.

End Extractor.

(** ** pkg/db: schema and repository *)
Module Db.

Definition StatusPending : string := "pending".
Definition StatusDownloading : string := "downloading".
Definition StatusReady : string := "ready".
Definition StatusFailed : string := "failed".

(** A row of [images]. The two timestamp columns are real time and are
    left out; nothing below reads them. *)
Record Image : Type := mkImage {
  ID : Z;
  S3Key : string;
  SHA256 : string;
  Status : string;
  DevicePath : string;
  BaseDeviceID : Z;
  SnapshotID : Z;
  ErrorMessage : string
}.

(** The database file: whether it answers at all, the rows of [images] in
    insertion order, the highest rowid ever handed out (AUTOINCREMENT),
    and the row of [device_sequence] if it is there. *)
Record Database : Type := mkDatabase {
  online : bool;
  images : list Image;
  lastRowID : Z;
  device_sequence : option Z
}.

(** [CHECK(status IN ('pending', 'downloading', 'ready', 'failed'))] *)
Definition statusCheck (status : string) : bool :=
  (status == "pending") || (status == "downloading")
  || (status == "ready") || (status == "failed").

Definition errOffline : error := Errorf "unable to open database file".
Definition errCheck : error :=
  Errorf "constraint failed: CHECK constraint failed: status IN ('pending', 'downloading', 'ready', 'failed')".
Definition errUnique : error :=
  Errorf "constraint failed: UNIQUE constraint failed: images.s3_key".
Definition ErrNoRows : error := Errorf "sql: no rows in result set".

Definition withImages (d : Database) (rows : list Image) : Database :=
  {| online := online d; images := rows;
     lastRowID := lastRowID d; device_sequence := device_sequence d |}.

Fixpoint findKey (rows : list Image) (s3Key : string) : option Image :=
  match rows with
  | [] => None
  | r :: rest => if S3Key r == s3Key then Some r else findKey rest s3Key
  end.

Fixpoint findID (rows : list Image) (id : Z) : option Image :=
  match rows with
  | [] => None
  | r :: rest => if ID r =? id then Some r else findID rest id
  end.

(** Create: the INSERT and [LastInsertId]. Returns the image with its
    [ID] filled in, as the source writes it through the pointer. *)
Definition Create (d : Database) (img : Image)
  : Database * Image * error :=
  if negb (online d) then (d, img, Wrap errOffline "failed to insert image")
  else if negb (statusCheck (Status img))
  then (d, img, Wrap errCheck "failed to insert image")
  else match findKey (images d) (S3Key img) with
       | Some _ => (d, img, Wrap errUnique "failed to insert image")
       | None =>
           let id := lastRowID d + 1 in
           let row := {| ID := id; S3Key := S3Key img;
                         SHA256 := SHA256 img; Status := Status img;
                         DevicePath := DevicePath img;
                         BaseDeviceID := BaseDeviceID img;
                         SnapshotID := SnapshotID img;
                         ErrorMessage := ErrorMessage img |} in
           ({| online := online d;
               images := (images d ++ [row])%list;
               lastRowID := id;
               device_sequence := device_sequence d |}, row, nil)
       end.

(** GetByS3Key: [(None, nil)] is the source's [nil, nil]. *)
Definition GetByS3Key (d : Database) (s3Key : string)
  : option Image * error :=
  if negb (online d) then (None, Wrap errOffline "failed to query image")
  else (findKey (images d) s3Key, nil).

(** The SET clause of Update, on the row with the image's id. *)
Definition setColumns (img row : Image) : Image :=
  if ID row =? ID img
  then {| ID := ID row; S3Key := S3Key row;
          SHA256 := SHA256 img; Status := Status img;
          DevicePath := DevicePath img;
          BaseDeviceID := BaseDeviceID img;
          SnapshotID := SnapshotID img;
          ErrorMessage := ErrorMessage img |}
  else row.

(** Update *)
Definition Update (d : Database) (img : Image) : Database * error :=
  if negb (online d) then (d, Wrap errOffline "failed to update image")
  else match findID (images d) (ID img) with
       | None => (d, Errorf ("image not found: id=" ++ itoa (ID img)))
       | Some _ =>
           if statusCheck (Status img)
           then (withImages d (map (setColumns img) (images d)), nil)
           else (d, Wrap errCheck "failed to update image")
       end.

Definition setStatus (id : Z) (status errorMessage : string) (row : Image)
  : Image :=
  if ID row =? id
  then {| ID := ID row; S3Key := S3Key row; SHA256 := SHA256 row;
          Status := status; DevicePath := DevicePath row;
          BaseDeviceID := BaseDeviceID row;
          SnapshotID := SnapshotID row;
          ErrorMessage := errorMessage |}
  else row.

(** UpdateStatus: no look at the affected row count, so an id without a
    row is a silent success. *)
Definition UpdateStatus (d : Database) (id : Z)
           (status errorMessage : string) : Database * error :=
  if negb (online d) then (d, Wrap errOffline "failed to update status")
  else match findID (images d) id with
       | None => (d, nil)
       | Some _ =>
           if statusCheck status
           then (withImages d
                   (map (setStatus id status errorMessage) (images d)),
                 nil)
           else (d, Wrap errCheck "failed to update status")
       end.

(** Where the transaction of AllocateNextDeviceID is made to fail, if
    anywhere. *)
Inductive TxFault : Type :=
| NoFault
| BeginFails (msg : string)
| QueryFails (msg : string)
| UpdateFails (msg : string)
| CommitFails (msg : string).

Definition withSequence (d : Database) (next : Z) : Database :=
  {| online := online d; images := images d;
     lastRowID := lastRowID d; device_sequence := Some next |}.

(** AllocateNextDeviceID. [tx] is the transaction's view of the database;
    only [Commit] makes it the database, every other way out runs the
    deferred [Rollback] and leaves the database as it was. *)
Definition AllocateNextDeviceID (fault : TxFault) (d : Database)
  : Database * Z * error :=
  if negb (online d)
  then (d, 0, Wrap errOffline "failed to begin transaction")
  else match fault with
  | BeginFails m => (d, 0, Wrap (Errorf m) "failed to begin transaction")
  | _ =>
    let tx := d in
    match fault, device_sequence tx with
    | QueryFails m, _ =>
        (d, 0, Wrap (Errorf m) "failed to query device sequence")
    | _, None => (d, 0, Wrap ErrNoRows "failed to query device sequence")
    | _, Some nextID =>
      match fault with
      | UpdateFails m =>
          (d, 0, Wrap (Errorf m) "failed to update device sequence")
      | _ =>
        let tx := withSequence tx (wrap64 (nextID + 1)) in
        match fault with
        | CommitFails m =>
            (d, 0, Wrap (Errorf m) "failed to commit transaction")
        | _ => (tx, nextID, nil)
        end
      end
    end
  end.

End Db.

(** ** pkg/devicemapper: the manager interface and its two variants *)
Module Devicemapper.

Record DeviceInfo : Type := mkDeviceInfo {
  DevicePath : string;
  SnapshotID : Z;
  Size : Z
}.

(** The external commands the Linux manager runs. *)
Inductive Cmd : Type :=
| DmsetupMessage (pool msg : string)     (* dmsetup message POOL 0 MSG *)
| DmsetupCreate (name table : string)    (* dmsetup create NAME --table T *)
| DmsetupRemove (name : string)          (* dmsetup remove NAME *)
| MkfsExt4 (devicePath : string)         (* mkfs.ext4 -F PATH *)
| Mount (devicePath mountPath : string)
| Umount (mountPath : string).

(** A value of the interface type [Manager]; the [nil] interface is
    [None] of [option Manager]. The stub carries [runtime.GOOS]. *)
Inductive Manager : Type :=
| LinuxManager (poolName : string)
| StubManager (goos : string).

Definition errNotSupported (goos : string) : error :=
  Errorf ("devicemapper not supported on " ++ goos).

(** The pair of a DeviceInfo pointer and an error that a method returns:
    the device with a [nil] error, or no device with an error. *)
Inductive Made : Type :=
| Device (info : DeviceInfo)
| NoDevice (err : error).

(** The manager's in-process table [devices] is read by ListDevices only
    and is left out, as is ListDevices. *)

Section WithKernel.
(** [cmd.Run()]: the error of each command. *)
Variable run : Cmd -> error.

(** The commands that succeeded are logged. *)
Definition ran (c : Cmd) : list Cmd :=
  if isNil (run c) then [c] else [].

(** "0 SECTORS thin POOLDEV ID" with the source's 2097152 sectors *)
Definition tableSpec (poolDevicePath id : string) : string :=
  "0 " ++ itoa 2097152 ++ " thin " ++ poolDevicePath ++ " " ++ id.

(** CreateDevice *)
Definition CreateDevice (m : Manager) (deviceID : string)
  : list Cmd * Made :=
  match m with
  | StubManager goos => ([], NoDevice (errNotSupported goos))
  | LinuxManager poolName =>
    let deviceName := "flyio-" ++ deviceID in
    let poolDevicePath := Filepath.Join ["/dev/mapper"; poolName] in
    let deleteCmd := DmsetupMessage poolDevicePath ("delete " ++ deviceID) in
    let log0 := ran deleteCmd in
    let cmd1 :=
      DmsetupMessage poolDevicePath ("create_thin " ++ deviceID) in
    match run cmd1 with
    | Errorf m1 =>
        (log0,
         NoDevice (Wrap (Errorf m1)
                     "failed to create thin device metadata"))
    | nil =>
      let cmd2 :=
        DmsetupCreate deviceName (tableSpec poolDevicePath deviceID) in
      match run cmd2 with
      | Errorf m2 =>
          ((log0 ++ [cmd1])%list,
           NoDevice (Wrap (Errorf m2) "failed to activate device"))
      | nil =>
        let devicePath := Filepath.Join ["/dev/mapper"; deviceName] in
        match run (MkfsExt4 devicePath) with
        | Errorf m3 =>
            ((log0 ++ [cmd1; cmd2])%list,
             NoDevice (Wrap (Errorf m3) "failed to format device"))
        | nil =>
            ((log0 ++ [cmd1; cmd2; MkfsExt4 devicePath])%list,
             Device {| DevicePath := devicePath; SnapshotID := 0;
                       Size := wrap64 (2097152 * 512) |})
        end
      end
    end
  end.

(** CreateSnapshot *)
Definition CreateSnapshot (m : Manager) (baseDeviceID : string)
           (snapshotID : Z) : list Cmd * Made :=
  match m with
  | StubManager goos => ([], NoDevice (errNotSupported goos))
  | LinuxManager poolName =>
    let snapshotIDStr := itoa snapshotID in
    let snapshotName := "flyio-snapshot-" ++ itoa snapshotID in
    let poolDevicePath := Filepath.Join ["/dev/mapper"; poolName] in
    let deleteCmd :=
      DmsetupMessage poolDevicePath ("delete " ++ snapshotIDStr) in
    let log0 := ran deleteCmd in
    let cmd1 :=
      DmsetupMessage poolDevicePath
        ("create_snap " ++ snapshotIDStr ++ " " ++ baseDeviceID) in
    match run cmd1 with
    | Errorf m1 =>
        (log0,
         NoDevice (Wrap (Errorf m1) "failed to create snapshot metadata"))
    | nil =>
      let cmd2 :=
        DmsetupCreate snapshotName
          (tableSpec poolDevicePath snapshotIDStr) in
      match run cmd2 with
      | Errorf m2 =>
          ((log0 ++ [cmd1])%list,
           NoDevice (Wrap (Errorf m2) "failed to activate snapshot"))
      | nil =>
          let snapshotPath :=
            Filepath.Join ["/dev/mapper"; snapshotName] in
          ((log0 ++ [cmd1; cmd2])%list,
           Device {| DevicePath := snapshotPath;
                     SnapshotID := snapshotID;
                     Size := wrap64 (2097152 * 512) |})
      end
    end
  end.

(** MountDevice *)
Definition MountDevice (m : Manager) (devicePath mountPath : string)
  : list Cmd * error :=
  match m with
  | StubManager goos => ([], errNotSupported goos)
  | LinuxManager _ =>
      let c := Mount devicePath mountPath in
      (ran c, Wrap (run c) "failed to mount device")
  end.

(** UnmountDevice *)
Definition UnmountDevice (m : Manager) (mountPath : string)
  : list Cmd * error :=
  match m with
  | StubManager goos => ([], errNotSupported goos)
  | LinuxManager _ =>
      let c := Umount mountPath in
      (ran c, Wrap (run c) "failed to unmount device")
  end.

(** DeleteDevice *)
Definition DeleteDevice (m : Manager) (deviceID : string)
  : list Cmd * error :=
  match m with
  | StubManager goos => ([], errNotSupported goos)
  | LinuxManager _ =>
      let c := DmsetupRemove ("flyio-" ++ deviceID) in
      (ran c, Wrap (run c) "failed to remove device")
  end.

End WithKernel.

End Devicemapper.

(** ** pkg/fsm: the activation pipeline *)
Module Fsm.
Import Db.

(** ImageRequest *)
Record ImageRequest : Type := mkRequest {
  reqS3Key : string;
  reqS3Bucket : string
}.

(** ImageResponse; the zero value is [emptyResponse]. *)
Record ImageResponse : Type := mkResponse {
  ImageID : Z;
  respSHA256 : string;
  DownloadPath : string;
  DownloadSize : Z;
  ExtractedPath : string;
  respDevicePath : string;
  respSnapshotID : Z;
  respStatus : string;
  respErrorMessage : string
}.

Definition emptyResponse : ImageResponse :=
  {| ImageID := 0; respSHA256 := ""; DownloadPath := ""; DownloadSize := 0;
     ExtractedPath := ""; respDevicePath := ""; respSnapshotID := 0;
     respStatus := ""; respErrorMessage := "" |}.

(** The configuration held by Machine. The repository, the validator's
    counter and everything the handlers touch outside the process are in
    [World]; the object store and the other collaborators answer
    through [Env]. *)
Record Machine : Type := mkMachine {
  dmManager : option Devicemapper.Manager;
  workDir : string;
  maxRetries : Z
}.

Record World : Type := mkWorld {
  db : Database;
  validator : Security.Validator;
  fsLog : list OS.Op;
  kernelLog : list Devicemapper.Cmd;
  (** the keys [s3Client.Download] was called with, in order *)
  fetches : list string
}.

Record Env : Type := mkEnv {
  host : OS.Host;
  tarAt : string -> Tar.Archive;
  kernel : Devicemapper.Cmd -> error;
  (** [s3Client.Download(key, localPath)]: the error, else the digest
      (64 hexadecimal digits) and the size; LocalPath is [localPath]. *)
  download : string -> string -> error * (string * Z);
  (** [copyDir(src, dst)], a walk over the extracted tree *)
  copyDir : string -> string -> error;
  txFault : TxFault
}.

Definition setDb (w : World) (d : Database) : World :=
  {| db := d; validator := validator w; fsLog := fsLog w;
     kernelLog := kernelLog w; fetches := fetches w |}.

Definition setValidator (w : World) (v : Security.Validator) : World :=
  {| db := db w; validator := v; fsLog := fsLog w;
     kernelLog := kernelLog w; fetches := fetches w |}.

Definition addFs (w : World) (ops : list OS.Op) : World :=
  {| db := db w; validator := validator w;
     fsLog := (fsLog w ++ ops)%list;
     kernelLog := kernelLog w; fetches := fetches w |}.

Definition addKernel (w : World) (cmds : list Devicemapper.Cmd) : World :=
  {| db := db w; validator := validator w; fsLog := fsLog w;
     kernelLog := (kernelLog w ++ cmds)%list; fetches := fetches w |}.

Definition addFetch (w : World) (key : string) : World :=
  {| db := db w; validator := validator w; fsLog := fsLog w;
     kernelLog := kernelLog w; fetches := (fetches w ++ [key])%list |}.

(** How a transition ends: it returns a response ([Advance]), an
    ordinary error ([Retry]) or [fsm.Abort(err)]. *)
Inductive Outcome : Type :=
| Advance
| Retry (err : error)
| Abort (err : error).

(** What a handler leaves behind: the world, the response object behind
    [req.W.Msg] (the source updates it in place) and the outcome. *)
Definition Result : Type := (World * option ImageResponse * Outcome)%type.

(** [uint64(m.maxRetries)] *)
Definition uint64 (n : Z) : Z := n mod 2 ^ 64.

Definition errMaxRetries (m : Machine) : error :=
  Errorf ("max retries (" ++ itoa (maxRetries m) ++ ") exceeded").

Definition errNoResponse : error := Errorf "response not initialized".

Section Handlers.
Variable env : Env.
Variable m : Machine.

(** handleCheckDB *)
Definition handleCheckDB (retryCount : Z) (req : ImageRequest)
           (msg : option ImageResponse) (w : World) : Result :=
  if retryCount >=? uint64 (maxRetries m)
  then (w, msg, Abort (errMaxRetries m))
  else
    match GetByS3Key (db w) (reqS3Key req) with
    | (_, Errorf e) => (w, msg, Abort (Wrap (Errorf e) "database error"))
    | (found, nil) =>
      let resp := match msg with Some r => r | None => emptyResponse end in
      match found with
      | Some img =>
          let resp :=
            {| ImageID := ID img; respSHA256 := SHA256 img;
               DownloadPath := DownloadPath resp;
               DownloadSize := DownloadSize resp;
               ExtractedPath := ExtractedPath resp;
               respDevicePath := respDevicePath resp;
               respSnapshotID := respSnapshotID resp;
               respStatus := Status img;
               respErrorMessage := respErrorMessage resp |} in
          (* both for [ready] and for any other status the function
             returns [fsm.NewResponse(resp), nil] here *)
          (w, Some resp, Advance)
      | None =>
          let img := {| ID := 0; S3Key := reqS3Key req; SHA256 := "";
                        Status := StatusPending; DevicePath := "";
                        BaseDeviceID := 0; SnapshotID := 0;
                        ErrorMessage := "" |} in
          match Create (db w) img with
          | (d, _, Errorf e) =>
              (setDb w d, msg,
               Retry (Wrap (Errorf e) "failed to create image record"))
          | (d, img, nil) =>
              let resp :=
                {| ImageID := ID img; respSHA256 := respSHA256 resp;
                   DownloadPath := DownloadPath resp;
                   DownloadSize := DownloadSize resp;
                   ExtractedPath := ExtractedPath resp;
                   respDevicePath := respDevicePath resp;
                   respSnapshotID := respSnapshotID resp;
                   respStatus := respStatus resp;
                   respErrorMessage := respErrorMessage resp |} in
              (setDb w d, Some resp, Advance)
          end
      end
    end.

(** handleDownload *)
Definition handleDownload (retryCount : Z) (req : ImageRequest)
           (msg : option ImageResponse) (w : World) : Result :=
  if retryCount >=? uint64 (maxRetries m)
  then (w, msg, Abort (errMaxRetries m))
  else match msg with
  | None => (w, msg, Abort errNoResponse)
  | Some resp =>
    match UpdateStatus (db w) (ImageID resp) StatusDownloading "" with
    | (d, Errorf e) =>
        (setDb w d, msg, Retry (Wrap (Errorf e) "failed to update status"))
    | (d, nil) =>
      let w := setDb w d in
      let downloadDir := Filepath.Join [workDir m; "downloads"] in
      match OS.mkdirAll (host env) downloadDir with
      | Errorf e =>
          (w, msg, Retry (Wrap (Errorf e) "failed to create download dir"))
      | nil =>
        let w := addFs w [OS.MkdirAll downloadDir 493] in
        let localPath :=
          Filepath.Join [downloadDir; Filepath.Base (reqS3Key req)] in
        let w := addFetch w (reqS3Key req) in
        match download env (reqS3Key req) localPath with
        | (Errorf e, _) =>
            (w, msg, Retry (Wrap (Errorf e) "failed to download from S3"))
        | (nil, (sha, size)) =>
          let resp :=
            {| ImageID := ImageID resp; respSHA256 := sha;
               DownloadPath := localPath; DownloadSize := size;
               ExtractedPath := ExtractedPath resp;
               respDevicePath := respDevicePath resp;
               respSnapshotID := respSnapshotID resp;
               respStatus := respStatus resp;
               respErrorMessage := respErrorMessage resp |} in
          match fst (GetByS3Key (db w) (reqS3Key req)) with
          | Some img =>
              let img :=
                {| ID := ID img; S3Key := S3Key img; SHA256 := sha;
                   Status := Status img; DevicePath := DevicePath img;
                   BaseDeviceID := BaseDeviceID img;
                   SnapshotID := SnapshotID img;
                   ErrorMessage := ErrorMessage img |} in
              match Update (db w) img with
              | (d, Errorf e) =>
                  (setDb w d, Some resp,
                   Retry (Wrap (Errorf e) "failed to update image"))
              | (d, nil) => (setDb w d, Some resp, Advance)
              end
          | None => (w, Some resp, Advance)
          end
        end
      end
    end
  end.

(** handleValidate. [os.RemoveAll] answers [nil] for a missing path, so
    every error of the host counts as the source's
    [err != nil && !os.IsNotExist(err)]. *)
Definition handleValidate (retryCount : Z) (req : ImageRequest)
           (msg : option ImageResponse) (w : World) : Result :=
  if retryCount >=? uint64 (maxRetries m)
  then (w, msg, Abort (errMaxRetries m))
  else match msg with
  | None => (w, msg, Abort errNoResponse)
  | Some resp =>
    match Security.ValidateFileSize (validator w) (DownloadSize resp) with
    | Errorf e =>
        let '(d, _) :=
          UpdateStatus (db w) (ImageID resp) StatusFailed e in
        (setDb w d, msg, Abort (Errorf e))
    | nil =>
      let extractDir :=
        Filepath.Join [workDir m; "extracted";
                       Filepath.Base (reqS3Key req)] in
      match OS.removeAll (host env) extractDir with
      | Errorf e =>
          (w, msg, Retry (Wrap (Errorf e) "failed to clean extract dir"))
      | nil =>
        let w := addFs w [OS.RemoveAll extractDir] in
        match OS.mkdirAll (host env) extractDir with
        | Errorf e =>
            (w, msg,
             Retry (Wrap (Errorf e) "failed to create extract dir"))
        | nil =>
          let w := addFs w [OS.MkdirAll extractDir 493] in
          match Extractor.ExtractTarball (host env) (tarAt env)
                  (DownloadPath resp) extractDir (validator w) with
          | (v, ops, Errorf e) =>
              let w := addFs (setValidator w v) ops in
              let '(d, _) :=
                UpdateStatus (db w) (ImageID resp) StatusFailed e in
              (setDb w d, msg,
               Abort (Wrap (Errorf e) "tar extraction failed"))
          | (v, ops, nil) =>
              let w := addFs (setValidator w v) ops in
              let resp :=
                {| ImageID := ImageID resp;
                   respSHA256 := respSHA256 resp;
                   DownloadPath := DownloadPath resp;
                   DownloadSize := DownloadSize resp;
                   ExtractedPath := extractDir;
                   respDevicePath := respDevicePath resp;
                   respSnapshotID := respSnapshotID resp;
                   respStatus := respStatus resp;
                   respErrorMessage := respErrorMessage resp |} in
              (w, Some resp, Advance)
          end
        end
      end
    end
  end.

Definition withError (resp : ImageResponse) (text : string)
  : ImageResponse :=
  {| ImageID := ImageID resp; respSHA256 := respSHA256 resp;
     DownloadPath := DownloadPath resp;
     DownloadSize := DownloadSize resp;
     ExtractedPath := ExtractedPath resp;
     respDevicePath := respDevicePath resp;
     respSnapshotID := respSnapshotID resp;
     respStatus := respStatus resp;
     respErrorMessage := text |}.

(** handleCreateDevice *)
Definition handleCreateDevice (retryCount : Z) (req : ImageRequest)
           (msg : option ImageResponse) (w : World) : Result :=
  if retryCount >=? uint64 (maxRetries m)
  then (w, msg, Abort (errMaxRetries m))
  else match msg with
  | None => (w, msg, Abort errNoResponse)
  | Some resp =>
    match dmManager m with
    | None => (w, Some resp, Advance)
    | Some dm =>
      match AllocateNextDeviceID (txFault env) (db w) with
      | (d, _, Errorf e) =>
          (setDb w d, msg,
           Retry (Wrap (Errorf e) "failed to allocate base device ID"))
      | (d, baseDeviceID, nil) =>
        let w := setDb w d in
        let deviceID := itoa baseDeviceID in
        match Devicemapper.CreateDevice (kernel env) dm deviceID with
        | (cmds, Devicemapper.NoDevice err) =>
            (* "Log but don't fail - devicemapper is optional" *)
            (addKernel w cmds,
             Some (withError resp
                     ("devicemapper warning: " ++ errorText err)),
             Advance)
        | (cmds, Devicemapper.Device deviceInfo) =>
          let w := addKernel w cmds in
          let devicePath := Devicemapper.DevicePath deviceInfo in
          let mountPath :=
            Filepath.Join [workDir m; "mounts"; deviceID] in
          match OS.mkdirAll (host env) mountPath with
          | Errorf e =>
              let w := addKernel w
                (fst (Devicemapper.DeleteDevice (kernel env) dm deviceID))
              in (w, msg,
                  Retry (Wrap (Errorf e) "failed to create mount dir"))
          | nil =>
            let w := addFs w [OS.MkdirAll mountPath 493] in
            match Devicemapper.MountDevice (kernel env) dm
                    devicePath mountPath with
            | (cmds, Errorf e) =>
                let w := addKernel w cmds in
                let w := addKernel w
                  (fst (Devicemapper.DeleteDevice (kernel env) dm
                          deviceID)) in
                (w, msg, Retry (Wrap (Errorf e) "failed to mount device"))
            | (cmds, nil) =>
              let w := addKernel w cmds in
              match copyDir env (ExtractedPath resp) mountPath with
              | Errorf e =>
                  let '(d, _) :=
                    UpdateStatus (db w) (ImageID resp) StatusFailed e in
                  let w := setDb w d in
                  let w := addKernel w
                    (fst (Devicemapper.UnmountDevice (kernel env) dm
                            mountPath)) in
                  let w := addKernel w
                    (fst (Devicemapper.DeleteDevice (kernel env) dm
                            deviceID)) in
                  (w, msg,
                   Abort (Wrap (Errorf e) "copy to device failed"))
              | nil =>
                let w :=
                  addFs w [OS.CopyTree (ExtractedPath resp) mountPath] in
                match Devicemapper.UnmountDevice (kernel env) dm
                        mountPath with
                | (cmds, Errorf e) =>
                    (addKernel w cmds, msg,
                     Retry (Wrap (Errorf e) "failed to unmount device"))
                | (cmds, nil) =>
                  let w := addKernel w cmds in
                  let resp1 :=
                    {| ImageID := ImageID resp;
                       respSHA256 := respSHA256 resp;
                       DownloadPath := DownloadPath resp;
                       DownloadSize := DownloadSize resp;
                       ExtractedPath := ExtractedPath resp;
                       respDevicePath := devicePath;
                       respSnapshotID := respSnapshotID resp;
                       respStatus := respStatus resp;
                       respErrorMessage := respErrorMessage resp |} in
                  let resp2 :=
                    {| ImageID := ImageID resp;
                       respSHA256 := respSHA256 resp;
                       DownloadPath := DownloadPath resp;
                       DownloadSize := DownloadSize resp;
                       ExtractedPath := mountPath;
                       respDevicePath := devicePath;
                       respSnapshotID := respSnapshotID resp;
                       respStatus := respStatus resp;
                       respErrorMessage := respErrorMessage resp |} in
                  match fst (GetByS3Key (db w) (reqS3Key req)) with
                  | Some img =>
                      let img :=
                        {| ID := ID img; S3Key := S3Key img;
                           SHA256 := SHA256 img; Status := Status img;
                           DevicePath := devicePath;
                           BaseDeviceID := baseDeviceID;
                           SnapshotID := SnapshotID img;
                           ErrorMessage := ErrorMessage img |} in
                      match Update (db w) img with
                      | (d, Errorf e) =>
                          (setDb w d, Some resp1,
                           Retry (Wrap (Errorf e)
                                    "failed to update image"))
                      | (d, nil) => (setDb w d, Some resp2, Advance)
                      end
                  | None => (w, Some resp2, Advance)
                  end
                end
              end
            end
          end
        end
      end
    end
  end.

(** handleComplete *)
Definition handleComplete (retryCount : Z) (req : ImageRequest)
           (msg : option ImageResponse) (w : World) : Result :=
  if retryCount >=? uint64 (maxRetries m)
  then (w, msg, Abort (errMaxRetries m))
  else
    let resp :=
      match msg with
      | Some r => r
      | None =>
          {| ImageID := 0; respSHA256 := ""; DownloadPath := "";
             DownloadSize := 0; ExtractedPath := "";
             respDevicePath := ""; respSnapshotID := 0;
             respStatus := "complete"; respErrorMessage := "" |}
      end in
    (** what stays behind [req.W.Msg] when no response is returned *)
    let kept := match msg with Some _ => Some resp | None => None end in
    let keep (r : ImageResponse) :=
      match msg with Some _ => Some r | None => None end in
    (** the last step, "Mark image as ready" *)
    let markReady (w : World) (resp : ImageResponse) : Result :=
      match UpdateStatus (db w) (ImageID resp) StatusReady "" with
      | (d, Errorf e) =>
          (setDb w d, keep resp,
           Retry (Wrap (Errorf e) "failed to update status"))
      | (d, nil) =>
          (setDb w d,
           Some {| ImageID := ImageID resp;
                   respSHA256 := respSHA256 resp;
                   DownloadPath := DownloadPath resp;
                   DownloadSize := DownloadSize resp;
                   ExtractedPath := ExtractedPath resp;
                   respDevicePath := respDevicePath resp;
                   respSnapshotID := respSnapshotID resp;
                   respStatus := StatusReady;
                   respErrorMessage := respErrorMessage resp |},
           Advance)
      end in
    match GetByS3Key (db w) (reqS3Key req) with
    | (_, Errorf e) =>
        (w, kept, Abort (Wrap (Errorf e) "failed to load image"))
    | (None, nil) =>
        (w, kept, Abort (Errorf "image not found in database"))
    | (Some img, nil) =>
      match dmManager m with
      | Some dm =>
        if negb (DevicePath img == "") then
          let baseDeviceID := itoa (BaseDeviceID img) in
          let allocated :=
            if SnapshotID img =? 0
            then AllocateNextDeviceID (txFault env) (db w)
            else (db w, SnapshotID img, nil) in
          match allocated with
          | (d, _, Errorf e) =>
              let '(d, _) :=
                UpdateStatus d (ID img) StatusFailed
                  ("snapshot ID allocation failed: " ++ e) in
              (setDb w d, kept,
               Abort (Wrap (Errorf e) "snapshot ID allocation failed"))
          | (d, snapshotID, nil) =>
            let w := setDb w d in
            match Devicemapper.CreateSnapshot (kernel env) dm
                    baseDeviceID snapshotID with
            | (cmds, Devicemapper.NoDevice err) =>
                let w := addKernel w cmds in
                let e := errorText err in
                if Strings.Contains e "not supported"
                then markReady w
                       (withError resp ("snapshot unavailable: " ++ e))
                else
                  let '(d, _) :=
                    UpdateStatus (db w) (ID img) StatusFailed
                      ("snapshot creation failed: " ++ e) in
                  (setDb w d, kept,
                   Abort (Wrap (Errorf e)
                     "snapshot creation failed (required by challenge)"))
            | (cmds, Devicemapper.Device snapshotInfo) =>
                let w := addKernel w cmds in
                let img :=
                  {| ID := ID img; S3Key := S3Key img;
                     SHA256 := SHA256 img; Status := Status img;
                     DevicePath := DevicePath img;
                     BaseDeviceID := BaseDeviceID img;
                     SnapshotID := Devicemapper.SnapshotID snapshotInfo;
                     ErrorMessage := ErrorMessage img |} in
                let resp :=
                  {| ImageID := ImageID resp;
                     respSHA256 := respSHA256 resp;
                     DownloadPath := DownloadPath resp;
                     DownloadSize := DownloadSize resp;
                     ExtractedPath := ExtractedPath resp;
                     respDevicePath := DevicePath img;
                     respSnapshotID :=
                       Devicemapper.SnapshotID snapshotInfo;
                     respStatus := respStatus resp;
                     respErrorMessage := respErrorMessage resp |} in
                match Update (db w) img with
                | (d, Errorf e) =>
                    (setDb w d, keep resp,
                     Retry (Wrap (Errorf e) "failed to update image"))
                | (d, nil) => markReady (setDb w d) resp
                end
            end
          end
        else markReady w resp
      | None => markReady w resp
      end
    end.

End Handlers.

Definition StateCheckDB : string := "check_db".
Definition StateDownload : string := "download".
Definition StateValidate : string := "validate".
Definition StateCreateDevice : string := "create_device".
Definition StateComplete : string := "complete".
Definition StateFailed : string := "failed".

Definition Handler : Type :=
  Z -> ImageRequest -> option ImageResponse -> World -> Result.

(** Register: the chain
    [Start(check_db).To(download).To(validate).To(create_device)
     .To(complete).End(failed)]. *)
Definition Register (env : Env) (m : Machine) : list (string * Handler) :=
  [ (StateCheckDB, handleCheckDB m);
    (StateDownload, handleDownload env m);
    (StateValidate, handleValidate env m);
    (StateCreateDevice, handleCreateDevice env m);
    (StateComplete, handleComplete env m) ].

(** How a run ends: past the last transition, in the failure state after
    an abort, or still retrying a transition when the fuel of the model
    is used up. *)
Inductive RunEnd : Type :=
| Completed
| Failed (state : string) (err : error)
| Retrying (state : string) (err : error).

(** Modelled from the spec: the state-machine engine, the external library
    github.com/superfly/fsm, which is not among the sources. Section 4.5:
    a linear chain of named transitions; "Ordinary completion advances
    to the next state", "Returning a normal error requests retry",
    "returning an Abort(err) marks the run terminally failed", and
    "each transition can query the current attempt count". The
    repository's notes on the library agree: state progression is
    linear, a returned error means retry, an abort skips to the failed
    state. One transition, retried with the attempt count going up: *)
Fixpoint runTransition (fuel : nat) (h : Handler) (retryCount : Z)
         (req : ImageRequest) (msg : option ImageResponse) (w : World)
  : Result :=
  match h retryCount req msg w with
  | (w', msg', Retry e) =>
      match fuel with
      | O => (w', msg', Retry e)
      | S fuel' => runTransition fuel' h (retryCount + 1) req msg' w'
      end
  | r => r
  end.

(** Modelled from the spec: the engine's walk along the chain (section
    4.5, as above). *)
Fixpoint runChain (fuel : nat) (chain : list (string * Handler))
         (req : ImageRequest) (msg : option ImageResponse) (w : World)
  : World * option ImageResponse * RunEnd :=
  match chain with
  | [] => (w, msg, Completed)
  | (state, h) :: rest =>
      match runTransition fuel h 0 req msg w with
      | (w', msg', Advance) => runChain fuel rest req msg' w'
      | (w', msg', Abort e) => (w', msg', Failed state e)
      | (w', msg', Retry e) => (w', msg', Retrying state e)
      end
  end.

(** One activation as runFetch starts it: a fresh response, the request
    for the key, the registered chain. Every handler aborts once the
    attempt count reaches [uint64(maxRetries)], so that many retries are
    all a transition can get. *)
Definition Activate (env : Env) (m : Machine) (s3Key s3Bucket : string)
           (w : World) : World * option ImageResponse * RunEnd :=
  runChain (Z.to_nat (uint64 (maxRetries m))) (Register env m)
           {| reqS3Key := s3Key; reqS3Bucket := s3Bucket |}
           (Some emptyResponse) w.

End Fsm.

(** ** cmd/flyio-machine/commands/cleanup.go *)
Module Cleanup.
Import Db.

(** A function returns, or the runtime panics in it. *)
Inductive Exit : Type :=
| Returns (err : error)
| Panics (what : string).

Section WithEnv.
Variable env : Fsm.Env.
Variable dmManager : option Devicemapper.Manager.
(** [cfg.WorkDir] of the configuration package, which is not among the
    sources. *)
Variable WorkDir : string.

Definition exists_ (path : string) : bool :=
  isNil (fst (OS.stat (Fsm.host env) path)).

(** cleanupImageResources. The image is the caller's object, changed in
    place; it is returned as it is when the function returns. *)
Definition cleanupImageResources (img : Image) (w : Fsm.World)
  : Fsm.World * Image * error :=
  (* 1. Unmount and delete snapshot if exists *)
  let '(w, img) :=
    match dmManager with
    | Some dm =>
      if negb (SnapshotID img =? 0) then
        let snapshotName := "flyio-snapshot-" ++ itoa (SnapshotID img) in
        let snapshotPath := Filepath.Join ["/dev/mapper"; snapshotName] in
        let w :=
          if exists_ snapshotPath
          then Fsm.addKernel w
                 (fst (Devicemapper.DeleteDevice (Fsm.kernel env) dm
                         (itoa (SnapshotID img))))
          else w in
        (w, {| ID := ID img; S3Key := S3Key img; SHA256 := SHA256 img;
               Status := Status img; DevicePath := DevicePath img;
               BaseDeviceID := BaseDeviceID img; SnapshotID := 0;
               ErrorMessage := ErrorMessage img |})
      else (w, img)
    | None => (w, img)
    end in
  (* 2. Unmount and delete base device if exists *)
  let '(w, img) :=
    match dmManager with
    | Some dm =>
      if BaseDeviceID img >? 0 then
        let deviceID := itoa (BaseDeviceID img) in
        let devicePath :=
          Filepath.Join ["/dev/mapper"; "flyio-" ++ deviceID] in
        let w :=
          if exists_ devicePath
          then Fsm.addKernel w
                 (fst (Devicemapper.DeleteDevice (Fsm.kernel env) dm
                         deviceID))
          else w in
        (w, {| ID := ID img; S3Key := S3Key img; SHA256 := SHA256 img;
               Status := Status img; DevicePath := "";
               BaseDeviceID := 0; SnapshotID := SnapshotID img;
               ErrorMessage := ErrorMessage img |})
      else (w, img)
    | None => (w, img)
    end in
  (* 3. Remove extracted filesystem *)
  let extractedPath := Filepath.Join [WorkDir; "extracted"; S3Key img] in
  let step3 :=
    if exists_ extractedPath
    then match OS.removeAll (Fsm.host env) extractedPath with
         | Errorf e => (w, Errorf e)
         | nil => (Fsm.addFs w [OS.RemoveAll extractedPath], nil)
         end
    else (w, nil) in
  match step3 with
  | (w, Errorf e) =>
      (w, img, Wrap (Errorf e) "failed to remove extracted files")
  | (w, nil) =>
    (* 4. Remove downloaded tarball *)
    let downloadPath := Filepath.Join [WorkDir; "downloads"; S3Key img] in
    let step4 :=
      if exists_ downloadPath
      then match OS.remove (Fsm.host env) downloadPath with
           | Errorf e => (w, Errorf e)
           | nil => (Fsm.addFs w [OS.Remove downloadPath], nil)
           end
      else (w, nil) in
    match step4 with
    | (w, Errorf e) => (w, img, Wrap (Errorf e) "failed to remove download")
    | (w, nil) =>
      (* 5. Update database status *)
      let img :=
        {| ID := ID img; S3Key := S3Key img; SHA256 := SHA256 img;
           Status := "cleaned"; DevicePath := DevicePath img;
           BaseDeviceID := BaseDeviceID img;
           SnapshotID := SnapshotID img;
           ErrorMessage := ErrorMessage img |} in
      match Update (Fsm.db w) img with
      | (d, Errorf e) =>
          (Fsm.setDb w d, img,
           Wrap (Errorf e) "failed to update database")
      | (d, nil) => (Fsm.setDb w d, img, nil)
      end
    end
  end.

(** cleanupSpecificImage, the cleanup operation for one key. A missing
    row comes back from GetByS3Key as a nil pointer with a nil error,
    and the first field read through it panics. *)
Definition cleanupSpecificImage (s3Key : string) (w : Fsm.World)
  : Fsm.World * Exit :=
  match GetByS3Key (Fsm.db w) s3Key with
  | (_, Errorf e) => (w, Returns (Wrap (Errorf e) "image not found"))
  | (None, nil) => (w, Panics "nil pointer dereference")
  | (Some img, nil) =>
      match cleanupImageResources img w with
      | (w, _, Errorf e) => (w, Returns (Wrap (Errorf e) "cleanup failed"))
      | (w, _, nil) => (w, Returns nil)
      end
  end.

End WithEnv.

End Cleanup.

(** ** The specification's wording, for comparison with the code *)
Module Spec.

(** Section 4.1, validate_path: "fails with PathViolation when the entry's
    name, after canonicalization, is an absolute path or begins with
    [..]". *)
Definition pathViolation (entryName : string) : bool :=
  let canonical := Filepath.Clean entryName in
  Filepath.IsAbs canonical || Strings.HasPrefix canonical "..".

(** The error kinds of section 7 that the extractor's messages carry. *)
Definition isPathViolation (err : error) : bool :=
  Strings.HasPrefix (errorText err) "invalid path in tar: security: ".

End Spec.

(** ** Concrete hosts, archives and runs used by the examples *)
Module Examples.
Import OS Tar.

(** A host on which every call succeeds; every file is 10240 bytes. *)
Definition okHost : Host :=
  {| mkdirAll := fun _ => nil;
     openFile := fun _ => nil;
     copyFault := fun _ => None;
     symlink := fun _ _ => SymlinkDone;
     open := fun _ => nil;
     stat := fun _ => (nil, 10240);
     removeAll := fun _ => nil;
     remove := fun _ => nil |}.


Definition limits : Security.Validator :=
  {| Security.maxFileSize := 1024;
     Security.maxTotalSize := 4096;
     Security.ratioCheck := fun _ _ => nil;
     Security.currentTotalSize := 0 |}.

Definition dirEntry (name : string) : Entry :=
  {| header := {| Name := name; Typeflag := TypeDir; Size := 0;
                  Mode := 493; Linkname := "" |};
     body := [] |}.

Definition regEntry (name : string) (data : list Byte.byte) : Entry :=
  {| header := {| Name := name; Typeflag := TypeReg;
                  Size := Z.of_nat (List.length data);
                  Mode := 420; Linkname := "" |};
     body := data |}.

Definition otherEntry (name : string) (flag : ascii) (linkname : string)
  : Entry :=
  {| header := {| Name := name; Typeflag := flag; Size := 0;
                  Mode := 420; Linkname := linkname |};
     body := [] |}.

Definition abc : list Byte.byte := [Byte.x61; Byte.x62; Byte.x63].

(** A directory, then an entry that climbs out of the destination. *)
Definition traversalArchive : Archive :=
  {| entries := [dirEntry "bin"; regEntry "../evil" abc];
     readError := nil |}.


(** A hard link, a character device and a block device. *)
Definition specialArchive : Archive :=
  {| entries := [otherEntry "sh" TypeLink "bin/dash";
                 otherEntry "dev/null" TypeChar "";
                 otherEntry "dev/sda" TypeBlock ""];
     readError := nil |}.

End Examples.

(** ** Runs used to state the registry and pipeline properties *)
Module Runs.
Import Db Fsm.

(** Calls of AllocateNextDeviceID one after the other, each with its own
    fault setting: the ids returned by the calls that succeeded, in
    order, and the database left behind. *)
Fixpoint allocateEach (faults : list TxFault) (d : Database)
  : list Z * Database :=
  match faults with
  | [] => ([], d)
  | f :: rest =>
      match AllocateNextDeviceID f d with
      | (d1, id, nil) =>
          let '(ids, d2) := allocateEach rest d1 in (id :: ids, d2)
      | (d1, _, Errorf _) => allocateEach rest d1
      end
  end.

Definition succeeds (f : TxFault) : bool :=
  match f with NoFault => true | _ => false end.

(** A new database, as the schema seeds it. *)
Definition freshDb : Database :=
  {| online := true; images := []; lastRowID := 0;
     device_sequence := Some 1 |}.

Definition freshWorld : World :=
  {| db := freshDb; validator := Examples.limits; fsLog := [];
     kernelLog := []; fetches := [] |}.

Definition key : string := "images/golang/2.tar".
Definition bucket : string := "flyio-platform-hiring-challenge".
Definition digest : string :=
  "9f86d081884c7d659a2feae0c55ad015a3bf4f1b2b0b822cd15d6c15b0f00a08".

Definition imageArchive : Tar.Archive :=
  {| Tar.entries := [Examples.dirEntry "bin";
                     Examples.regEntry "bin/hello" Examples.abc];
     Tar.readError := nil |}.

(** An environment where the object store has the image and the host
    answers every call; the kernel's answers are the parameter. *)
Definition envWith (kernel : Devicemapper.Cmd -> error) : Env :=
  {| host := Examples.okHost;
     tarAt := fun _ => imageArchive;
     kernel := kernel;
     download := fun _ _ => (nil, (digest, 1000));
     copyDir := fun _ _ => nil;
     txFault := NoFault |}.

Definition kernelOk : Devicemapper.Cmd -> error := fun _ => nil.

(** A kernel that refuses [create_thin] with the given message and
    accepts everything else. *)
Definition createThinFails (msg : string) : Devicemapper.Cmd -> error :=
  fun c =>
    match c with
    | Devicemapper.DmsetupMessage _ text =>
        if Strings.HasPrefix text "create_thin" then Errorf msg else nil
    | _ => nil
    end.

Definition machineWith (dm : option Devicemapper.Manager) : Machine :=
  {| dmManager := dm; workDir := "/var/lib/flyio-machine";
     maxRetries := 3 |}.

Definition linux : Machine :=
  machineWith (Some (Devicemapper.LinuxManager "pool")).

Definition stub : Machine :=
  machineWith (Some (Devicemapper.StubManager "darwin")).

(** The columns of the row for a key that the idempotence property is
    about. *)
Definition deviceColumns (w : World) (s3Key : string)
  : option (string * Z * Z) :=
  match fst (GetByS3Key (db w) s3Key) with
  | Some img => Some (DevicePath img, BaseDeviceID img, SnapshotID img)
  | None => None
  end.

Definition statusOf (w : World) (s3Key : string) : option string :=
  match fst (GetByS3Key (db w) s3Key) with
  | Some img => Some (Status img)
  | None => None
  end.

(** The world after a first activation of [key] on a working Linux
    host, and the row it leaves. *)
Definition activatedWorld : World :=
  fst (fst (Activate (envWith kernelOk) linux key bucket freshWorld)).

Definition activatedRow : Image :=
  {| ID := 1; S3Key := key; SHA256 := digest; Status := StatusReady;
     DevicePath := "/dev/mapper/flyio-1"; BaseDeviceID := 1;
     SnapshotID := 2; ErrorMessage := "" |}.

End Runs.

(** A path element as [Filepath.Clean] keeps it: not empty, no separator
    inside. *)
Definition element (e : string) : Prop :=
  e <> "" /\ Filepath.hasSeparator e = false.

(** A name among the elements: not empty, not [.], not [..], no separator
    inside. *)
Definition real (e : string) : Prop :=
  e <> "" /\ e <> "." /\ e <> ".." /\ Filepath.hasSeparator e = false.

(** The state in which the loop of [Filepath.Clean] ends on a path: the
    count of leading [..] and the names, last one first. *)
Definition cleanState (path : string) : nat * list string :=
  Filepath.cleanLoop (Filepath.IsAbs path) 0 []
    (Strings.Split path Filepath.Separator).

(** ** Measures on archives and on the extractor's log *)
Module Measures.
Import OS Tar Security.

(** An entry the switch of ExtractTarball treats as a regular file. *)
Definition isRegular (e : Entry) : bool :=
Ascii.eqb (Typeflag (header e)) TypeReg.

(** The bytes the regular entries announce. *)
Fixpoint regularBytes (es : list Entry) : Z :=
match es with
| [] => 0
| e :: rest =>
    (if isRegular e then Size (header e) else 0) + regularBytes rest
end.

(** A logged call is accounted for by an entry: the entry passed the
  path check, has the type that leads to the call, and the call is on
  the entry's target; a file was opened only within the per-file limit
  and a link made only after the symlink check. *)
Definition accountsFor (destDir : string) (limit : Z) (e : Entry) (op : Op)
: Prop :=
let hdr := header e in
let target := Filepath.Join [destDir; Name hdr] in
ValidatePath (Name hdr) = nil
/\ match op with
   | MkdirAll p perm =>
       perm = 493
       /\ ((Typeflag hdr = TypeDir /\ p = target)
           \/ (Typeflag hdr = TypeReg /\ p = Filepath.Dir target))
   | OpenFile p perm =>
       Typeflag hdr = TypeReg /\ p = target
       /\ perm = Extractor.FileMode (Mode hdr) /\ Size hdr <= limit
   | Write p data =>
       Typeflag hdr = TypeReg /\ p = target
       /\ exists n, data = firstn n (body e)
   | Close p => Typeflag hdr = TypeReg /\ p = target
   | Symlink oldname newname =>
       Typeflag hdr = TypeSymlink /\ oldname = Linkname hdr
       /\ newname = target
       /\ ValidateSymlink (Name hdr) (Linkname hdr) = nil
   | RemoveAll _ | Remove _ | CopyTree _ _ => False
   end.

(** Two validators with the same limits; only the counter may differ. *)
Definition sameLimits (v1 v2 : Validator) : Prop :=
maxFileSize v1 = maxFileSize v2
/\ maxTotalSize v1 = maxTotalSize v2
/\ ratioCheck v1 = ratioCheck v2.

End Measures.

(** ** pkg/db, continued *)
Module Repository.
Import Db.

(** Delete: the DELETE by id. AUTOINCREMENT keeps the highest rowid ever
  used, so [lastRowID] stays. *)
Definition Delete (d : Database) (id : Z) : Database * error :=
if negb (online d) then (d, Wrap errOffline "failed to delete image")
else (withImages d (filter (fun row => negb (ID row =? id)) (images d)),
      nil).

(** What the schema promises of the table [images]: keys are unique
  (UNIQUE), ids are unique (PRIMARY KEY) and were handed out by the
  AUTOINCREMENT counter, statuses pass the CHECK. *)
Definition wellFormed (d : Database) : Prop :=
NoDup (map S3Key (images d))
/\ NoDup (map ID (images d))
/\ Forall (fun row => ID row <= lastRowID d
                      /\ statusCheck (Status row) = true) (images d).

End Repository.

(** ** cmd/flyio-machine/commands/cleanup.go, the other two modes *)
Module Commands.
Import Db.

(** An entry of [os.ReadDir]: [entry.Name()] and [entry.IsDir()]. *)
Record DirEntry : Type := mkDirEntry {
Name : string;
IsDir : bool
}.

Section WithEnv.
Variable env : Fsm.Env.
Variable dmManager : option Devicemapper.Manager.
Variable WorkDir : string.
(** [os.ReadDir]: the error, else the entries. *)
Variable readDir : string -> error * list DirEntry.

(** The loop of cleanupAllImages over the listed images; the report
holds, for every image, its key and what cleanupImageResources
returned (the line printed is "Failed to clean" or "Cleaned"). *)
Fixpoint cleanupEach (listed : list Image) (w : Fsm.World)
: Fsm.World * list (string * error) :=
match listed with
| [] => (w, [])
| img :: rest =>
  let '(w, img, err) :=
    Cleanup.cleanupImageResources env dmManager WorkDir img w in
  let '(w, report) := cleanupEach rest w in
  (w, (S3Key img, err) :: report)
end.

(** cleanupAllImages. [repo.List()] orders the rows by their timestamps,
which the model does not hold: what it returned is the argument
[listed]. *)
Definition cleanupAllImages (listed : list Image * error) (w : Fsm.World)
: Fsm.World * list (string * error) * error :=
match listed with
| (_, Errorf e) => (w, [], Wrap (Errorf e) "list failed")
| (images, nil) => (cleanupEach images w, nil)
end.

(** The first loop of cleanupOrphanedResources, over the entries of the
extracted directory; [orphanCount] is the number printed at the end. *)
Fixpoint sweepExtracted (extractedDir : string) (entries : list DirEntry)
     (w : Fsm.World) (orphanCount : Z) : Fsm.World * Z :=
match entries with
| [] => (w, orphanCount)
| entry :: rest =>
  if negb (IsDir entry)
  then sweepExtracted extractedDir rest w orphanCount
  else
    match snd (GetByS3Key (Fsm.db w) (Name entry)) with
    | Errorf _ =>
        let orphanPath := Filepath.Join [extractedDir; Name entry] in
        match OS.removeAll (Fsm.host env) orphanPath with
        | Errorf _ => sweepExtracted extractedDir rest w orphanCount
        | nil =>
            sweepExtracted extractedDir rest
              (Fsm.addFs w [OS.RemoveAll orphanPath])
              (wrap64 (orphanCount + 1))
        end
    | nil => sweepExtracted extractedDir rest w orphanCount
    end
end.

(** The second loop, over the entries of the download directory. *)
Fixpoint sweepDownloads (downloadDir : string) (entries : list DirEntry)
     (w : Fsm.World) (orphanCount : Z) : Fsm.World * Z :=
match entries with
| [] => (w, orphanCount)
| entry :: rest =>
  if IsDir entry
  then sweepDownloads downloadDir rest w orphanCount
  else
    match snd (GetByS3Key (Fsm.db w) (Name entry)) with
    | Errorf _ =>
        let orphanPath := Filepath.Join [downloadDir; Name entry] in
        match OS.remove (Fsm.host env) orphanPath with
        | Errorf _ => sweepDownloads downloadDir rest w orphanCount
        | nil =>
            sweepDownloads downloadDir rest
              (Fsm.addFs w [OS.Remove orphanPath])
              (wrap64 (orphanCount + 1))
        end
    | nil => sweepDownloads downloadDir rest w orphanCount
    end
end.

(** cleanupOrphanedResources: the world it leaves, the count it prints
and the error it returns. *)
Definition cleanupOrphanedResources (w : Fsm.World)
: Fsm.World * Z * error :=
let orphanCount := 0 in
let extractedDir := Filepath.Join [WorkDir; "extracted"] in
let '(w, orphanCount) :=
match readDir extractedDir with
| (nil, entries) => sweepExtracted extractedDir entries w orphanCount
| (Errorf _, _) => (w, orphanCount)
end in
let downloadDir := Filepath.Join [WorkDir; "downloads"] in
let '(w, orphanCount) :=
match readDir downloadDir with
| (nil, entries) => sweepDownloads downloadDir entries w orphanCount
| (Errorf _, _) => (w, orphanCount)
end in
(w, orphanCount, nil).

End WithEnv.

End Commands.

(** * Properties *)

(** ** Strings and paths *)

Lemma eqb_false_neq (a b : string) : (a == b) = false -> a <> b.
Proof. apply String.eqb_neq. Qed.

Lemma HasPrefix_cons (c : ascii) (s p : string) :
  Strings.HasPrefix (String c s) (String c p) = Strings.HasPrefix s p.
Proof.
  unfold Strings.HasPrefix; simpl.
  destruct (ascii_dec c c) as [_ | n]; [reflexivity | now destruct n].
Qed.

Lemma HasPrefix_empty (s : string) : Strings.HasPrefix s "" = true.
Proof. now destruct s. Qed.

Lemma IsAbs_rooted (s : string) :
  Filepath.IsAbs (String Filepath.Separator s) = true.
Proof.
  unfold Filepath.IsAbs, Filepath.Separator.
  rewrite HasPrefix_cons. apply HasPrefix_empty.
Qed.

Lemma HasPrefix_head (c d : ascii) (s p : string) :
  c <> d -> Strings.HasPrefix (String c s) (String d p) = false.
Proof.
  intros Hcd; unfold Strings.HasPrefix; simpl.
  destruct (ascii_dec d c) as [e | _]; [now destruct Hcd | reflexivity].
Qed.

Lemma Split_no_separator (s : string) :
  Forall (fun e => Filepath.hasSeparator e = false)
         (Strings.Split s Filepath.Separator).
Proof.
  induction s as [| c s IH]; simpl.
  - constructor; [reflexivity | constructor].
  - destruct (Ascii.eqb c Filepath.Separator) eqn:Hc.
    + constructor; [reflexivity | exact IH].
    + destruct (Strings.Split s Filepath.Separator) as [| piece pieces].
      * constructor; [simpl; now rewrite Hc | constructor].
      * inversion IH as [| ? ? Hp Hps]; subst.
        constructor; [simpl; now rewrite Hc, Hp | exact Hps].
Qed.

Lemma cleanLoop_elements (rooted : bool) (elems : list string) :
  Forall (fun e => Filepath.hasSeparator e = false) elems ->
  forall dotdot out,
    Forall element out ->
    Forall element (snd (Filepath.cleanLoop rooted dotdot out elems)).
Proof.
  induction 1 as [| e rest He _ IH]; intros dotdot out Hout; simpl.
  - exact Hout.
  - destruct (e == "") eqn:E1; simpl; [now apply IH |].
    destruct (e == ".") eqn:E2; simpl; [now apply IH |].
    destruct (e == "..") eqn:E3.
    + destruct out as [| top below].
      * destruct rooted; now apply IH.
      * apply IH. now inversion Hout.
    + apply IH. constructor; [| exact Hout].
      split; [now apply eqb_false_neq | exact He].
Qed.

Lemma cleanElems_elements (path : string) :
  Forall element (Filepath.cleanElems path).
Proof.
  unfold Filepath.cleanElems.
  pose proof (cleanLoop_elements (Filepath.IsAbs path) _
                (Split_no_separator path) 0%nat [] (Forall_nil _)) as H.
  destruct (Filepath.cleanLoop _ _ _ _) as [dotdot out]; simpl in H.
  apply Forall_app; split.
  - clear H. induction dotdot; simpl; constructor; auto.
    split; [discriminate | reflexivity].
  - now apply Forall_rev.
Qed.

Lemma Join_elements_relative (l : list string) :
  Forall element l -> Filepath.IsAbs (Strings.Join l "/") = false.
Proof.
  intros H. destruct H as [| e rest [Hne Hsep] _]; [reflexivity |].
  destruct e as [| c e']; [now destruct Hne |].
  simpl in Hsep. apply Bool.orb_false_iff in Hsep as [Hc _].
  assert (Hhead : forall t, Filepath.IsAbs (String c t) = false).
  { intros t. unfold Filepath.IsAbs. apply HasPrefix_head.
    intros ->. discriminate Hc. }
  simpl. destruct rest; apply Hhead.
Qed.

(** Cleaning keeps a path absolute or relative. *)
Lemma Clean_IsAbs (path : string) :
  Filepath.IsAbs (Filepath.Clean path) = Filepath.IsAbs path.
Proof.
  unfold Filepath.Clean.
  destruct (path == "") eqn:E.
  - apply String.eqb_eq in E; subst; reflexivity.
  - destruct (Filepath.IsAbs path) eqn:A; [apply IsAbs_rooted |].
    destruct (Strings.Join (Filepath.cleanElems path) "/" == "") eqn:B;
      [reflexivity |].
    apply Join_elements_relative, cleanElems_elements.
Qed.

(** The code's path check is the specification's: ValidatePath fails
    exactly on the names whose canonical form is absolute or begins with
    [..]. *)
Lemma ValidatePath_spec (name : string) :
  isNil (Security.ValidatePath name) = negb (Spec.pathViolation name).
Proof.
  unfold Security.ValidatePath, Spec.pathViolation.
  rewrite Clean_IsAbs.
  destruct (Filepath.IsAbs name); [reflexivity |].
  destruct (Strings.HasPrefix _ ".."); reflexivity.
Qed.

Lemma ValidatePath_error (name : string) :
  Security.ValidatePath name <> nil ->
  exists m, Security.ValidatePath name = Errorf m
            /\ Strings.HasPrefix m "security: " = true.
Proof.
  unfold Security.ValidatePath, Security.errAbsolutePath,
    Security.errPathTraversal.
  destruct (Filepath.IsAbs name).
  - intros _. eexists; split; reflexivity.
  - destruct (Strings.HasPrefix _ "..").
    + intros _. eexists; split; reflexivity.
    + intros H; now destruct H.
Qed.

(** ** The validator *)

(** C9. validate_path rejects every entry name whose cleaned form begins
    with the two characters [..] as a string prefix: what it returns is
    not [nil], it is the error with the text "security: path traversal
    detected: " followed by the name. The test is on characters, not on
    the first path element (the instance below is [..config], one
    harmless element). *)
Theorem ValidatePath_rejects_dotdot_prefix (tarPath : string) :
  Strings.HasPrefix (Filepath.Clean tarPath) ".." = true ->
  Security.ValidatePath tarPath <> nil
  /\ Security.ValidatePath tarPath
     = Errorf ("security: path traversal detected: " ++ tarPath).
Proof.
  intros H.
  assert (E : Security.ValidatePath tarPath
              = Errorf ("security: path traversal detected: " ++ tarPath)).
  { unfold Security.ValidatePath.
    destruct (Filepath.IsAbs tarPath) eqn:A.
    - exfalso. rewrite <- Clean_IsAbs in A. unfold Filepath.IsAbs in A.
      destruct (Filepath.Clean tarPath) as [| c s]; [discriminate |].
      destruct (ascii_dec c "/") as [-> | n].
      + rewrite HasPrefix_head in H; [discriminate | discriminate].
      + rewrite HasPrefix_head in A; [discriminate | exact n].
    - now rewrite H. }
  split; [rewrite E; discriminate | exact E].
Qed.

(** The name [..config] is one element, different from [..], it stays
    under the destination when joined to it, and it is rejected. *)
Lemma ValidatePath_rejects_dotdot_prefix_witness :
  Strings.HasPrefix (Filepath.Clean "..config") ".." = true
  /\ Filepath.cleanElems "..config" = ["..config"]
  /\ isNil (Security.ValidatePath "..config") = false
  /\ Security.ValidatePath "..config"
     = Errorf "security: path traversal detected: ..config".
Proof.
  split; [reflexivity |]. split; [reflexivity |].
  destruct (ValidatePath_rejects_dotdot_prefix "..config" eq_refl)
    as [Hne E].
  split; [| exact E].
  destruct (Security.ValidatePath "..config"); [now destruct Hne |].
  reflexivity.
Defined.

Example dotdot_config_is_harmless :
  Filepath.cleanElems "..config" = ["..config"]
  /\ ("..config" == "..") = false
  /\ Filepath.Join ["/work/extracted/img"; "..config"]
     = "/work/extracted/img/..config".
Proof. repeat split. Qed.

(** The cases of TestValidatePath_PathTraversal. *)
Example TestValidatePath_PathTraversal :
  map (fun p => isNil (Security.ValidatePath p))
      ["file.txt"; "dir/file.txt"; "../etc/passwd"; "/etc/passwd";
       "dir/../file.txt"; "dir/../../etc/passwd"]
  = [true; true; false; false; true; false].
Proof. reflexivity. Qed.

(** How ValidateSymlink decides, for every input: absolute targets pass;
    a relative target fails exactly when the depth counted over the
    cleaned resolution is negative. *)
Lemma ValidateSymlink_decision (symlinkPath targetPath : string) :
  isNil (Security.ValidateSymlink symlinkPath targetPath)
  = Filepath.IsAbs targetPath
    || negb (Security.symlinkDepth symlinkPath targetPath <? 0).
Proof.
  unfold Security.ValidateSymlink, Security.symlinkDepth.
  destruct (Filepath.IsAbs targetPath); [reflexivity |].
  simpl. destruct (_ <? 0); reflexivity.
Qed.

(** ** The cleaned form of relative paths *)
Lemma Split_nonempty (s : string) : Strings.Split s "/" <> [].
Proof.
  destruct s as [| c s]; simpl; [discriminate |].
  destruct (Ascii.eqb c "/"); [discriminate |].
  destruct (Strings.Split s "/"); discriminate.
Qed.

Lemma Split_single (e : string) :
  Filepath.hasSeparator e = false -> Strings.Split e "/" = [e].
Proof.
  induction e as [| c e IH]; simpl; [reflexivity |].
  intros H. apply Bool.orb_false_iff in H as [Hc He].
  unfold Filepath.Separator in Hc. rewrite Hc, (IH He). reflexivity.
Qed.

Lemma Split_app_separator (a b : string) :
  Strings.Split (a ++ String "/" b) "/"
  = (Strings.Split a "/" ++ Strings.Split b "/")%list.
Proof.
  induction a as [| c a IH]; simpl; [reflexivity |].
  destruct (Ascii.eqb c "/"); [now rewrite IH |].
  rewrite IH.
  pose proof (Split_nonempty a) as Hne.
  destruct (Strings.Split a "/") as [| p ps]; [now destruct Hne |].
  reflexivity.
Qed.

Lemma Split_Join (l : list string) :
  Forall (fun e => Filepath.hasSeparator e = false) l ->
  l <> [] ->
  Strings.Split (Strings.Join l "/") "/" = l.
Proof.
  induction 1 as [| e rest He Hrest IH]; intros Hne; [now destruct Hne |].
  destruct rest as [| e2 rest].
  - simpl. now apply Split_single.
  - change (Strings.Join (e :: e2 :: rest) "/")
      with (e ++ String "/" (Strings.Join (e2 :: rest) "/")).
    rewrite Split_app_separator, (Split_single e He), IH; [reflexivity |].
    discriminate.
Qed.

Lemma cleanLoop_app (rooted : bool) (xs ys : list string) :
  forall dotdot out,
    Filepath.cleanLoop rooted dotdot out (xs ++ ys)
    = let '(dotdot1, out1) := Filepath.cleanLoop rooted dotdot out xs in
      Filepath.cleanLoop rooted dotdot1 out1 ys.
Proof.
  induction xs as [| e xs IH]; intros dotdot out; simpl; [reflexivity |].
  destruct ((e == "") || (e == ".")); [apply IH |].
  destruct (e == "..").
  - destruct out; [destruct rooted |]; apply IH.
  - apply IH.
Qed.

Lemma real_tests (e : string) :
  real e -> (e == "") = false /\ (e == ".") = false /\ (e == "..") = false.
Proof.
  intros (H1 & H2 & H3 & _). repeat split; now apply String.eqb_neq.
Qed.

Lemma cleanLoop_reals (rooted : bool) (xs : list string) :
  Forall real xs ->
  forall dotdot out,
    Filepath.cleanLoop rooted dotdot out xs = (dotdot, (rev xs ++ out)%list).
Proof.
  induction 1 as [| e xs He _ IH]; intros dotdot out; simpl; [reflexivity |].
  destruct (real_tests e He) as (-> & -> & ->). simpl.
  rewrite IH. now rewrite <- app_assoc.
Qed.

Lemma cleanLoop_dotdots (k : nat) :
  forall dotdot,
    Filepath.cleanLoop false dotdot [] (repeat ".." k)
    = ((dotdot + k)%nat, []).
Proof.
  induction k as [| k IH]; intros dotdot; simpl.
  - now rewrite Nat.add_0_r.
  - rewrite IH. f_equal. lia.
Qed.

Lemma cleanLoop_real_out (rooted : bool) (elems : list string) :
  Forall (fun e => Filepath.hasSeparator e = false) elems ->
  forall dotdot out,
    Forall real out ->
    Forall real (snd (Filepath.cleanLoop rooted dotdot out elems)).
Proof.
  induction 1 as [| e rest He _ IH]; intros dotdot out Hout; simpl.
  - exact Hout.
  - destruct (e == "") eqn:E1; simpl; [now apply IH |].
    destruct (e == ".") eqn:E2; simpl; [now apply IH |].
    destruct (e == "..") eqn:E3.
    + destruct out as [| top below].
      * destruct rooted; now apply IH.
      * apply IH. now inversion Hout.
    + apply IH. constructor; [| exact Hout].
      repeat split; try (now apply String.eqb_neq). exact He.
Qed.

Lemma cleanLoop_dotdot_grows (rooted : bool) (elems : list string) :
  forall dotdot out,
    (dotdot <= fst (Filepath.cleanLoop rooted dotdot out elems))%nat.
Proof.
  induction elems as [| e rest IH]; intros dotdot out; simpl; [lia |].
  destruct ((e == "") || (e == ".")); [apply IH |].
  destruct (e == "..").
  - destruct out; [destruct rooted |]; try apply IH.
    specialize (IH (S dotdot) []). lia.
  - apply IH.
Qed.

Lemma cleanState_real (path : string) :
  Forall real (snd (cleanState path)).
Proof.
  apply cleanLoop_real_out; [apply Split_no_separator | constructor].
Qed.

Lemma real_no_separator (l : list string) :
  Forall real l -> Forall (fun e => Filepath.hasSeparator e = false) l.
Proof. apply Forall_impl. now intros e (_ & _ & _ & H). Qed.

Lemma elems_no_separator (dotdot : nat) (out : list string) :
  Forall real out ->
  Forall (fun e => Filepath.hasSeparator e = false)
         (repeat ".." dotdot ++ rev out).
Proof.
  intros H. apply Forall_app; split.
  - induction dotdot; simpl; constructor; auto.
  - apply real_no_separator. now apply Forall_rev.
Qed.

Lemma Join_nonempty (e : string) (rest : list string) :
  e <> "" -> Strings.Join (e :: rest) "/" <> "".
Proof.
  intros He. destruct e as [| c e]; [now destruct He |].
  destruct rest; simpl; discriminate.
Qed.

Lemma elems_head_nonempty (dotdot : nat) (out : list string) e rest :
  Forall real out ->
  (repeat ".." dotdot ++ rev out)%list = e :: rest -> e <> "".
Proof.
  intros Hout Heq.
  assert (Hall : Forall (fun e => e <> "") (repeat ".." dotdot ++ rev out)).
  { apply Forall_app; split.
    - clear Heq. induction dotdot as [| k IH]; simpl.
      + constructor.
      + constructor; [discriminate | exact IH].
    - apply Forall_rev. revert Hout. apply Forall_impl.
      now intros a (H & _). }
  rewrite Heq in Hall. now inversion Hall.
Qed.

(** The cleaned form of a relative path, from the state its loop ends
    in. *)
Lemma Clean_relative (path : string) (dotdot : nat) (out : list string) :
  Filepath.IsAbs path = false ->
  cleanState path = (dotdot, out) ->
  Filepath.Clean path
  = match (repeat ".." dotdot ++ rev out)%list with
    | [] => "."
    | l => Strings.Join l "/"
    end.
Proof.
  intros Hrel Hst.
  pose proof (cleanState_real path) as Hreal. rewrite Hst in Hreal.
  simpl in Hreal.
  unfold Filepath.Clean, Filepath.cleanElems.
  unfold cleanState in Hst. rewrite Hrel in *. rewrite Hst.
  destruct (path == "") eqn:E.
  - apply String.eqb_eq in E; subst path. simpl in Hst.
    inversion Hst; subst. reflexivity.
  - destruct (repeat ".." dotdot ++ rev out)%list as [| e rest] eqn:El;
      [reflexivity |].
    pose proof (Join_nonempty e rest
                  (elems_head_nonempty dotdot out e rest Hreal El)) as Hne.
    apply String.eqb_neq in Hne. now rewrite Hne.
Qed.

Lemma Split_Clean_relative (path : string) (dotdot : nat)
      (out : list string) :
  Filepath.IsAbs path = false ->
  cleanState path = (dotdot, out) ->
  Strings.Split (Filepath.Clean path) "/"
  = match (repeat ".." dotdot ++ rev out)%list with
    | [] => ["."]
    | l => l
    end.
Proof.
  intros Hrel Hst.
  pose proof (cleanState_real path) as Hreal. rewrite Hst in Hreal.
  simpl in Hreal.
  rewrite (Clean_relative path dotdot out Hrel Hst).
  pose proof (elems_no_separator dotdot out Hreal) as Hsep.
  destruct (repeat ".." dotdot ++ rev out)%list as [| e rest];
    [reflexivity |].
  apply Split_Join; [exact Hsep | discriminate].
Qed.

(** Cleaning is idempotent on the loop's state. *)
Lemma cleanState_Clean (path : string) (dotdot : nat) (out : list string) :
  Filepath.IsAbs path = false ->
  cleanState path = (dotdot, out) ->
  cleanState (Filepath.Clean path) = (dotdot, out).
Proof.
  intros Hrel Hst.
  pose proof (cleanState_real path) as Hreal. rewrite Hst in Hreal.
  simpl in Hreal.
  unfold cleanState at 1. rewrite Clean_IsAbs, Hrel.
  unfold Filepath.Separator.
  rewrite (Split_Clean_relative path dotdot out Hrel Hst).
  destruct (repeat ".." dotdot ++ rev out)%list as [| e rest] eqn:El.
  - apply app_eq_nil in El as [Hd Ho].
    destruct dotdot; [| discriminate].
    destruct out as [| o out']; [reflexivity |].
    simpl in Ho. now apply app_eq_nil in Ho as [_ Ho].
  - rewrite <- El, cleanLoop_app, cleanLoop_dotdots.
    rewrite cleanLoop_reals by now apply Forall_rev.
    now rewrite rev_involutive, app_nil_r.
Qed.

Lemma depthOf_dotdots (k : nat) (l : list string) :
  forall z,
    Security.depthOf (repeat ".." k ++ l) z
    = Security.depthOf l (z - Z.of_nat k).
Proof.
  induction k as [| k IH]; intros z; simpl repeat; simpl app.
  - f_equal. lia.
  - simpl Security.depthOf. rewrite IH. f_equal. lia.
Qed.

Lemma depthOf_reals (l : list string) :
  Forall real l ->
  forall z, Security.depthOf l z = z + Z.of_nat (List.length l).
Proof.
  induction 1 as [| e l He _ IH]; intros z; simpl; [lia |].
  destruct (real_tests e He) as (-> & -> & ->). simpl.
  rewrite IH. lia.
Qed.

(** The depth ValidateSymlink counts over a cleaned relative path: real
    elements minus leading [..] elements. *)
Lemma depthOf_Clean_relative (path : string) (dotdot : nat)
      (out : list string) :
  Filepath.IsAbs path = false ->
  cleanState path = (dotdot, out) ->
  Security.depthOf (Strings.Split (Filepath.Clean path) "/") 0
  = Z.of_nat (List.length out) - Z.of_nat dotdot.
Proof.
  intros Hrel Hst.
  pose proof (cleanState_real path) as Hreal. rewrite Hst in Hreal.
  simpl in Hreal.
  rewrite (Split_Clean_relative path dotdot out Hrel Hst).
  destruct (repeat ".." dotdot ++ rev out)%list as [| e rest] eqn:El.
  - apply app_eq_nil in El as [Hd Ho].
    destruct dotdot; [| discriminate].
    destruct out as [| o out']; [reflexivity |].
    simpl in Ho. now apply app_eq_nil in Ho as [_ Ho].
  - rewrite <- El, depthOf_dotdots, depthOf_reals by now apply Forall_rev.
    rewrite length_rev. lia.
Qed.

Lemma uptoLastSeparator_cut (path : string) :
  (Filepath.hasSeparator path = false
   /\ Filepath.uptoLastSeparator path = "")
  \/ (exists before last,
         Filepath.uptoLastSeparator path = before ++ "/"
         /\ path = before ++ String "/" last
         /\ Filepath.hasSeparator last = false).
Proof.
  induction path as [| c rest IH]; [left; split; reflexivity |].
  simpl. destruct (Ascii.eqb c Filepath.Separator) eqn:Hc; simpl.
  - right. apply Ascii.eqb_eq in Hc; subst c.
    destruct IH as [[Hno Hu] | (before & last & Hu & Hp & Hl)].
    + exists "", rest. rewrite Hu. now repeat split.
    + exists (String Filepath.Separator before), last.
      rewrite Hu. repeat split; [now rewrite Hp at 1 | exact Hl].
  - destruct (Filepath.hasSeparator rest) eqn:Hs.
    + right. destruct IH as [[Hno _] | (before & last & Hu & Hp & Hl)];
        [discriminate |].
      exists (String c before), last.
      rewrite Hu. repeat split; [now rewrite Hp at 1 | exact Hl].
    + left. split; reflexivity.
Qed.

Lemma IsAbs_app (a b : string) :
  a <> "" -> Filepath.IsAbs (a ++ b) = Filepath.IsAbs a.
Proof.
  intros Ha. destruct a as [| c a]; [now destruct Ha |].
  change (String c a ++ b) with (String c (a ++ b)).
  unfold Filepath.IsAbs.
  destruct (ascii_dec c "/") as [-> | Hc].
  - now rewrite !HasPrefix_cons, !HasPrefix_empty.
  - now rewrite !HasPrefix_head.
Qed.

Lemma Clean_nonempty (path : string) : Filepath.Clean path <> "".
Proof.
  unfold Filepath.Clean.
  destruct (path == ""); [discriminate |].
  destruct (Filepath.IsAbs path); [discriminate |].
  destruct (Strings.Join (Filepath.cleanElems path) "/" == "") eqn:E;
    [discriminate |].
  now apply String.eqb_neq.
Qed.

(** A name that passes ValidatePath is relative and its cleaned form has
    no leading [..] element. *)
Lemma ValidatePath_state (name : string) :
  Security.ValidatePath name = nil ->
  Filepath.IsAbs name = false /\ fst (cleanState name) = 0%nat.
Proof.
  unfold Security.ValidatePath.
  destruct (Filepath.IsAbs name) eqn:Hrel; [discriminate |].
  destruct (Strings.HasPrefix (Filepath.Clean name) "..") eqn:Hp;
    [discriminate |].
  intros _. split; [reflexivity |].
  destruct (cleanState name) as [dotdot out] eqn:Hst.
  rewrite (Clean_relative name dotdot out Hrel Hst) in Hp.
  destruct dotdot as [| k]; [reflexivity |].
  exfalso.
  change (repeat ".." (S k) ++ rev out)%list
    with (".." :: (repeat ".." k ++ rev out))%list in Hp.
  destruct (repeat ".." k ++ rev out)%list as [| e2 rest].
  - discriminate Hp.
  - change (Strings.Join (".." :: e2 :: rest) "/")
      with (String "." (String "." (String "/"
              (Strings.Join (e2 :: rest) "/")))) in Hp.
    rewrite !HasPrefix_cons, HasPrefix_empty in Hp. discriminate.
Qed.

(** The directory of a validated name is relative, not empty, and has no
    leading [..] element either. *)
Lemma Dir_state (name : string) :
  Security.ValidatePath name = nil ->
  Filepath.IsAbs (Filepath.Dir name) = false
  /\ exists out, cleanState (Filepath.Dir name) = (0%nat, out).
Proof.
  intros Hv. destruct (ValidatePath_state name Hv) as [Hrel Hdd].
  unfold Filepath.Dir.
  destruct (uptoLastSeparator_cut name)
    as [[_ Hu] | (before & last & Hu & Hp & Hl)]; rewrite Hu.
  - split; [reflexivity | now exists []].
  - assert (Hb : before <> "").
    { intros ->. rewrite Hp in Hrel.
      change (Filepath.IsAbs (String Filepath.Separator last) = false)
        in Hrel.
      rewrite IsAbs_rooted in Hrel. discriminate. }
    assert (Hurel : Filepath.IsAbs (before ++ "/") = false).
    { rewrite IsAbs_app by exact Hb.
      rewrite <- (IsAbs_app before (String "/" last)) by exact Hb.
      now rewrite <- Hp. }
    rewrite Clean_IsAbs. split; [exact Hurel |].
    destruct (Filepath.cleanLoop false 0 [] (Strings.Split before "/"))
      as [dotdot0 out0] eqn:H0.
    assert (Hu0 : cleanState (before ++ "/") = (dotdot0, out0)).
    { unfold cleanState. rewrite Hurel. unfold Filepath.Separator.
      change (before ++ "/") with (before ++ String "/" "").
      rewrite Split_app_separator, cleanLoop_app, H0. reflexivity. }
    assert (Hzero : dotdot0 = 0%nat).
    { unfold cleanState in Hdd. rewrite Hrel in Hdd.
      unfold Filepath.Separator in Hdd.
      rewrite Hp, Split_app_separator, cleanLoop_app, H0 in Hdd.
      pose proof (cleanLoop_dotdot_grows false (Strings.Split last "/")
                    dotdot0 out0) as Hg.
      lia. }
    subst dotdot0. exists out0.
    now apply cleanState_Clean.
Qed.

(** The depth counted for a relative target of a symlink at a validated
    name: the target's elements are run through the loop of Clean from
    the directory's elements, and the counter is the number of names left
    minus the number of [..] left in front. *)
Lemma symlinkDepth_formula (name target : string) (out : list string) :
  Security.ValidatePath name = nil ->
  cleanState (Filepath.Dir name) = (0%nat, out) ->
  let '(dotdot', out') :=
    Filepath.cleanLoop false 0 out (Strings.Split target "/") in
  Security.symlinkDepth name target
  = Z.of_nat (List.length out') - Z.of_nat dotdot'.
Proof.
  intros Hv Hst.
  destruct (Dir_state name Hv) as [Hrel _].
  pose proof (Clean_nonempty (Filepath.uptoLastSeparator name)) as Hne.
  fold (Filepath.Dir name) in Hne.
  set (dir := Filepath.Dir name) in *.
  assert (Hjoin : Filepath.Join [dir; target]
                  = Filepath.Clean (dir ++ String "/" target)).
  { simpl. apply String.eqb_neq in Hne. now rewrite Hne. }
  assert (Hxrel : Filepath.IsAbs (dir ++ String "/" target) = false).
  { now rewrite IsAbs_app. }
  destruct (Filepath.cleanLoop false 0 out (Strings.Split target "/"))
    as [dotdot' out'] eqn:Hloop.
  assert (Hx : cleanState (dir ++ String "/" target) = (dotdot', out')).
  { unfold cleanState. rewrite Hxrel. unfold Filepath.Separator.
    rewrite Split_app_separator, cleanLoop_app.
    unfold cleanState in Hst. rewrite Hrel in Hst.
    unfold Filepath.Separator in Hst. now rewrite Hst. }
  unfold Security.symlinkDepth. fold dir. rewrite Hjoin.
  apply depthOf_Clean_relative.
  - now rewrite Clean_IsAbs.
  - now apply cleanState_Clean.
Qed.

(** Wherever a symlink entry with the target [../../etc/passwd] is placed
    in an archive, the check that follows the path check lets it
    through. *)
Lemma ValidateSymlink_passwd_everywhere (name : string) :
  Security.ValidatePath name = nil ->
  Security.ValidateSymlink name "../../etc/passwd" = nil.
Proof.
  intros Hv. destruct (Dir_state name Hv) as [_ [out Hst]].
  pose proof (symlinkDepth_formula name "../../etc/passwd" out Hv Hst) as H.
  pose proof (ValidateSymlink_decision name "../../etc/passwd") as D.
  assert (Hd : 0 <= Security.symlinkDepth name "../../etc/passwd").
  { destruct out as [| a [| b out]]; simpl in H; rewrite H; simpl; lia. }
  apply Z.ltb_ge in Hd. rewrite Hd in D. simpl in D.
  now destruct (Security.ValidateSymlink name "../../etc/passwd").
Qed.

(** C4. validate_symlink accepts every absolute target, decides relative
    targets by the sign of the depth counter, and accepts
    [../conf.avail/file] from a nested directory; but the target
    [../../etc/passwd] of a symlink at the extraction root (or one
    directory below it) resolves to a path above the root whose counter
    is not negative ([..], [..], [etc], [passwd] sum to 0), and is
    accepted too; in fact it is accepted at every entry name that passes
    the path check. Three [..] are needed for a rejection at the root. *)
Theorem ValidateSymlink_accepts_escape_near_root :
  (forall symlinkPath targetPath,
      Filepath.IsAbs targetPath = true ->
      Security.ValidateSymlink symlinkPath targetPath = nil)
  /\ (forall symlinkPath targetPath,
      Filepath.IsAbs targetPath = false ->
      (Security.ValidateSymlink symlinkPath targetPath <> nil
       <-> Security.symlinkDepth symlinkPath targetPath < 0))
  /\ Security.ValidateSymlink "etc/fonts/conf.d/foo" "../conf.avail/file" = nil
  /\ Filepath.Join [Filepath.Dir "foo"; "../../etc/passwd"]
     = "../../etc/passwd"
  /\ Security.symlinkDepth "foo" "../../etc/passwd" = 0
  /\ Security.ValidateSymlink "foo" "../../etc/passwd" = nil
  /\ Security.ValidateSymlink "bin/foo" "../../etc/passwd" = nil
  /\ (forall name,
      Security.ValidatePath name = nil ->
      Security.ValidateSymlink name "../../etc/passwd" = nil)
  /\ Security.ValidateSymlink "foo" "../../../etc/passwd" <> nil.
Proof.
  split; [| split].
  - intros s t H. unfold Security.ValidateSymlink. now rewrite H.
  - intros s t H.
    pose proof (ValidateSymlink_decision s t) as D. rewrite H in D.
    simpl in D. split.
    + intros Hne. apply Z.ltb_lt.
      destruct (Security.ValidateSymlink s t); [now destruct Hne |].
      simpl in D. now destruct (_ <? 0).
    + intros Hd Heq. rewrite Heq in D. apply Z.ltb_lt in Hd.
      rewrite Hd in D. discriminate.
  - repeat split; try reflexivity.
    + apply ValidateSymlink_passwd_everywhere.
    + discriminate.
Qed.

(** ** The extractor *)

Section ExtractorFacts.
Import OS Tar Security Extractor.
Variable host : Host.
Variable tarAt : string -> Archive.

Lemma extractEntry_violation (destDir : string) (v : Validator)
      (e : Entry) (m : string) :
  ValidatePath (Name (header e)) = Errorf m ->
  extractEntry host destDir v e
  = (v, [], Errorf ("invalid path in tar: " ++ m)).
Proof. intros H. unfold extractEntry. now rewrite H. Qed.

(** The loop over a list cut in two: the second part runs only when the
    first ended without error, and its effects come after. *)
Lemma extractEntries_app (destDir : string) (before rest : list Entry) :
  forall v,
    extractEntries host destDir v (before ++ rest)
    = match extractEntries host destDir v before with
      | (v1, ops1, nil) =>
          let '(v2, ops2, err) := extractEntries host destDir v1 rest in
          (v2, (ops1 ++ ops2)%list, err)
      | (v1, ops1, Errorf m) => (v1, ops1, Errorf m)
      end.
Proof.
  induction before as [| e before IH]; intros v; simpl.
  - now destruct (extractEntries host destDir v rest) as [[v2 ops2] err].
  - destruct (extractEntry host destDir v e) as [[v1 ops] [| m]];
      [| reflexivity].
    rewrite IH.
    destruct (extractEntries host destDir v1 before) as [[v2 ops2] [| m]];
      [| reflexivity].
    destruct (extractEntries host destDir v2 rest) as [[v3 ops3] err].
    now rewrite app_assoc.
Qed.

(** When the loop stops at an entry, the function returns what the loop
    returned. *)
Lemma ExtractTarball_stops (tarPath destDir : string) (v v1 : Validator)
      (ops : list Op) (m : string) :
  open host tarPath = nil ->
  extractEntries host destDir (Reset v) (entries (tarAt tarPath))
  = (v1, ops, Errorf m) ->
  ExtractTarball host tarAt tarPath destDir v = (v1, ops, Errorf m).
Proof.
  intros Ho He. unfold ExtractTarball. now rewrite Ho, He.
Qed.




End ExtractorFacts.

(** C3, as the code has it. For every readable archive with an entry whose
    canonical name is absolute or begins with [..]: extraction fails, and
    nothing is written for that entry or any entry after it, so that the
    destination holds exactly what the entries before it wrote (nothing
    at all when it is the first entry). When no earlier entry failed,
    the failure is the path violation of that entry. *)
Theorem ExtractTarball_stops_at_path_violation
        (host : OS.Host) (tarAt : string -> Tar.Archive)
        (tarPath destDir : string) (v : Security.Validator)
        (before after : list Tar.Entry) (e : Tar.Entry) :
  OS.open host tarPath = nil ->
  Tar.entries (tarAt tarPath) = (before ++ e :: after)%list ->
  Spec.pathViolation (Tar.Name (Tar.header e)) = true ->
  let '(_, written, failure) :=
    Extractor.extractEntries host destDir (Security.Reset v) before in
  let '(_, ops, err) :=
    Extractor.ExtractTarball host tarAt tarPath destDir v in
  ops = written
  /\ err <> nil
  /\ (failure = nil -> Spec.isPathViolation err = true)
  /\ (before = [] -> ops = []).
Proof.
  intros Ho He Hv.
  assert (Hbad : Security.ValidatePath (Tar.Name (Tar.header e)) <> nil).
  { intros Heq. pose proof (ValidatePath_spec (Tar.Name (Tar.header e))) as S.
    rewrite Heq, Hv in S. discriminate. }
  destruct (ValidatePath_error _ Hbad) as (m & Hm & Hsec).
  pose proof (extractEntries_app host destDir before (e :: after)
                (Security.Reset v)) as Happ.
  destruct (Extractor.extractEntries host destDir (Security.Reset v) before)
    as [[v1 written] failure] eqn:Hb.
  simpl in Happ. rewrite (extractEntry_violation host destDir v1 e m Hm) in Happ.
  assert (Hrun : exists v2 m2,
             Extractor.extractEntries host destDir (Security.Reset v)
               (Tar.entries (tarAt tarPath)) = (v2, written, Errorf m2)
             /\ (failure = nil ->
                 m2 = "invalid path in tar: " ++ m)).
  { rewrite He, Happ. destruct failure as [| m0].
    - exists v1, ("invalid path in tar: " ++ m). rewrite app_nil_r.
      split; [reflexivity | reflexivity].
    - exists v1, m0. split; [reflexivity | discriminate]. }
  destruct Hrun as (v2 & m2 & Hrun & Hkind).
  rewrite (ExtractTarball_stops host tarAt tarPath destDir v v2 written m2
             Ho Hrun).
  repeat split.
  - discriminate.
  - intros Hf. rewrite (Hkind Hf). unfold Spec.isPathViolation. simpl.
    repeat rewrite HasPrefix_cons.
    unfold Strings.HasPrefix in *. exact Hsec.
  - intros ->. simpl in Hb. now inversion Hb.
Qed.

Lemma ExtractTarball_stops_at_path_violation_witness :
  let '(_, ops, err) :=
    Extractor.ExtractTarball Examples.okHost
      (fun _ => Examples.traversalArchive) "img.tar" "/work/extracted/img"
      Examples.limits in
  ops = [OS.MkdirAll "/work/extracted/img/bin" 493]
  /\ err <> nil
  /\ Spec.isPathViolation err = true.
Proof.
  pose proof (ExtractTarball_stops_at_path_violation Examples.okHost
                (fun _ => Examples.traversalArchive) "img.tar"
                "/work/extracted/img" Examples.limits
                [Examples.dirEntry "bin"]
                []
                (Examples.regEntry "../evil" Examples.abc)
                eq_refl eq_refl eq_refl) as H.
  vm_compute in H |- *.
  destruct H as (H1 & H2 & H3 & _).
  split; [exact H1 | split; [exact H2 | exact (H3 eq_refl)]].
Defined.

(** C3 in the specification's wording ("before any filesystem entry is
    written") does not hold: the directory [bin] that precedes the offending
    entry [../evil] is in the destination when extraction returns its
    path violation. *)
Lemma ExtractTarball_writes_before_violation :
  existsb (fun e => Spec.pathViolation (Tar.Name (Tar.header e)))
          (Tar.entries Examples.traversalArchive) = true
  /\ let '(_, ops, err) :=
       Extractor.ExtractTarball Examples.okHost
         (fun _ => Examples.traversalArchive) "img.tar"
         "/work/extracted/img" Examples.limits in
     Spec.isPathViolation err = true
     /\ ops <> []
     /\ OS.existsAfter ops "/work/extracted/img/bin" = true.
Proof.
  split; [reflexivity |].
  vm_compute. repeat split. discriminate.
Qed.

Lemma existsAfter_app (log1 log2 : list OS.Op) (path : string) :
  OS.existsAfter (log1 ++ log2) path
  = fold_left (OS.replayOp path) log2 (OS.existsAfter log1 path).
Proof. unfold OS.existsAfter. apply fold_left_app. Qed.





(** C8, as the code has it. The switch of ExtractTarball has three
    cases and no default. For an entry whose name passes the path check:
    a directory entry is made with MkdirAll; a regular-file entry that
    passes the two size checks gets its parent directory and is opened,
    written in full and closed; a symbolic-link entry whose target passes
    the symlink check is made with Symlink (each of the three as long as
    the host does not fail the call). An entry of any other type, hard
    links, character devices and block devices included, is skipped: no
    error, nothing written, the validator untouched. *)
Theorem extractEntry_type_policy
        (host : OS.Host) (destDir : string) (v : Security.Validator)
        (e : Tar.Entry) :
  Security.ValidatePath (Tar.Name (Tar.header e)) = nil ->
  let hdr := Tar.header e in
  let target := Filepath.Join [destDir; Tar.Name hdr] in
  (Tar.Typeflag hdr = Tar.TypeDir ->
   OS.mkdirAll host target = nil ->
   Extractor.extractEntry host destDir v e
   = (v, [OS.MkdirAll target 493], nil))
  /\ (Tar.Typeflag hdr = Tar.TypeReg ->
      Security.ValidateFileSize v (Tar.Size hdr) = nil ->
      snd (Security.AddExtractedSize v (Tar.Size hdr)) = nil ->
      OS.mkdirAll host (Filepath.Dir target) = nil ->
      OS.openFile host target = nil ->
      OS.copyFault host target = None ->
      Extractor.extractEntry host destDir v e
      = (fst (Security.AddExtractedSize v (Tar.Size hdr)),
         [OS.MkdirAll (Filepath.Dir target) 493;
          OS.OpenFile target (Extractor.FileMode (Tar.Mode hdr));
          OS.Write target (Tar.body e);
          OS.Close target],
         nil))
  /\ (Tar.Typeflag hdr = Tar.TypeSymlink ->
      Security.ValidateSymlink (Tar.Name hdr) (Tar.Linkname hdr) = nil ->
      OS.symlink host (Tar.Linkname hdr) target = OS.SymlinkDone ->
      Extractor.extractEntry host destDir v e
      = (v, [OS.Symlink (Tar.Linkname hdr) target], nil))
  /\ (Tar.Typeflag hdr <> Tar.TypeDir ->
      Tar.Typeflag hdr <> Tar.TypeReg ->
      Tar.Typeflag hdr <> Tar.TypeSymlink ->
      Extractor.extractEntry host destDir v e = (v, [], nil)).
Proof.
  intros Hp hdr target. subst hdr. unfold Extractor.extractEntry.
  rewrite Hp. fold target.
  split; [| split; [| split]].
  - intros Ht Hm. rewrite Ht.
    change (Ascii.eqb Tar.TypeDir Tar.TypeDir) with true.
    cbv iota. now rewrite Hm.
  - intros Ht Hs Ha Hm Hf Hc. rewrite Ht.
    change (Ascii.eqb Tar.TypeReg Tar.TypeDir) with false.
    change (Ascii.eqb Tar.TypeReg Tar.TypeReg) with true.
    cbv iota. rewrite Hs.
    destruct (Security.AddExtractedSize v _) as [v1 a].
    simpl in Ha. subst a. now rewrite Hm, Hf, Hc.
  - intros Ht Hs Hl. rewrite Ht.
    change (Ascii.eqb Tar.TypeSymlink Tar.TypeDir) with false.
    change (Ascii.eqb Tar.TypeSymlink Tar.TypeReg) with false.
    change (Ascii.eqb Tar.TypeSymlink Tar.TypeSymlink) with true.
    cbv iota. now rewrite Hs, Hl.
  - intros Hd Hr Hs.
    apply Ascii.eqb_neq in Hd, Hr, Hs. now rewrite Hd, Hr, Hs.
Qed.

Lemma extractEntry_type_policy_witness :
  Extractor.extractEntry Examples.okHost "/work/extracted/img"
    Examples.limits (Examples.otherEntry "sh" Tar.TypeLink "bin/dash")
  = (Examples.limits, [], nil)
  /\ Extractor.extractEntry Examples.okHost "/work/extracted/img"
       Examples.limits (Examples.otherEntry "dev/null" Tar.TypeChar "")
     = (Examples.limits, [], nil)
  /\ Extractor.extractEntry Examples.okHost "/work/extracted/img"
       Examples.limits (Examples.otherEntry "dev/sda" Tar.TypeBlock "")
     = (Examples.limits, [], nil)
  /\ Extractor.extractEntry Examples.okHost "/work/extracted/img"
       Examples.limits (Examples.dirEntry "bin")
     = (Examples.limits, [OS.MkdirAll "/work/extracted/img/bin" 493], nil)
  /\ snd (fst (Extractor.extractEntry Examples.okHost "/work/extracted/img"
                 Examples.limits (Examples.regEntry "bin/hello" Examples.abc)))
     = [OS.MkdirAll "/work/extracted/img/bin" 493;
        OS.OpenFile "/work/extracted/img/bin/hello"
          (Extractor.FileMode
             (Tar.Mode (Tar.header
                          (Examples.regEntry "bin/hello" Examples.abc))));
        OS.Write "/work/extracted/img/bin/hello" Examples.abc;
        OS.Close "/work/extracted/img/bin/hello"]
  /\ Extractor.extractEntry Examples.okHost "/work/extracted/img"
       Examples.limits (Examples.otherEntry "sh" Tar.TypeSymlink "bin/dash")
     = (Examples.limits,
        [OS.Symlink "bin/dash" "/work/extracted/img/sh"], nil).
Proof.
  split; [| split; [| split; [| split; [| split]]]].
  - apply (extractEntry_type_policy Examples.okHost "/work/extracted/img"
             Examples.limits
             (Examples.otherEntry "sh" Tar.TypeLink "bin/dash") eq_refl);
      discriminate.
  - apply (extractEntry_type_policy Examples.okHost "/work/extracted/img"
             Examples.limits
             (Examples.otherEntry "dev/null" Tar.TypeChar "") eq_refl);
      discriminate.
  - apply (extractEntry_type_policy Examples.okHost "/work/extracted/img"
             Examples.limits
             (Examples.otherEntry "dev/sda" Tar.TypeBlock "") eq_refl);
      discriminate.
  - exact (proj1 (extractEntry_type_policy Examples.okHost
                    "/work/extracted/img" Examples.limits
                    (Examples.dirEntry "bin") eq_refl)
             eq_refl eq_refl).
  - rewrite (proj1 (proj2 (extractEntry_type_policy Examples.okHost
                             "/work/extracted/img" Examples.limits
                             (Examples.regEntry "bin/hello" Examples.abc)
                             eq_refl))
               eq_refl eq_refl eq_refl eq_refl eq_refl eq_refl).
    reflexivity.
  - exact (proj1 (proj2 (proj2 (extractEntry_type_policy Examples.okHost
                    "/work/extracted/img" Examples.limits
                    (Examples.otherEntry "sh" Tar.TypeSymlink "bin/dash")
                    eq_refl)))
             eq_refl eq_refl eq_refl).
Defined.

(** C8 in the specification's wording ("hard links are accepted;
    character and block device entries are rejected") does not hold: an
    archive of a hard link, a character device and
    a block device extracts without error and without writing anything:
    the hard link is not materialized and the devices are not rejected. *)
Lemma ExtractTarball_ignores_links_and_devices :
  Extractor.ExtractTarball Examples.okHost
    (fun _ => Examples.specialArchive) "img.tar" "/work/extracted/img"
    Examples.limits
  = (Examples.limits, [], nil).
Proof. reflexivity. Qed.

(** ** The registry *)

Lemma wrap64_small (z : Z) : - 2 ^ 63 <= z < 2 ^ 63 -> wrap64 z = z.
Proof. intros H. unfold wrap64. rewrite Z.mod_small; lia. Qed.

(** A call that succeeds had no fault and an answering database; it
    returns the stored value and stores its successor. *)
Lemma AllocateNextDeviceID_success (f : Db.TxFault) (d d1 : Db.Database)
      (id : Z) :
  Db.AllocateNextDeviceID f d = (d1, id, nil) ->
  f = Db.NoFault /\ Db.online d = true
  /\ Db.device_sequence d = Some id
  /\ d1 = Db.withSequence d (wrap64 (id + 1)).
Proof.
  unfold Db.AllocateNextDeviceID.
  destruct (Db.online d); simpl; [| discriminate].
  destruct f; simpl; try discriminate;
    destruct (Db.device_sequence d); simpl; try discriminate.
  intros H; inversion H; subst. now repeat split.
Qed.

(** A call that fails leaves the database as it was. *)
Lemma AllocateNextDeviceID_failure (f : Db.TxFault) (d d1 : Db.Database)
      (id : Z) (m : string) :
  Db.AllocateNextDeviceID f d = (d1, id, Errorf m) -> d1 = d.
Proof.
  unfold Db.AllocateNextDeviceID.
  destruct (Db.online d); simpl; [| intros H; now inversion H].
  destruct f; simpl;
    try (intros H; now inversion H);
    destruct (Db.device_sequence d); simpl;
    intros H; now inversion H.
Qed.

(** With no fault, an answering database and the sequence row in place,
    the call succeeds. *)
Lemma AllocateNextDeviceID_total (d : Db.Database) (s : Z) :
  Db.online d = true -> Db.device_sequence d = Some s ->
  Db.AllocateNextDeviceID Db.NoFault d
  = (Db.withSequence d (wrap64 (s + 1)), s, nil).
Proof.
  intros Ho Hs. unfold Db.AllocateNextDeviceID. now rewrite Ho, Hs.
Qed.

Lemma seq_shift_map (s : Z) (k : nat) :
  map (fun i => s + 1 + Z.of_nat i) (seq 0 k)
  = map (fun i => s + Z.of_nat i) (seq 1 k).
Proof.
  rewrite <- seq_shift, map_map. apply map_ext. intros i. lia.
Qed.

Lemma allocateEach_run (faults : list Db.TxFault) :
  forall (d : Db.Database) (s : Z),
    Db.device_sequence d = Some s ->
    - 2 ^ 63 <= s ->
    s + Z.of_nat (List.length faults) < 2 ^ 63 ->
    let '(ids, d') := Runs.allocateEach faults d in
    ids = map (fun i => s + Z.of_nat i) (seq 0 (List.length ids))
    /\ Db.device_sequence d' = Some (s + Z.of_nat (List.length ids))
    /\ Db.images d' = Db.images d
    /\ (Db.online d = true ->
        List.length ids = List.length (filter Runs.succeeds faults)).
Proof.
  induction faults as [| f rest IH]; intros d s Hs Hlo Hhi; simpl.
  - repeat split. now rewrite Z.add_0_r.
  - simpl List.length in Hhi.
    destruct (Db.AllocateNextDeviceID f d) as [[d1 id] [| m]] eqn:Hcall.
    + apply AllocateNextDeviceID_success in Hcall
        as (-> & Ho & Hid & ->).
      rewrite Hs in Hid. inversion Hid; subst id.
      rewrite wrap64_small by lia.
      specialize (IH (Db.withSequence d (s + 1)) (s + 1) eq_refl
                     ltac:(lia) ltac:(lia)).
      destruct (Runs.allocateEach rest _) as [ids d2].
      destruct IH as (Hids & Hseq & Himg & Hcount).
      simpl. repeat split.
      * rewrite Hids at 1. rewrite seq_shift_map.
        now rewrite Z.add_0_r.
      * rewrite Hseq. f_equal. lia.
      * exact Himg.
      * intros _. f_equal. now apply Hcount.
    + pose proof (AllocateNextDeviceID_failure _ _ _ _ _ Hcall) as ->.
      specialize (IH d s Hs Hlo ltac:(lia)).
      destruct (Runs.allocateEach rest d) as [ids d2].
      destruct IH as (Hids & Hseq & Himg & Hcount).
      repeat split; try assumption.
      intros Ho. rewrite (Hcount Ho).
      destruct f; simpl; try reflexivity.
      rewrite (AllocateNextDeviceID_total d s Ho Hs) in Hcall.
      discriminate.
Qed.

Lemma NoDup_consecutive (s : Z) (k : nat) :
  NoDup (map (fun i => s + Z.of_nat i) (seq 0 k)).
Proof.
  apply NoDup_map_inv with (f := fun z => z - s).
  rewrite map_map.
  replace (map (fun i => s + Z.of_nat i - s) (seq 0 k))
    with (map Z.of_nat (seq 0 k))
    by (apply map_ext; intros i; lia).
  generalize (seq_NoDup k 0). generalize (seq 0 k).
  induction 1 as [| i l Hin _ IH]; simpl; constructor; [| exact IH].
  rewrite in_map_iff. intros (j & Hj & Hjl).
  apply Nat2Z.inj in Hj. now subst.
Qed.

(** C7. A successful call of allocate_next_device_id returns the value
    stored in the one-row sequence and leaves its successor there; a
    failed call leaves the stored value alone; so the calls that succeed
    among any series of calls starting from the stored value [s] return
    exactly [s], [s+1], ..., [s+k-1], without duplicates or gaps, and
    leave [s+k]. The image rows are not touched. (The stored value is a
    64-bit integer: the series is assumed to stay below its maximum.) *)
Theorem AllocateNextDeviceID_consecutive
        (d : Db.Database) (s : Z) (faults : list Db.TxFault) :
  Db.device_sequence d = Some s ->
  - 2 ^ 63 <= s ->
  s + Z.of_nat (List.length faults) < 2 ^ 63 ->
  let '(ids, d') := Runs.allocateEach faults d in
  let k := List.length ids in
  ids = map (fun i => s + Z.of_nat i) (seq 0 k)
  /\ NoDup ids
  /\ Db.device_sequence d' = Some (s + Z.of_nat k)
  /\ Db.images d' = Db.images d
  /\ (Db.online d = true -> k = List.length (filter Runs.succeeds faults)).
Proof.
  intros Hs Hlo Hhi.
  pose proof (allocateEach_run faults d s Hs Hlo Hhi) as H.
  destruct (Runs.allocateEach faults d) as [ids d'].
  destruct H as (Hids & Hseq & Himg & Hcount).
  repeat split; try assumption.
  rewrite Hids. apply NoDup_consecutive.
Qed.

Lemma AllocateNextDeviceID_consecutive_witness :
  let '(ids, d') :=
    Runs.allocateEach
      [Db.NoFault; Db.CommitFails "disk I/O error"; Db.NoFault;
       Db.UpdateFails "database is locked"; Db.NoFault]
      Runs.freshDb in
  ids = [1; 2; 3] /\ Db.device_sequence d' = Some 4.
Proof.
  pose proof (AllocateNextDeviceID_consecutive Runs.freshDb 1
                [Db.NoFault; Db.CommitFails "disk I/O error"; Db.NoFault;
                 Db.UpdateFails "database is locked"; Db.NoFault]
                eq_refl ltac:(lia) ltac:(simpl; lia)) as H.
  vm_compute in H |- *.
  destruct H as (H1 & _ & H2 & _).
  split; [exact H1 | exact H2].
Defined.

(** One call, spelled out: the stored value comes back and its successor
    is stored; a fault at any step, the commit included, changes
    nothing. *)
Example AllocateNextDeviceID_one_call :
  Db.AllocateNextDeviceID Db.NoFault Runs.freshDb
  = (Db.withSequence Runs.freshDb 2, 1, nil)
  /\ fst (fst (Db.AllocateNextDeviceID (Db.CommitFails "disk I/O error")
                 Runs.freshDb)) = Runs.freshDb.
Proof. split; reflexivity. Qed.

(** ** The handlers one by one, and the engine *)

Lemma retry_within_budget (m : Fsm.Machine) (retryCount : Z) :
  retryCount < Fsm.uint64 (Fsm.maxRetries m) ->
  (retryCount >=? Fsm.uint64 (Fsm.maxRetries m)) = false.
Proof. intros H. rewrite Z.geb_leb. now apply Z.leb_gt. Qed.

Lemma UpdateStatus_allowed (d : Db.Database) (id : Z)
      (status errorMessage : string) :
  Db.online d = true -> Db.statusCheck status = true ->
  exists d', Db.UpdateStatus d id status errorMessage = (d', nil).
Proof.
  intros Ho Hc. unfold Db.UpdateStatus. rewrite Ho. simpl.
  destruct (Db.findID _ _); [rewrite Hc |]; eexists; reflexivity.
Qed.

(** The download handler does not look at the status: for a row in any
    state, [ready] included, it calls the object store once more. *)
Lemma handleDownload_fetches
      (env : Fsm.Env) (m : Fsm.Machine) (retryCount : Z)
      (req : Fsm.ImageRequest) (resp : Fsm.ImageResponse) (w : Fsm.World) :
  retryCount < Fsm.uint64 (Fsm.maxRetries m) ->
  Db.online (Fsm.db w) = true ->
  OS.mkdirAll (Fsm.host env) (Filepath.Join [Fsm.workDir m; "downloads"])
  = nil ->
  let '(w', _, _) :=
    Fsm.handleDownload env m retryCount req (Some resp) w in
  Fsm.fetches w' = (Fsm.fetches w ++ [Fsm.reqS3Key req])%list.
Proof.
  intros Hr Ho Hm. unfold Fsm.handleDownload.
  rewrite (retry_within_budget m retryCount Hr).
  destruct (UpdateStatus_allowed (Fsm.db w) (Fsm.ImageID resp)
              Db.StatusDownloading "" Ho eq_refl) as [d ->].
  rewrite Hm.
  destruct (Fsm.download env _ _) as [[| e] [sha size]]; [| reflexivity].
  destruct (fst (Db.GetByS3Key _ _)); [| reflexivity].
  now destruct (Db.Update _ _) as [d' [| e]].
Qed.

(** The create_device handler answers every failure of the manager's
    CreateDevice, whatever its message, with success; the rows are as
    they were, and the id taken from the sequence is gone. *)
Lemma handleCreateDevice_tolerates_failure
      (env : Fsm.Env) (m : Fsm.Machine) (dm : Devicemapper.Manager)
      (retryCount : Z) (req : Fsm.ImageRequest) (resp : Fsm.ImageResponse)
      (w : Fsm.World) (d : Db.Database) (id : Z)
      (cmds : list Devicemapper.Cmd) (err : error) :
  retryCount < Fsm.uint64 (Fsm.maxRetries m) ->
  Fsm.dmManager m = Some dm ->
  Db.AllocateNextDeviceID (Fsm.txFault env) (Fsm.db w) = (d, id, nil) ->
  Devicemapper.CreateDevice (Fsm.kernel env) dm (itoa id)
  = (cmds, Devicemapper.NoDevice err) ->
  Fsm.handleCreateDevice env m retryCount req (Some resp) w
  = (Fsm.addKernel (Fsm.setDb w d) cmds,
     Some (Fsm.withError resp ("devicemapper warning: " ++ errorText err)),
     Fsm.Advance)
  /\ Db.images d = Db.images (Fsm.db w).
Proof.
  intros Hr Hdm Ha Hc. unfold Fsm.handleCreateDevice.
  rewrite (retry_within_budget m retryCount Hr), Hdm, Ha, Hc.
  split; [reflexivity |].
  apply AllocateNextDeviceID_success in Ha as (_ & _ & _ & ->).
  reflexivity.
Qed.

(** The complete handler marks a row without device path [ready], with
    no snapshot and no call to the manager, on every platform. *)
Lemma handleComplete_ready_without_device
      (env : Fsm.Env) (m : Fsm.Machine) (retryCount : Z)
      (req : Fsm.ImageRequest) (resp : Fsm.ImageResponse) (w : Fsm.World)
      (img : Db.Image) :
  retryCount < Fsm.uint64 (Fsm.maxRetries m) ->
  Db.GetByS3Key (Fsm.db w) (Fsm.reqS3Key req) = (Some img, nil) ->
  Db.DevicePath img = "" ->
  let '(w', _, outcome) :=
    Fsm.handleComplete env m retryCount req (Some resp) w in
  outcome = Fsm.Advance
  /\ Fsm.db w' = fst (Db.UpdateStatus (Fsm.db w) (Fsm.ImageID resp)
                        Db.StatusReady "")
  /\ Fsm.kernelLog w' = Fsm.kernelLog w.
Proof.
  intros Hr Hg Hp. unfold Fsm.handleComplete.
  rewrite (retry_within_budget m retryCount Hr), Hg, Hp.
  assert (Ho : Db.online (Fsm.db w) = true).
  { unfold Db.GetByS3Key in Hg.
    destruct (Db.online (Fsm.db w)); [reflexivity | discriminate]. }
  destruct (UpdateStatus_allowed (Fsm.db w) (Fsm.ImageID resp)
              Db.StatusReady "" Ho eq_refl) as [d Hd].
  destruct (Fsm.dmManager m); simpl; rewrite Hd; now repeat split.
Qed.

(** Every handler aborts once the attempt count has reached the budget. *)
Lemma handlers_abort_at_budget (env : Fsm.Env) (m : Fsm.Machine)
      (state : string) (h : Fsm.Handler) :
  In (state, h) (Fsm.Register env m) ->
  forall retryCount req msg w,
    Fsm.uint64 (Fsm.maxRetries m) <= retryCount ->
    h retryCount req msg w = (w, msg, Fsm.Abort (Fsm.errMaxRetries m)).
Proof.
  intros Hin retryCount req msg w Hle.
  assert (Hge : (retryCount >=? Fsm.uint64 (Fsm.maxRetries m)) = true).
  { rewrite Z.geb_leb. now apply Z.leb_le. }
  simpl in Hin.
  destruct Hin as [H | [H | [H | [H | [H | []]]]]];
    inversion H; subst; clear H.
  - unfold Fsm.handleCheckDB. now rewrite Hge.
  - unfold Fsm.handleDownload. now rewrite Hge.
  - unfold Fsm.handleValidate. now rewrite Hge.
  - unfold Fsm.handleCreateDevice. now rewrite Hge.
  - unfold Fsm.handleComplete. now rewrite Hge.
Qed.

(** With as many retries as the budget, a transition always settles: it
    advances or aborts. *)
Lemma runTransition_settles (h : Fsm.Handler) (limit : Z) :
  (forall retryCount req msg w,
      limit <= retryCount ->
      exists e, snd (h retryCount req msg w) = Fsm.Abort e) ->
  forall fuel retryCount req msg w,
    limit <= retryCount + Z.of_nat fuel ->
    forall e, snd (Fsm.runTransition fuel h retryCount req msg w)
              <> Fsm.Retry e.
Proof.
  intros Habort fuel.
  induction fuel as [| fuel IH]; intros retryCount req msg w Hle e; simpl.
  - destruct (Habort retryCount req msg w ltac:(lia)) as [e' He'].
    destruct (h retryCount req msg w) as [[w' msg'] o]; simpl in *.
    subst o. discriminate.
  - destruct (h retryCount req msg w) as [[w' msg'] [| e' | e']] eqn:Hh;
      simpl; try discriminate.
    apply IH. lia.
Qed.

(** An activation ends past the last transition or in the failure state,
    never in the middle: the fuel of the model is enough. *)
Lemma Activate_settles (env : Fsm.Env) (m : Fsm.Machine)
      (s3Key s3Bucket : string) (w : Fsm.World) :
  forall state e,
    snd (Fsm.Activate env m s3Key s3Bucket w) <> Fsm.Retrying state e.
Proof.
  unfold Fsm.Activate.
  set (fuel := Z.to_nat (Fsm.uint64 (Fsm.maxRetries m))).
  assert (Hfuel : Fsm.uint64 (Fsm.maxRetries m) <= 0 + Z.of_nat fuel).
  { subst fuel. unfold Fsm.uint64.
    pose proof (Z.mod_pos_bound (Fsm.maxRetries m) (2 ^ 64) ltac:(lia)).
    lia. }
  generalize (Some Fsm.emptyResponse).
  generalize {| Fsm.reqS3Key := s3Key; Fsm.reqS3Bucket := s3Bucket |}.
  assert (Hall : forall state h, In (state, h) (Fsm.Register env m) ->
                 In (state, h) (Fsm.Register env m)) by auto.
  revert Hall. generalize (Fsm.Register env m) at 1 3 as chain.
  intros chain Hall req msg. revert msg w.
  induction chain as [| [state h] rest IH]; intros msg w state' e; simpl.
  - discriminate.
  - pose proof (runTransition_settles h (Fsm.uint64 (Fsm.maxRetries m)))
      as Hs.
    specialize (Hs (fun r q a b Hle =>
      ex_intro _ (Fsm.errMaxRetries m)
        (f_equal snd (handlers_abort_at_budget env m state h
                        (Hall state h (or_introl eq_refl)) r q a b Hle)))).
    specialize (Hs fuel 0 req msg w Hfuel).
    destruct (Fsm.runTransition fuel h 0 req msg w)
      as [[w' msg'] [| e' | e']]; simpl in *.
    + apply IH. intros s0 h0 Hin. apply Hall. now right.
    + now destruct (Hs e').
    + discriminate.
Qed.

(** ** Cleanup *)

(** The schema's CHECK refuses the status [cleaned], so the UPDATE of
    cleanup's last step always fails and changes nothing. *)
Lemma Update_cleaned (d : Db.Database) (img : Db.Image) :
  Db.Status img = "cleaned" ->
  exists m, Db.Update d img = (d, Errorf m).
Proof.
  intros H. unfold Db.Update.
  destruct (Db.online d); [| eexists; reflexivity].
  destruct (Db.findID _ _); [| eexists; reflexivity].
  rewrite H. eexists; reflexivity.
Qed.

(** cleanupImageResources never returns [nil] and never changes a row,
    whatever the image, the manager and the host. *)
Lemma cleanupImageResources_fails
      (env : Fsm.Env) (dm : option Devicemapper.Manager) (WorkDir : string)
      (img : Db.Image) (w : Fsm.World) :
  let '(w', _, err) := Cleanup.cleanupImageResources env dm WorkDir img w in
  Fsm.db w' = Fsm.db w /\ err <> nil.
Proof.
  unfold Cleanup.cleanupImageResources.
  set (step1 := match dm with Some _ => _ | None => _ end).
  assert (H1 : Fsm.db (fst step1) = Fsm.db w).
  { subst step1. destruct dm; [| reflexivity].
    destruct (negb _); [| reflexivity].
    now destruct (Cleanup.exists_ env _). }
  destruct step1 as [w1 img1]. simpl in H1.
  set (step2 := match dm with Some _ => _ | None => _ end).
  assert (H2 : Fsm.db (fst step2) = Fsm.db w).
  { subst step2. destruct dm; [| exact H1].
    destruct (_ >? 0); [| exact H1].
    now destruct (Cleanup.exists_ env _). }
  destruct step2 as [w2 img2]. simpl in H2.
  destruct (Cleanup.exists_ env _).
  - destruct (OS.removeAll _ _).
    + destruct (Cleanup.exists_ env _).
      * destruct (OS.remove _ _).
        -- match goal with
           | |- context [Db.Update ?d ?i] =>
               destruct (Update_cleaned d i eq_refl) as [m ->]
           end.
           simpl. split; [exact H2 | discriminate].
        -- split; [exact H2 | discriminate].
      * match goal with
        | |- context [Db.Update ?d ?i] =>
            destruct (Update_cleaned d i eq_refl) as [m ->]
        end.
        simpl. split; [exact H2 | discriminate].
    + split; [exact H2 | discriminate].
  - destruct (Cleanup.exists_ env _).
    + destruct (OS.remove _ _).
      * match goal with
        | |- context [Db.Update ?d ?i] =>
            destruct (Update_cleaned d i eq_refl) as [m ->]
        end.
        simpl. split; [exact H2 | discriminate].
      * split; [exact H2 | discriminate].
    + match goal with
      | |- context [Db.Update ?d ?i] =>
          destruct (Update_cleaned d i eq_refl) as [m ->]
      end.
      simpl. split; [exact H2 | discriminate].
Qed.

(** C6. The specification has cleanup move the row to the terminal
    status [cleaned]. What the code does instead:
    for every key whose row is [ready], the cleanup operation releases
    what it can, then fails at its last step and returns an error; the
    registry is exactly as before, the row still [ready]. *)
Theorem cleanup_leaves_row_ready
        (env : Fsm.Env) (dm : option Devicemapper.Manager)
        (WorkDir s3Key : string) (w : Fsm.World) (img : Db.Image) :
  Db.GetByS3Key (Fsm.db w) s3Key = (Some img, nil) ->
  Db.Status img = Db.StatusReady ->
  let '(w', exit) := Cleanup.cleanupSpecificImage env dm WorkDir s3Key w in
  Fsm.db w' = Fsm.db w
  /\ exit <> Cleanup.Returns nil
  /\ Runs.statusOf w' s3Key = Some Db.StatusReady.
Proof.
  intros Hget Hready. unfold Cleanup.cleanupSpecificImage. rewrite Hget.
  pose proof (cleanupImageResources_fails env dm WorkDir img w) as H.
  destruct (Cleanup.cleanupImageResources env dm WorkDir img w)
    as [[w' img'] err].
  destruct H as [Hdb Herr].
  destruct err as [| m]; [now destruct Herr |].
  repeat split.
  - exact Hdb.
  - discriminate.
  - unfold Runs.statusOf. rewrite Hdb, Hget. simpl. now rewrite Hready.
Qed.

Lemma cleanup_leaves_row_ready_witness :
  Runs.statusOf Runs.activatedWorld Runs.key = Some Db.StatusReady
  /\ let '(w', exit) :=
       Cleanup.cleanupSpecificImage (Runs.envWith Runs.kernelOk)
         (Some (Devicemapper.LinuxManager "pool")) "/var/lib/flyio-machine"
         Runs.key Runs.activatedWorld in
     Fsm.db w' = Fsm.db Runs.activatedWorld
     /\ exit <> Cleanup.Returns nil
     /\ Runs.statusOf w' Runs.key = Some Db.StatusReady.
Proof.
  split; [reflexivity |].
  exact (cleanup_leaves_row_ready (Runs.envWith Runs.kernelOk)
           (Some (Devicemapper.LinuxManager "pool")) "/var/lib/flyio-machine"
           Runs.key Runs.activatedWorld Runs.activatedRow
           eq_refl eq_refl).
Defined.

(** ** The pipeline *)

(** C10. On the degraded platform the manager is the stub, not [nil]: a
    run of the create_device handler that is within its retry budget and
    finds the sequence readable takes one id from it before the stub
    refuses, then returns success with every image row, the kernel and
    the filesystem untouched, only the warning recorded in the response.
    So the sequence has advanced by one although no device exists. *)
Theorem handleCreateDevice_stub_consumes_id
        (env : Fsm.Env) (m : Fsm.Machine) (goos : string)
        (retryCount : Z) (req : Fsm.ImageRequest)
        (resp : Fsm.ImageResponse) (w : Fsm.World) (s : Z) :
  Fsm.dmManager m = Some (Devicemapper.StubManager goos) ->
  retryCount < Fsm.uint64 (Fsm.maxRetries m) ->
  Db.online (Fsm.db w) = true ->
  Fsm.txFault env = Db.NoFault ->
  Db.device_sequence (Fsm.db w) = Some s ->
  - 2 ^ 63 <= s < 2 ^ 63 - 1 ->
  let '(w', msg', outcome) :=
    Fsm.handleCreateDevice env m retryCount req (Some resp) w in
  outcome = Fsm.Advance
  /\ Db.device_sequence (Fsm.db w') = Some (s + 1)
  /\ Db.images (Fsm.db w') = Db.images (Fsm.db w)
  /\ Fsm.kernelLog w' = Fsm.kernelLog w
  /\ Fsm.fsLog w' = Fsm.fsLog w
  /\ msg' = Some (Fsm.withError resp
                    ("devicemapper warning: devicemapper not supported on "
                     ++ goos)).
Proof.
  intros Hdm Hretry Ho Hf Hs Hrange.
  unfold Fsm.handleCreateDevice.
  apply Z.ltb_lt in Hretry. rewrite Z.geb_leb.
  rewrite Z.leb_antisym, Hretry. simpl negb. cbv iota.
  rewrite Hdm, Hf, (AllocateNextDeviceID_total _ _ Ho Hs).
  rewrite wrap64_small by lia.
  simpl. rewrite app_nil_r. now repeat split.
Qed.

Lemma handleCreateDevice_stub_consumes_id_witness :
  let '(w', _, outcome) :=
    Fsm.handleCreateDevice (Runs.envWith Runs.kernelOk) Runs.stub 0
      {| Fsm.reqS3Key := Runs.key; Fsm.reqS3Bucket := Runs.bucket |}
      (Some Fsm.emptyResponse) Runs.freshWorld in
  outcome = Fsm.Advance
  /\ Db.device_sequence (Fsm.db w') = Some 2
  /\ Db.images (Fsm.db w') = [].
Proof.
  pose proof (handleCreateDevice_stub_consumes_id
                (Runs.envWith Runs.kernelOk) Runs.stub "darwin" 0
                {| Fsm.reqS3Key := Runs.key; Fsm.reqS3Bucket := Runs.bucket |}
                Fsm.emptyResponse Runs.freshWorld 1
                eq_refl eq_refl eq_refl eq_refl eq_refl
                ltac:(lia)) as H.
  vm_compute in H |- *.
  destruct H as (H1 & H2 & H3 & _).
  split; [exact H1 | split; [exact H2 | exact H3]].
Defined.

(** A whole activation on the degraded platform: the image is [ready]
    with empty device columns, and the sequence went from 1 to 2. *)
Example degraded_activation :
  let '(w, _, ending) :=
    Fsm.Activate (Runs.envWith Runs.kernelOk) Runs.stub Runs.key Runs.bucket
      Runs.freshWorld in
  ending = Fsm.Completed
  /\ Runs.statusOf w Runs.key = Some Db.StatusReady
  /\ Runs.deviceColumns w Runs.key = Some ("", 0, 0)
  /\ Db.device_sequence (Fsm.db w) = Some 2
  /\ Fsm.kernelLog w = [].
Proof. vm_compute. now repeat split. Qed.

(** The happy path of section 8, scenario 1. *)
Example first_activation :
  let '(w, _, ending) :=
    Fsm.Activate (Runs.envWith Runs.kernelOk) Runs.linux Runs.key Runs.bucket
      Runs.freshWorld in
  ending = Fsm.Completed
  /\ Db.images (Fsm.db w) = [Runs.activatedRow]
  /\ Db.device_sequence (Fsm.db w) = Some 3
  /\ Fsm.fetches w = [Runs.key].
Proof. vm_compute. now repeat split. Qed.

(** C1. The specification has every [ready] row on the full platform
    carry a device path and two distinct non-zero ids. What the code
    does instead: on a
    Linux host with a working manager object whose [create_thin] command
    the kernel refuses (with any message, for instance
    [exit status 1]), create_device logs a warning and returns success,
    complete finds the device path empty and skips the snapshot, and the
    image ends up [ready] with an empty device path and both ids zero. *)
Theorem ready_without_device_on_full_platform (kernelMessage : string) :
  let '(w, _, ending) :=
    Fsm.Activate (Runs.envWith (Runs.createThinFails kernelMessage))
      Runs.linux Runs.key Runs.bucket Runs.freshWorld in
  ending = Fsm.Completed
  /\ Runs.statusOf w Runs.key = Some Db.StatusReady
  /\ Runs.deviceColumns w Runs.key = Some ("", 0, 0)
  /\ Db.device_sequence (Fsm.db w) = Some 2.
Proof. vm_compute. now repeat split. Qed.

(** C2. The specification has a second activation of the same key
    change nothing and fetch nothing. What the code does instead: a
    second activation of a key whose row is [ready] goes through every
    handler again. It downloads the object a second time, allocates a new
    base id and builds a new base device, and leaves a row whose device
    path and base id differ from those of the first run. *)
Theorem second_activation_repeats_the_work :
  let '(w1, _, ending1) :=
    Fsm.Activate (Runs.envWith Runs.kernelOk) Runs.linux Runs.key Runs.bucket
      Runs.freshWorld in
  let '(w2, _, ending2) :=
    Fsm.Activate (Runs.envWith Runs.kernelOk) Runs.linux Runs.key Runs.bucket
      w1 in
  ending1 = Fsm.Completed
  /\ Runs.statusOf w1 Runs.key = Some Db.StatusReady
  /\ Runs.deviceColumns w1 Runs.key = Some ("/dev/mapper/flyio-1", 1, 2)
  /\ Fsm.fetches w1 = [Runs.key]
  /\ ending2 = Fsm.Completed
  /\ Runs.statusOf w2 Runs.key = Some Db.StatusReady
  /\ Runs.deviceColumns w2 Runs.key = Some ("/dev/mapper/flyio-3", 3, 2)
  /\ Fsm.fetches w2 = [Runs.key; Runs.key].
Proof. vm_compute. now repeat split. Qed.

(** * Further properties of the code *)
(** ** Paths: what the path check guarantees *)

Lemma cleanLoop_rooted_dotdot (elems : list string) :
  forall dotdot out,
    fst (Filepath.cleanLoop true dotdot out elems) = dotdot.
Proof.
  induction elems as [| e rest IH]; intros dotdot out; simpl; [reflexivity |].
  destruct ((e == "") || (e == ".")); [apply IH |].
  destruct (e == ".."); [destruct out |]; apply IH.
Qed.

Lemma cleanElems_state (path : string) :
  Filepath.cleanElems path
  = (repeat ".." (fst (cleanState path)) ++ rev (snd (cleanState path)))%list.
Proof.
  unfold Filepath.cleanElems, cleanState.
  now destruct (Filepath.cleanLoop _ _ _ _).
Qed.

Lemma rooted_nonempty (path : string) :
  Filepath.IsAbs path = true -> (path == "") = false.
Proof. now destruct path. Qed.

(** The pieces of a cleaned rooted path: the empty piece before the
    leading separator, then the names. *)
Lemma Split_Clean_rooted (path : string) (dotdot : nat) (out : list string) :
  Filepath.IsAbs path = true ->
  cleanState path = (dotdot, out) ->
  dotdot = 0%nat
  /\ Strings.Split (Filepath.Clean path) "/"
     = "" :: match rev out with [] => [""] | l => l end.
Proof.
  intros Habs Hst.
  pose proof (cleanState_real path) as Hreal. rewrite Hst in Hreal.
  simpl in Hreal.
  assert (Hd : dotdot = 0%nat).
  { unfold cleanState in Hst. rewrite Habs in Hst.
    pose proof (cleanLoop_rooted_dotdot
                  (Strings.Split path Filepath.Separator) 0 []) as H.
    now rewrite Hst in H. }
  split; [exact Hd |]. subst dotdot.
  unfold Filepath.Clean. rewrite (rooted_nonempty path Habs), Habs.
  rewrite cleanElems_state, Hst. simpl fst. simpl snd. simpl repeat.
  simpl app.
  change (String Filepath.Separator (Strings.Join (rev out) "/"))
    with ("" ++ String "/" (Strings.Join (rev out) "/")).
  rewrite Split_app_separator. simpl Strings.Split at 1. simpl app.
  f_equal.
  destruct (rev out) as [| e rest] eqn:El; [reflexivity |].
  apply Split_Join; [| discriminate].
  rewrite <- El. apply real_no_separator. now apply Forall_rev.
Qed.

(** Cleaning a path twice changes nothing: the loop ends in the same
    state on the cleaned path. *)
Lemma cleanState_Clean_any (path : string) :
  cleanState (Filepath.Clean path) = cleanState path.
Proof.
  destruct (cleanState path) as [dotdot out] eqn:Hst.
  destruct (Filepath.IsAbs path) eqn:Habs;
    [| now apply cleanState_Clean].
  pose proof (cleanState_real path) as Hreal. rewrite Hst in Hreal.
  simpl in Hreal.
  destruct (Split_Clean_rooted path dotdot out Habs Hst) as [-> Hsplit].
  unfold cleanState at 1. rewrite Clean_IsAbs, Habs.
  unfold Filepath.Separator. rewrite Hsplit.
  destruct (rev out) as [| e rest] eqn:El.
  - simpl. destruct out as [| o out']; [reflexivity |].
    simpl in El. now apply app_eq_nil in El as [_ El].
  - change (Filepath.cleanLoop true 0 [] ("" :: e :: rest))
      with (Filepath.cleanLoop true 0 [] (e :: rest)).
    rewrite <- El, cleanLoop_reals by now apply Forall_rev.
    now rewrite rev_involutive, app_nil_r.
Qed.

Lemma cleanElems_Clean (path : string) :
  Filepath.cleanElems (Filepath.Clean path) = Filepath.cleanElems path.
Proof. now rewrite !cleanElems_state, cleanState_Clean_any. Qed.

(** A run of the loop that, started on nothing, ends without a leading
    [..] never looks below its starting point: started on any stack it
    leaves that stack alone. *)
Lemma cleanLoop_within (elems : list string) :
  forall out0 out,
    Filepath.cleanLoop false 0 out0 elems = (0%nat, out) ->
    forall rooted dotdot base,
      Filepath.cleanLoop rooted dotdot (out0 ++ base) elems
      = (dotdot, (out ++ base)%list).
Proof.
  induction elems as [| e rest IH]; intros out0 out H rooted dotdot base;
    simpl in *.
  - now inversion H.
  - destruct ((e == "") || (e == ".")); [now apply IH |].
    destruct (e == "..").
    + destruct out0 as [| top below].
      * pose proof (cleanLoop_dotdot_grows false rest 1 []) as Hg.
        rewrite H in Hg. simpl in Hg. lia.
      * simpl. now apply IH.
    + now apply (IH (e :: out0)).
Qed.

Lemma cleanElems_empty : Filepath.cleanElems "" = [].
Proof. reflexivity. Qed.

Lemma cleanElems_validated (name : string) :
  Security.ValidatePath name = nil ->
  cleanState name = (0%nat, rev (Filepath.cleanElems name))
  /\ Forall real (Filepath.cleanElems name).
Proof.
  intros Hv. destruct (ValidatePath_state name Hv) as [Hrel Hdd].
  pose proof (cleanState_real name) as Hreal.
  rewrite cleanElems_state.
  destruct (cleanState name) as [dotdot out]. simpl in *. subst dotdot.
  simpl. rewrite rev_involutive. split; [reflexivity |].
  now apply Forall_rev.
Qed.

(** X1. What the path check gives, on the text of the target: for a
    name that passes ValidatePath and any destination directory, the
    elements of the cleaned joined target are the elements of the
    destination followed by the elements of the name, and the latter are
    names, none of them [..]. This is a fact about the path as a string;
    it says nothing of where the operating system ends up when an element
    is a symbolic link made by an earlier entry. *)
Theorem Join_validated_elements (destDir name : string) :
  Security.ValidatePath name = nil ->
  Filepath.cleanElems (Filepath.Join [destDir; name])
  = (Filepath.cleanElems destDir ++ Filepath.cleanElems name)%list
  /\ Forall real (Filepath.cleanElems name)
  /\ (destDir <> "" ->
      Filepath.IsAbs (Filepath.Join [destDir; name])
      = Filepath.IsAbs destDir).
Proof.
  intros Hv.
  destruct (cleanElems_validated name Hv) as [Hst Hreal].
  destruct (ValidatePath_state name Hv) as [Hrel _].
  split; [| split; [exact Hreal |]].
  - simpl Filepath.Join.
    destruct (destDir == "") eqn:Ed.
    + apply String.eqb_eq in Ed; subst destDir.
      rewrite cleanElems_empty. simpl app.
      destruct (name == "") eqn:En.
      * apply String.eqb_eq in En; now subst name.
      * apply cleanElems_Clean.
    + change (Strings.Join [destDir; name] "/")
        with (destDir ++ String "/" name).
      rewrite cleanElems_Clean.
      apply String.eqb_neq in Ed.
      rewrite (cleanElems_state (destDir ++ String "/" name)).
      unfold cleanState at 1 2.
      rewrite (IsAbs_app destDir _ Ed).
      unfold Filepath.Separator.
      rewrite Split_app_separator, cleanLoop_app.
      change (Filepath.cleanLoop (Filepath.IsAbs destDir) 0 []
                (Strings.Split destDir "/"))
        with (cleanState destDir).
      destruct (cleanState destDir) as [dotdot out] eqn:Hd.
      unfold cleanState in Hst. rewrite Hrel in Hst.
      unfold Filepath.Separator in Hst.
      pose proof (cleanLoop_within _ [] _ Hst (Filepath.IsAbs destDir)
                    dotdot out) as Hw.
      simpl app in Hw at 1. rewrite Hw. simpl fst. simpl snd.
      rewrite rev_app_distr, rev_involutive, app_assoc.
      rewrite (cleanElems_state destDir), Hd. reflexivity.
  - intros Hd. simpl Filepath.Join.
    apply String.eqb_neq in Hd. rewrite Hd.
    rewrite Clean_IsAbs.
    change (Strings.Join [destDir; name] "/")
      with (destDir ++ String "/" name).
    apply IsAbs_app. now apply String.eqb_neq.
Qed.

Lemma Join_validated_elements_witness :
  Security.ValidatePath "usr/../etc/./passwd" = nil
  /\ Filepath.cleanElems
       (Filepath.Join ["/work/extracted/img"; "usr/../etc/./passwd"])
     = ["work"; "extracted"; "img"; "etc"; "passwd"].
Proof.
  split; [reflexivity |].
  destruct (Join_validated_elements "/work/extracted/img"
              "usr/../etc/./passwd" eq_refl) as [H _].
  rewrite H. reflexivity.
Defined.

Lemma cleanLoop_climb (n : nat) :
  forall out,
    Filepath.cleanLoop false 0 out (repeat ".." n)
    = ((n - List.length out)%nat, skipn n out).
Proof.
  induction n as [| n IH]; intros out; simpl repeat.
  - now destruct out.
  - destruct out as [| top below].
    + change (Filepath.cleanLoop false 0 [] (".." :: repeat ".." n))
        with (Filepath.cleanLoop false 1 [] (repeat ".." n)).
      rewrite cleanLoop_dotdots. simpl; f_equal; try lia.
    + change (Filepath.cleanLoop false 0 (top :: below)
                (".." :: repeat ".." n))
        with (Filepath.cleanLoop false 0 below (repeat ".." n)).
      rewrite IH. reflexivity.
Qed.

Lemma dotdots_no_separator (n : nat) :
  Forall (fun e => Filepath.hasSeparator e = false) (repeat ".." n).
Proof. induction n; simpl; constructor; auto. Qed.

(** X2. A relative target made of [..] elements only is judged exactly:
    for a symlink at a name that passes the path check, the target
    [../..] ... with [n] elements is refused if and only if [n] exceeds
    the number of directories above the symlink. *)
Theorem ValidateSymlink_climbing_target (name : string) (n : nat) :
  Security.ValidatePath name = nil ->
  (1 <= n)%nat ->
  (Security.ValidateSymlink name (Strings.Join (repeat ".." n) "/") <> nil
   <-> (List.length (Filepath.cleanElems (Filepath.Dir name)) < n)%nat).
Proof.
  intros Hv Hn.
  destruct (Dir_state name Hv) as [_ [out Hst]].
  set (target := Strings.Join (repeat ".." n) "/").
  assert (Hrel : Filepath.IsAbs target = false).
  { subst target. destruct n as [| n]; [lia |].
    simpl repeat. destruct (repeat ".." n); reflexivity. }
  pose proof (symlinkDepth_formula name target out Hv Hst) as Hdepth.
  assert (Hsplit : Strings.Split target "/" = repeat ".." n).
  { subst target. apply Split_Join; [apply dotdots_no_separator |].
    destruct n; [lia | discriminate]. }
  rewrite Hsplit, cleanLoop_climb in Hdepth.
  assert (Hlen : List.length (Filepath.cleanElems (Filepath.Dir name))
                 = List.length out).
  { rewrite cleanElems_state, Hst. simpl. apply length_rev. }
  rewrite Hlen.
  pose proof (ValidateSymlink_decision name target) as D.
  rewrite Hrel in D. simpl in D.
  rewrite Hdepth, length_skipn in D.
  split.
  - intros Hne.
    destruct (Security.ValidateSymlink name target); [now destruct Hne |].
    simpl in D. symmetry in D. apply Bool.negb_false_iff in D.
    apply Z.ltb_lt in D. lia.
  - intros Hlt Heq. rewrite Heq in D. simpl in D.
    symmetry in D. apply Bool.negb_true_iff in D.
    apply Z.ltb_ge in D. lia.
Qed.

Lemma ValidateSymlink_climbing_target_witness :
  (Security.ValidateSymlink "etc/fonts/foo" "../../.." <> nil
   <-> (List.length (Filepath.cleanElems (Filepath.Dir "etc/fonts/foo")) < 3)%nat)
  /\ Security.ValidateSymlink "etc/fonts/foo" "../.." = nil.
Proof.
  split; [| reflexivity].
  exact (ValidateSymlink_climbing_target "etc/fonts/foo" 3 eq_refl
           ltac:(lia)).
Defined.

(** ** The extractor: limits and what gets written *)

Section ExtractorLimits.
Import OS Tar Security Extractor Measures.
Variable host : Host.
Variable tarAt : string -> Archive.

Lemma sameLimits_refl (v : Validator) : sameLimits v v.
Proof. now repeat split. Qed.

Lemma sameLimits_trans (v1 v2 v3 : Validator) :
sameLimits v1 v2 -> sameLimits v2 v3 -> sameLimits v1 v3.
Proof.
intros (A1 & A2 & A3) (B1 & B2 & B3).
repeat split; congruence.
Qed.

Lemma sameLimits_Reset (v1 v2 : Validator) :
sameLimits v1 v2 -> Reset v1 = Reset v2.
Proof.
intros (A1 & A2 & A3). unfold Reset, withTotal. now rewrite A1, A2, A3.
Qed.

Lemma AddExtractedSize_limits (v : Validator) (size : Z) :
sameLimits (fst (AddExtractedSize v size)) v
/\ currentTotalSize (fst (AddExtractedSize v size))
   = wrap64 (currentTotalSize v + size).
Proof.
unfold AddExtractedSize.
destruct (_ >? _); simpl; now repeat split.
Qed.

(** One turn of the loop never changes the limits. *)
Lemma extractEntry_limits (destDir : string) (v : Validator) (e : Entry) :
sameLimits (fst (fst (extractEntry host destDir v e))) v.
Proof.
unfold extractEntry.
destruct (ValidatePath _); [| apply sameLimits_refl].
destruct (Ascii.eqb _ TypeDir).
{ destruct (mkdirAll host _); apply sameLimits_refl. }
destruct (Ascii.eqb _ TypeReg).
{ destruct (ValidateFileSize _ _); [| apply sameLimits_refl].
  pose proof (AddExtractedSize_limits v (Size (header e))) as [H _].
  destruct (AddExtractedSize _ _) as [v1 [| m]]; simpl in H; [| exact H].
  destruct (mkdirAll host _); [| exact H].
  destruct (openFile host _); [| exact H].
  now destruct (copyFault host _) as [[n m] |]. }
destruct (Ascii.eqb _ TypeSymlink); [| apply sameLimits_refl].
destruct (ValidateSymlink _ _); [| apply sameLimits_refl].
destruct (symlink host _ _); apply sameLimits_refl.
Qed.

Lemma extractEntries_limits (destDir : string) (es : list Entry) :
forall v, sameLimits (fst (fst (extractEntries host destDir v es))) v.
Proof.
induction es as [| e es IH]; intros v; simpl; [apply sameLimits_refl |].
pose proof (extractEntry_limits destDir v e) as H1.
destruct (extractEntry host destDir v e) as [[v1 ops] [| m]];
  simpl in *; [| exact H1].
specialize (IH v1).
destruct (extractEntries host destDir v1 es) as [[v2 ops2] err];
  simpl in *.
now apply sameLimits_trans with v1.
Qed.

Lemma ExtractTarball_limits (tarPath destDir : string) (v : Validator) :
sameLimits (fst (fst (ExtractTarball host tarAt tarPath destDir v))) v.
Proof.
assert (Hr : sameLimits (Reset v) v) by (now repeat split).
unfold ExtractTarball.
destruct (open host tarPath); [| exact Hr].
pose proof (extractEntries_limits destDir (entries (tarAt tarPath))
              (Reset v)) as H.
destruct (extractEntries _ _ _ _) as [[v1 ops] [| m]]; simpl in *;
  [| now apply sameLimits_trans with (Reset v)].
destruct (readError _);
  [| now apply sameLimits_trans with (Reset v)].
destruct (stat host tarPath) as [[| m] size]; simpl;
  now apply sameLimits_trans with (Reset v).
Qed.

(** What a turn that goes on did to the counter: a regular entry within
  the per-file limit was added and the sum is within the total limit;
  any other entry left the validator alone. *)
Lemma extractEntry_counter (destDir : string) (v v1 : Validator)
    (e : Entry) (ops : list Op) :
extractEntry host destDir v e = (v1, ops, nil) ->
if isRegular e
then Size (header e) <= maxFileSize v
     /\ currentTotalSize v1
        = wrap64 (currentTotalSize v + Size (header e))
     /\ currentTotalSize v1 <= maxTotalSize v
else v1 = v.
Proof.
unfold extractEntry, isRegular.
destruct (ValidatePath _); [| discriminate].
destruct (Ascii.eqb (Typeflag (header e)) TypeDir) eqn:Hd.
{ apply Ascii.eqb_eq in Hd. rewrite Hd.
  change (Ascii.eqb TypeDir TypeReg) with false.
  destruct (mkdirAll host _); [| discriminate].
  intros H; now inversion H. }
destruct (Ascii.eqb (Typeflag (header e)) TypeReg) eqn:Hr.
{ unfold ValidateFileSize.
  destruct (Size (header e) >? maxFileSize v) eqn:Hs; [discriminate |].
  unfold AddExtractedSize.
  destruct (wrap64 _ >? maxTotalSize v) eqn:Ht; [discriminate |].
  destruct (mkdirAll host _); [| discriminate].
  destruct (openFile host _); [| discriminate].
  destruct (copyFault host _) as [[n m] |]; [discriminate |].
  intros H; inversion H; subst; simpl.
  rewrite Z.gtb_ltb in Hs, Ht. apply Z.ltb_ge in Hs, Ht.
  now repeat split. }
destruct (Ascii.eqb _ TypeSymlink).
- destruct (ValidateSymlink _ _); [| discriminate].
  destruct (symlink host _ _); try discriminate;
    intros H; now inversion H.
- intros H; now inversion H.
Qed.

Lemma extractEntries_counter (destDir : string) (es : list Entry) :
forall v v1 ops,
  extractEntries host destDir v es = (v1, ops, nil) ->
  (forall e, In e es -> 0 <= Size (header e)) ->
  maxFileSize v + Z.max 0 (maxTotalSize v) < 2 ^ 63 ->
  0 <= currentTotalSize v <= Z.max 0 (maxTotalSize v) ->
  currentTotalSize v1 = currentTotalSize v + regularBytes es
  /\ (forall e, In e es -> isRegular e = true ->
                Size (header e) <= maxFileSize v)
  /\ (existsb isRegular es = true ->
      currentTotalSize v1 <= maxTotalSize v)
  /\ 0 <= currentTotalSize v1 <= Z.max 0 (maxTotalSize v).
Proof.
induction es as [| e es IH]; intros v v1 ops Hrun Hpos Hbound Hcur;
  simpl in Hrun.
- inversion Hrun; subst. simpl.
  split; [lia | split; [now intros e [] | split; [discriminate | lia]]].
- destruct (extractEntry host destDir v e) as [[v2 ops2] [| m]] eqn:He;
    [| discriminate].
  destruct (extractEntries host destDir v2 es) as [[v3 ops3] err] eqn:Hes.
  inversion Hrun; subst; clear Hrun.
  pose proof (extractEntry_limits destDir v e) as (L1 & L2 & L3).
  rewrite He in L1, L2, L3. simpl in L1, L2, L3.
  pose proof (extractEntry_counter destDir v v2 e ops2 He) as Hc.
  assert (Hsize : 0 <= Size (header e)) by (apply Hpos; now left).
  assert (Hcur2 : 0 <= currentTotalSize v2 <= Z.max 0 (maxTotalSize v)
                  /\ currentTotalSize v2
                     = currentTotalSize v
                       + (if isRegular e then Size (header e) else 0)).
  { destruct (isRegular e).
    - destruct Hc as (H1 & H2 & H3).
      rewrite wrap64_small in H2 by lia. lia.
    - subst v2. lia. }
  destruct Hcur2 as [Hcur2 Hsum].
  specialize (IH v2 v1 ops3 Hes
                 (fun e' Hin => Hpos e' (or_intror Hin))).
  rewrite L1, L2 in IH. specialize (IH Hbound Hcur2).
  destruct IH as (I1 & I2 & I3 & I4).
  simpl regularBytes. simpl existsb.
  split; [lia | split; [| split; [| lia]]].
  + intros e' [<- | Hin] Hreg.
    * rewrite Hreg in Hc. lia.
    * now apply I2.
  + intros Hex. destruct (existsb isRegular es) eqn:Hrest.
    * now apply I3.
    * rewrite Bool.orb_false_r in Hex. rewrite Hex in Hc, Hsum.
      assert (regularBytes es = 0).
      { clear - Hrest. induction es as [| a es IH]; [reflexivity |].
        simpl in *. apply Bool.orb_false_iff in Hrest as [Ha Hr].
        rewrite Ha. now rewrite IH. }
      lia.
Qed.

End ExtractorLimits.

(** X3. A successful extraction respected both size limits: every regular
    entry is within the per-file limit, the counter the validator ends
    with is the sum of the regular entries' sizes, and that sum is within
    the total limit. (Sizes are those of a tar header, not negative; the
    two limits are far enough from the 64-bit maximum for the counter not
    to wrap.) *)
Theorem ExtractTarball_respects_limits
        (host : OS.Host) (tarAt : string -> Tar.Archive)
        (tarPath destDir : string) (v v' : Security.Validator)
        (ops : list OS.Op) :
  Extractor.ExtractTarball host tarAt tarPath destDir v = (v', ops, nil) ->
  (forall e, In e (Tar.entries (tarAt tarPath)) ->
             0 <= Tar.Size (Tar.header e)) ->
  Security.maxFileSize v + Z.max 0 (Security.maxTotalSize v) < 2 ^ 63 ->
  let es := Tar.entries (tarAt tarPath) in
  (forall e, In e es -> Measures.isRegular e = true ->
             Tar.Size (Tar.header e) <= Security.maxFileSize v)
  /\ Security.currentTotalSize v' = Measures.regularBytes es
  /\ (existsb Measures.isRegular es = true ->
      Measures.regularBytes es <= Security.maxTotalSize v).
Proof.
  intros Hrun Hpos Hbound es.
  unfold Extractor.ExtractTarball in Hrun.
  destruct (OS.open host tarPath); [| discriminate].
  destruct (Extractor.extractEntries host destDir (Security.Reset v)
              (Tar.entries (tarAt tarPath)))
    as [[v1 ops1] [| m]] eqn:Hloop; [| discriminate].
  assert (Hv : v' = v1).
  { destruct (Tar.readError _); [| discriminate].
    destruct (OS.stat host tarPath) as [[| m] size]; [| discriminate].
    now inversion Hrun. }
  subst v1.
  pose proof (extractEntries_counter host destDir _ _ _ _ Hloop Hpos
                Hbound ltac:(simpl; lia)) as (H1 & H2 & H3 & _).
  simpl in H1. fold es in H1, H2, H3.
  split; [exact H2 | split; [exact H1 |]].
  intros Hex. rewrite <- H1. now apply H3.
Qed.

Lemma ExtractTarball_respects_limits_witness :
  let '(v', _, err) :=
    Extractor.ExtractTarball Examples.okHost (fun _ => Runs.imageArchive)
      "img.tar" "/work/extracted/img" Examples.limits in
  err = nil /\ Security.currentTotalSize v' = 3.
Proof.
  destruct (Extractor.ExtractTarball Examples.okHost
              (fun _ => Runs.imageArchive) "img.tar" "/work/extracted/img"
              Examples.limits) as [[v' ops] err] eqn:Hrun.
  assert (Herr : err = nil) by (vm_compute in Hrun; now inversion Hrun).
  subst err. split; [reflexivity |].
  destruct (ExtractTarball_respects_limits _ _ _ _ _ _ _ Hrun)
    as (_ & H & _).
  - intros e [<- | [<- | []]]; simpl; lia.
  - simpl. lia.
  - exact H.
Defined.

(** X4. The limits are per extraction: a validator that has been through
    one extraction, successful or not, behaves in the next one like the
    validator it was before. *)
Theorem ExtractTarball_starts_afresh
        (host1 host2 : OS.Host) (tarAt1 tarAt2 : string -> Tar.Archive)
        (tarPath1 destDir1 tarPath2 destDir2 : string)
        (v : Security.Validator) :
  Extractor.ExtractTarball host2 tarAt2 tarPath2 destDir2
    (fst (fst (Extractor.ExtractTarball host1 tarAt1 tarPath1 destDir1 v)))
  = Extractor.ExtractTarball host2 tarAt2 tarPath2 destDir2 v.
Proof.
  pose proof (ExtractTarball_limits host1 tarAt1 tarPath1 destDir1 v) as H.
  apply sameLimits_Reset in H.
  unfold Extractor.ExtractTarball at 1 3. now rewrite H.
Qed.

Section ExtractorLog.
Import OS Tar Security Extractor Measures.
Variable host : Host.
Variable tarAt : string -> Archive.

Lemma extractEntry_accounted (destDir : string) (v : Validator) (e : Entry) :
forall op,
  In op (snd (fst (extractEntry host destDir v e))) ->
  accountsFor destDir (maxFileSize v) e op.
Proof.
unfold extractEntry, accountsFor.
destruct (ValidatePath (Name (header e))) eqn:Hp; [| intros op Hin; destruct Hin].
destruct (Ascii.eqb (Typeflag (header e)) TypeDir) eqn:Hd.
{ apply Ascii.eqb_eq in Hd.
  destruct (mkdirAll host _); [| intros op Hin; destruct Hin].
  intros op [<- | []]. split; [reflexivity |]. split; [reflexivity |].
  now left. }
destruct (Ascii.eqb (Typeflag (header e)) TypeReg) eqn:Hr.
{ apply Ascii.eqb_eq in Hr. unfold ValidateFileSize.
  destruct (Size (header e) >? maxFileSize v) eqn:Hs; [intros op Hin; destruct Hin |].
  rewrite Z.gtb_ltb in Hs. apply Z.ltb_ge in Hs.
  destruct (AddExtractedSize _ _) as [v1 [| m]]; [| intros op Hin; destruct Hin].
  destruct (mkdirAll host _); [| intros op Hin; destruct Hin].
  assert (Hmk : forall p, p = Filepath.Dir
                  (Filepath.Join [destDir; Name (header e)]) ->
                493 = 493 /\
                (Typeflag (header e) = TypeDir /\
                 p = Filepath.Join [destDir; Name (header e)] \/
                 Typeflag (header e) = TypeReg /\
                 p = Filepath.Dir
                       (Filepath.Join [destDir; Name (header e)]))).
  { intros p ->. split; [reflexivity | now right]. }
  destruct (openFile host _).
  - destruct (copyFault host _) as [[n m] |].
    + intros op [<- | [<- | [<- | [<- | []]]]];
        (split; [reflexivity |]); auto.
      repeat split; auto. now exists n.
    + intros op [<- | [<- | [<- | [<- | []]]]];
        (split; [reflexivity |]); auto.
      repeat split; auto.
      exists (List.length (body e)). now rewrite firstn_all.
  - intros op [<- | []]. split; [reflexivity |]. auto. }
destruct (Ascii.eqb (Typeflag (header e)) TypeSymlink) eqn:Hl;
  [| intros op Hin; destruct Hin].
apply Ascii.eqb_eq in Hl.
destruct (ValidateSymlink _ _) eqn:Hv; [| intros op Hin; destruct Hin].
destruct (symlink host _ _) as [| m | m];
  [| intros op Hin; destruct Hin | intros op Hin; destruct Hin].
intros op [<- | Hin]; [| destruct Hin]. now repeat split.
Qed.

Lemma extractEntries_accounted (destDir : string) (es : list Entry) :
forall v op,
  In op (snd (fst (extractEntries host destDir v es))) ->
  exists e, In e es /\ accountsFor destDir (maxFileSize v) e op.
Proof.
induction es as [| e es IH]; intros v op; simpl; [intros [] |].
pose proof (extractEntry_accounted destDir v e) as H1.
pose proof (extractEntry_limits host destDir v e) as (L & _).
destruct (extractEntry host destDir v e) as [[v1 ops] [| m]];
  simpl in *.
- specialize (IH v1).
  destruct (extractEntries host destDir v1 es) as [[v2 ops2] err];
    simpl in *.
  intros Hin. apply in_app_or in Hin as [Hin | Hin].
  + exists e. split; [now left | now apply H1].
  + destruct (IH op Hin) as (e' & He' & Ha).
    exists e'. split; [now right |]. now rewrite <- L.
- intros Hin. exists e. split; [now left | now apply H1].
Qed.

End ExtractorLog.

(** X5. The extractor writes nothing that did not pass its checks: every
    call in the log of an extraction, whether it succeeded or failed, is
    accounted for by an entry of the archive whose name passed the path
    check; a file was created only for a regular entry within the
    per-file limit, a link only for a symlink entry whose target passed
    the symlink check, and nothing is ever removed or copied. *)
Theorem ExtractTarball_log_accounted
        (host : OS.Host) (tarAt : string -> Tar.Archive)
        (tarPath destDir : string) (v : Security.Validator) (op : OS.Op) :
  In op (snd (fst (Extractor.ExtractTarball host tarAt tarPath destDir v))) ->
  exists e,
    In e (Tar.entries (tarAt tarPath))
    /\ Measures.accountsFor destDir (Security.maxFileSize v) e op.
Proof.
  unfold Extractor.ExtractTarball.
  destruct (OS.open host tarPath); [| intros []].
  pose proof (extractEntries_accounted host destDir
                (Tar.entries (tarAt tarPath)) (Security.Reset v) op) as H.
  destruct (Extractor.extractEntries _ _ _ _) as [[v1 ops] [| m]];
    simpl in *; [| exact H].
  destruct (Tar.readError _); [| exact H].
  destruct (OS.stat host tarPath) as [[| m] size]; exact H.
Qed.

Lemma ExtractTarball_log_accounted_witness :
  In (OS.MkdirAll "/work/extracted/img/bin" 493)
     (snd (fst (Extractor.ExtractTarball Examples.okHost
                  (fun _ => Examples.traversalArchive) "img.tar"
                  "/work/extracted/img" Examples.limits)))
  /\ exists e,
       In e (Tar.entries Examples.traversalArchive)
       /\ Measures.accountsFor "/work/extracted/img" 1024 e
            (OS.MkdirAll "/work/extracted/img/bin" 493).
Proof.
  assert (Hin : In (OS.MkdirAll "/work/extracted/img/bin" 493)
     (snd (fst (Extractor.ExtractTarball Examples.okHost
                  (fun _ => Examples.traversalArchive) "img.tar"
                  "/work/extracted/img" Examples.limits))))
    by (left; reflexivity).
  split; [exact Hin |].
  exact (ExtractTarball_log_accounted Examples.okHost
           (fun _ => Examples.traversalArchive) "img.tar"
           "/work/extracted/img" Examples.limits _ Hin).
Defined.

(** ** The repository *)

Section RepositoryFacts.
Import Db Repository.

Lemma findKey_In (rows : list Image) (key : string) (row : Image) :
findKey rows key = Some row -> In row rows /\ S3Key row = key.
Proof.
induction rows as [| r rows IH]; simpl; [discriminate |].
destruct (S3Key r == key) eqn:E.
- intros H; inversion H; subst. split; [now left |].
  now apply String.eqb_eq.
- intros H. destruct (IH H). split; [now right | assumption].
Qed.

Lemma findKey_None (rows : list Image) (key : string) :
findKey rows key = None <-> ~ In key (map S3Key rows).
Proof.
induction rows as [| r rows IH]; simpl; [now split; auto |].
destruct (S3Key r == key) eqn:E.
- apply String.eqb_eq in E. split; [discriminate |].
  intros H. destruct H. now left.
- apply String.eqb_neq in E. rewrite IH. tauto.
Qed.

Lemma findID_In (rows : list Image) (id : Z) (row : Image) :
findID rows id = Some row -> In row rows /\ ID row = id.
Proof.
induction rows as [| r rows IH]; simpl; [discriminate |].
destruct (ID r =? id) eqn:E.
- intros H; inversion H; subst. split; [now left |].
  now apply Z.eqb_eq.
- intros H. destruct (IH H). split; [now right | assumption].
Qed.

Lemma findID_None (rows : list Image) (id : Z) :
findID rows id = None <-> ~ In id (map ID rows).
Proof.
induction rows as [| r rows IH]; simpl; [now split; auto |].
destruct (ID r =? id) eqn:E.
- apply Z.eqb_eq in E. split; [discriminate |].
  intros H. destruct H. now left.
- apply Z.eqb_neq in E. rewrite IH. tauto.
Qed.

Lemma In_findID (rows : list Image) (row : Image) :
In row rows -> exists r, findID rows (ID row) = Some r.
Proof.
intros Hin. destruct (findID rows (ID row)) eqn:E; [eauto |].
apply findID_None in E. destruct E. now apply in_map.
Qed.

Lemma findKey_app (rows1 rows2 : list Image) (key : string) :
findKey (rows1 ++ rows2) key
= match findKey rows1 key with
  | Some r => Some r
  | None => findKey rows2 key
  end.
Proof.
induction rows1 as [| r rows IH]; simpl; [reflexivity |].
now destruct (S3Key r == key).
Qed.

(** A change of the rows that keeps every key, seen through the lookup
  by key. *)
Lemma findKey_map (f : Image -> Image) (rows : list Image) (key : string) :
(forall r, S3Key (f r) = S3Key r) ->
findKey (map f rows) key = option_map f (findKey rows key).
Proof.
intros Hf. induction rows as [| r rows IH]; simpl; [reflexivity |].
rewrite Hf. now destruct (S3Key r == key).
Qed.

Lemma setStatus_key (id : Z) (status msg : string) (r : Image) :
S3Key (setStatus id status msg r) = S3Key r.
Proof. unfold setStatus. now destruct (ID r =? id). Qed.

Lemma setStatus_id (id : Z) (status msg : string) (r : Image) :
ID (setStatus id status msg r) = ID r.
Proof. unfold setStatus. now destruct (ID r =? id). Qed.

Lemma setColumns_key (img r : Image) : S3Key (setColumns img r) = S3Key r.
Proof. unfold setColumns. now destruct (ID r =? ID img). Qed.

Lemma setColumns_id (img r : Image) : ID (setColumns img r) = ID r.
Proof. unfold setColumns. now destruct (ID r =? ID img). Qed.

Lemma map_same {A B : Type} (f : A -> A) (g : A -> B) (l : list A) :
(forall a, g (f a) = g a) -> map g (map f l) = map g l.
Proof. intros H. rewrite map_map. now apply map_ext. Qed.

Lemma NoDup_filter_map {A B : Type} (g : A -> B) (p : A -> bool)
    (l : list A) :
NoDup (map g l) -> NoDup (map g (filter p l)).
Proof.
induction l as [| a l IH]; simpl; [auto |].
intros H. inversion H as [| ? ? Hnin Hnd]; subst.
destruct (p a); simpl; [| now apply IH].
constructor; [| now apply IH].
intros Hin. apply Hnin. apply in_map_iff in Hin as (x & Hx & Hxin).
apply filter_In in Hxin as [Hxin _]. apply in_map_iff. eauto.
Qed.

Lemma NoDup_snoc {A : Type} (l : list A) (a : A) :
NoDup l -> ~ In a l -> NoDup (l ++ [a]).
Proof.
induction 1 as [| x l Hx Hl IH]; simpl; intros Ha.
- constructor; [auto | constructor].
- constructor.
  + intros Hin. apply in_app_or in Hin as [Hin | [<- | []]]; auto.
  + apply IH. auto.
Qed.

End RepositoryFacts.

(** ** The registry's invariants *)

Lemma Create_wellFormed (d : Db.Database) (img : Db.Image) :
  Repository.wellFormed d ->
  Repository.wellFormed (fst (fst (Db.Create d img))).
Proof.
  intros (Hk & Hi & Hall). unfold Db.Create.
  destruct (negb (Db.online d)); [now repeat split |].
  destruct (negb (Db.statusCheck (Db.Status img))) eqn:Hs;
    [now repeat split |].
  destruct (Db.findKey _ _) eqn:E; [now repeat split |]. simpl.
  split; [| split]; simpl.
  - rewrite map_app. simpl. apply NoDup_snoc.
    + exact Hk.
    + now apply findKey_None.
  - rewrite map_app. simpl. apply NoDup_snoc.
    + exact Hi.
    + intros Hin. apply in_map_iff in Hin as (r & Hr & Hrin).
      rewrite Forall_forall in Hall. destruct (Hall r Hrin). lia.
  - apply Forall_app. split.
    + revert Hall. apply Forall_impl. intros r [H1 H2]. split; [lia | auto].
    + constructor; [| constructor]. simpl. split; [lia |].
      now apply Bool.negb_false_iff in Hs.
Qed.

Lemma Update_wellFormed (d : Db.Database) (img : Db.Image) :
  Repository.wellFormed d ->
  Repository.wellFormed (fst (Db.Update d img)).
Proof.
  intros (Hk & Hi & Hall). unfold Db.Update.
  destruct (negb (Db.online d)); [now repeat split |].
  destruct (Db.findID _ _); [| now repeat split].
  destruct (Db.statusCheck (Db.Status img)) eqn:Hs; [| now repeat split].
  split; [| split]; simpl.
  - rewrite map_same; [exact Hk | apply setColumns_key].
  - rewrite map_same; [exact Hi | apply setColumns_id].
  - apply Forall_map. revert Hall. apply Forall_impl.
    intros r [H1 H2]. rewrite setColumns_id. split; [exact H1 |].
    unfold Db.setColumns. now destruct (Db.ID r =? Db.ID img).
Qed.

Lemma UpdateStatus_wellFormed (d : Db.Database) (id : Z)
      (status msg : string) :
  Repository.wellFormed d ->
  Repository.wellFormed (fst (Db.UpdateStatus d id status msg)).
Proof.
  intros (Hk & Hi & Hall). unfold Db.UpdateStatus.
  destruct (negb (Db.online d)); [now repeat split |].
  destruct (Db.findID _ _); [| now repeat split].
  destruct (Db.statusCheck status) eqn:Hs; [| now repeat split].
  split; [| split]; simpl.
  - rewrite map_same; [exact Hk | apply setStatus_key].
  - rewrite map_same; [exact Hi | apply setStatus_id].
  - apply Forall_map. revert Hall. apply Forall_impl.
    intros r [H1 H2]. rewrite setStatus_id. split; [exact H1 |].
    unfold Db.setStatus. now destruct (Db.ID r =? id).
Qed.

Lemma Delete_wellFormed (d : Db.Database) (id : Z) :
  Repository.wellFormed d ->
  Repository.wellFormed (fst (Repository.Delete d id)).
Proof.
  intros (Hk & Hi & Hall). unfold Repository.Delete.
  destruct (negb (Db.online d)); [now repeat split |].
  split; [| split]; simpl.
  - now apply NoDup_filter_map.
  - now apply NoDup_filter_map.
  - rewrite Forall_forall in *. intros r Hr.
    apply filter_In in Hr as [Hr _]. now apply Hall.
Qed.

Lemma AllocateNextDeviceID_wellFormed (fault : Db.TxFault)
      (d : Db.Database) :
  Repository.wellFormed d ->
  Repository.wellFormed (fst (fst (Db.AllocateNextDeviceID fault d))).
Proof.
  intros H.
  destruct (Db.AllocateNextDeviceID fault d) as [[d1 id] [| m]] eqn:E.
  - apply AllocateNextDeviceID_success in E as (_ & _ & _ & ->).
    exact H.
  - now rewrite (AllocateNextDeviceID_failure _ _ _ _ _ E).
Qed.

(** X6. Every operation of the repository keeps the table as the schema
    wants it: whatever Create, Update, UpdateStatus, Delete and
    AllocateNextDeviceID are called with, and whether they succeed or
    fail, keys stay unique, ids stay unique and below the AUTOINCREMENT
    counter, and no row carries a status outside the CHECK list. *)
Theorem repository_keeps_wellFormed (d : Db.Database) :
  Repository.wellFormed d ->
  (forall img, Repository.wellFormed (fst (fst (Db.Create d img))))
  /\ (forall img, Repository.wellFormed (fst (Db.Update d img)))
  /\ (forall id status msg,
         Repository.wellFormed (fst (Db.UpdateStatus d id status msg)))
  /\ (forall id, Repository.wellFormed (fst (Repository.Delete d id)))
  /\ (forall fault,
         Repository.wellFormed
           (fst (fst (Db.AllocateNextDeviceID fault d)))).
Proof.
  intros H. split; [| split; [| split; [| split]]].
  - intros img. now apply Create_wellFormed.
  - intros img. now apply Update_wellFormed.
  - intros id status msg. now apply UpdateStatus_wellFormed.
  - intros id. now apply Delete_wellFormed.
  - intros fault. now apply AllocateNextDeviceID_wellFormed.
Qed.

Lemma wellFormed_freshDb : Repository.wellFormed Runs.freshDb.
Proof. repeat split; constructor. Qed.

Lemma activated_lookup :
  Db.GetByS3Key (Fsm.db Runs.activatedWorld) Runs.key
  = (Some Runs.activatedRow, nil).
Proof. vm_compute. reflexivity. Qed.

Lemma wellFormed_activated :
  Repository.wellFormed (Fsm.db Runs.activatedWorld).
Proof.
  unfold Repository.wellFormed.
  replace (Db.images (Fsm.db Runs.activatedWorld))
    with [Runs.activatedRow] by (vm_compute; reflexivity).
  split; [| split].
  - constructor; [intros [] | constructor].
  - constructor; [intros [] | constructor].
  - constructor; [| constructor]. split; [| reflexivity].
    vm_compute. discriminate.
Qed.

Lemma repository_keeps_wellFormed_witness :
  Repository.wellFormed Runs.freshDb
  /\ Repository.wellFormed
       (fst (Db.UpdateStatus
               (fst (fst (Db.Create Runs.freshDb Runs.activatedRow)))
               1 "cleaned" "")).
Proof.
  pose proof wellFormed_freshDb as H0.
  split; [exact H0 |].
  destruct (repository_keeps_wellFormed Runs.freshDb H0) as (H1 & _).
  destruct (repository_keeps_wellFormed _ (H1 Runs.activatedRow))
    as (_ & _ & H2 & _).
  apply H2.
Defined.

(** X7. Insert and look up. A Create that succeeds hands out an id one
    above the counter, above the id of every row there, and the row comes
    back from GetByS3Key under its key with the columns given; the
    lookup of every other key is as before. *)
Theorem Create_then_GetByS3Key
        (d d' : Db.Database) (img row : Db.Image) :
  Repository.wellFormed d ->
  Db.Create d img = (d', row, nil) ->
  Db.GetByS3Key d' (Db.S3Key img) = (Some row, nil)
  /\ Db.ID row = Db.lastRowID d + 1
  /\ (forall r, In r (Db.images d) -> Db.ID r < Db.ID row)
  /\ row = {| Db.ID := Db.lastRowID d + 1; Db.S3Key := Db.S3Key img;
              Db.SHA256 := Db.SHA256 img; Db.Status := Db.Status img;
              Db.DevicePath := Db.DevicePath img;
              Db.BaseDeviceID := Db.BaseDeviceID img;
              Db.SnapshotID := Db.SnapshotID img;
              Db.ErrorMessage := Db.ErrorMessage img |}
  /\ (forall key, key <> Db.S3Key img ->
                  Db.GetByS3Key d' key = Db.GetByS3Key d key).
Proof.
  intros (_ & _ & Hall) Hc. unfold Db.Create in Hc.
  destruct (Db.online d) eqn:Ho; simpl in Hc; [| discriminate].
  destruct (Db.statusCheck (Db.Status img)); simpl in Hc; [| discriminate].
  destruct (Db.findKey (Db.images d) (Db.S3Key img)) eqn:Hf;
    [discriminate |].
  inversion Hc; subst; clear Hc.
  unfold Db.GetByS3Key. simpl. rewrite Ho. simpl.
  repeat split.
  - rewrite findKey_app, Hf. simpl. now rewrite String.eqb_refl.
  - intros r Hr. rewrite Forall_forall in Hall. destruct (Hall r Hr). lia.
  - intros key Hkey. f_equal. rewrite findKey_app. simpl.
    apply not_eq_sym in Hkey. apply String.eqb_neq in Hkey. rewrite Hkey.
    now destruct (Db.findKey (Db.images d) key).
Qed.

Lemma Create_then_GetByS3Key_witness :
  let img := {| Db.ID := 0; Db.S3Key := "test-image.tar";
                Db.SHA256 := "abc123"; Db.Status := Db.StatusPending;
                Db.DevicePath := ""; Db.BaseDeviceID := 0;
                Db.SnapshotID := 0; Db.ErrorMessage := "" |} in
  let '(d', row, err) := Db.Create Runs.freshDb img in
  err = nil
  /\ Db.GetByS3Key d' "test-image.tar" = (Some row, nil)
  /\ Db.ID row = 1.
Proof.
  intros img.
  destruct (Db.Create Runs.freshDb img) as [[d' row] err] eqn:Hc.
  assert (Herr : err = nil) by (vm_compute in Hc; now inversion Hc).
  subst err. split; [reflexivity |].
  pose proof wellFormed_freshDb as H0.
  destruct (Create_then_GetByS3Key _ _ _ _ H0 Hc) as (H1 & H2 & _).
  split; [exact H1 | exact H2].
Defined.

(** X9. Set a status and look it up. For a row found under a key,
    UpdateStatus with its id and a status of the CHECK list succeeds, the
    row then comes back with that status and message and all its other
    columns as they were, and the rows under other keys are untouched. *)
Theorem UpdateStatus_then_GetByS3Key
        (d : Db.Database) (key status msg : string) (img : Db.Image) :
  Repository.wellFormed d ->
  Db.GetByS3Key d key = (Some img, nil) ->
  Db.statusCheck status = true ->
  let '(d', err) := Db.UpdateStatus d (Db.ID img) status msg in
  err = nil
  /\ Db.GetByS3Key d' key
     = (Some {| Db.ID := Db.ID img; Db.S3Key := Db.S3Key img;
                Db.SHA256 := Db.SHA256 img; Db.Status := status;
                Db.DevicePath := Db.DevicePath img;
                Db.BaseDeviceID := Db.BaseDeviceID img;
                Db.SnapshotID := Db.SnapshotID img;
                Db.ErrorMessage := msg |}, nil)
  /\ (forall other, other <> key ->
                    Db.GetByS3Key d' other = Db.GetByS3Key d other)
  /\ Db.device_sequence d' = Db.device_sequence d.
Proof.
  intros (_ & Hi & _) Hg Hs. unfold Db.GetByS3Key in Hg.
  destruct (Db.online d) eqn:Ho; simpl in Hg; [| discriminate].
  assert (Hf : Db.findKey (Db.images d) key = Some img)
    by now inversion Hg.
  destruct (findKey_In _ _ _ Hf) as [Hin Hkey].
  destruct (In_findID _ _ Hin) as [r Hr].
  unfold Db.UpdateStatus. rewrite Ho, Hr, Hs. simpl.
  unfold Db.GetByS3Key. simpl. rewrite Ho. simpl.
  split; [reflexivity |]. split; [| split; [| reflexivity]].
  - rewrite findKey_map by apply setStatus_key. rewrite Hf. simpl.
    unfold Db.setStatus. now rewrite Z.eqb_refl.
  - intros other Hne. f_equal.
    rewrite findKey_map by apply setStatus_key.
    destruct (Db.findKey (Db.images d) other) as [o |] eqn:Hfo;
      [| reflexivity].
    simpl. f_equal. unfold Db.setStatus.
    destruct (Db.ID o =? Db.ID img) eqn:E; [| reflexivity].
    exfalso. apply Z.eqb_eq in E.
    destruct (findKey_In _ _ _ Hfo) as [Hoin Hokey].
    assert (o = img).
    { clear - Hi Hoin Hin E. induction (Db.images d) as [| a l IH];
        [destruct Hin |].
      simpl in Hi. inversion Hi as [| ? ? Hnin Hnd]; subst.
      destruct Hoin as [<- | Ho], Hin as [<- | Hm]; auto.
      - destruct Hnin. rewrite E. now apply in_map.
      - destruct Hnin. rewrite <- E. now apply in_map. }
    subst o. congruence.
Qed.

Lemma UpdateStatus_then_GetByS3Key_witness :
  let '(d', err) :=
    Db.UpdateStatus (Fsm.db Runs.activatedWorld) 1 Db.StatusDownloading "" in
  err = nil
  /\ Runs.statusOf (Fsm.setDb Runs.activatedWorld d') Runs.key
     = Some Db.StatusDownloading.
Proof.
  pose proof wellFormed_activated as H0.
  pose proof (UpdateStatus_then_GetByS3Key (Fsm.db Runs.activatedWorld)
                Runs.key Db.StatusDownloading "" Runs.activatedRow
                H0 activated_lookup eq_refl) as H.
  change (Db.ID Runs.activatedRow) with 1 in H.
  destruct (Db.UpdateStatus (Fsm.db Runs.activatedWorld) 1
              Db.StatusDownloading "") as [d' err].
  destruct H as (H1 & H2 & _).
  split; [exact H1 |].
  unfold Runs.statusOf. simpl Fsm.db. now rewrite H2.
Defined.

(** X11. Update writes the mutable columns of the row with the image's
    id and nothing else: the row keeps its key, whatever key the image
    passed in carries, and the rows under other keys are untouched. *)
Theorem Update_then_GetByS3Key
        (d : Db.Database) (key : string) (old img : Db.Image) :
  Repository.wellFormed d ->
  Db.GetByS3Key d key = (Some old, nil) ->
  Db.ID img = Db.ID old ->
  Db.statusCheck (Db.Status img) = true ->
  let '(d', err) := Db.Update d img in
  err = nil
  /\ Db.GetByS3Key d' key
     = (Some {| Db.ID := Db.ID old; Db.S3Key := key;
                Db.SHA256 := Db.SHA256 img; Db.Status := Db.Status img;
                Db.DevicePath := Db.DevicePath img;
                Db.BaseDeviceID := Db.BaseDeviceID img;
                Db.SnapshotID := Db.SnapshotID img;
                Db.ErrorMessage := Db.ErrorMessage img |}, nil)
  /\ (forall other, other <> key ->
                    Db.GetByS3Key d' other = Db.GetByS3Key d other).
Proof.
  intros (_ & Hi & _) Hg Hid Hs. unfold Db.GetByS3Key in Hg.
  destruct (Db.online d) eqn:Ho; simpl in Hg; [| discriminate].
  assert (Hf : Db.findKey (Db.images d) key = Some old)
    by now inversion Hg.
  destruct (findKey_In _ _ _ Hf) as [Hin Hkey].
  destruct (In_findID _ _ Hin) as [r Hr].
  unfold Db.Update. rewrite Ho, Hid, Hr, Hs. simpl.
  unfold Db.GetByS3Key. simpl. rewrite Ho. simpl.
  split; [reflexivity |]. split.
  - rewrite findKey_map by apply setColumns_key. rewrite Hf. simpl.
    unfold Db.setColumns. now rewrite Hid, Z.eqb_refl, Hkey.
  - intros other Hne. f_equal.
    rewrite findKey_map by apply setColumns_key.
    destruct (Db.findKey (Db.images d) other) as [o |] eqn:Hfo;
      [| reflexivity].
    simpl. f_equal. unfold Db.setColumns. rewrite Hid.
    destruct (Db.ID o =? Db.ID old) eqn:E; [| reflexivity].
    exfalso. apply Z.eqb_eq in E.
    destruct (findKey_In _ _ _ Hfo) as [Hoin Hokey].
    assert (o = old).
    { clear - Hi Hoin Hin E. induction (Db.images d) as [| a l IH];
        [destruct Hin |].
      simpl in Hi. inversion Hi as [| ? ? Hnin Hnd]; subst.
      destruct Hoin as [<- | Ho], Hin as [<- | Hm]; auto.
      - destruct Hnin. rewrite E. now apply in_map.
      - destruct Hnin. rewrite <- E. now apply in_map. }
    subst o. congruence.
Qed.

Lemma Update_then_GetByS3Key_witness :
  let img := {| Db.ID := 1; Db.S3Key := "another/key.tar";
                Db.SHA256 := "abc123"; Db.Status := Db.StatusFailed;
                Db.DevicePath := ""; Db.BaseDeviceID := 0;
                Db.SnapshotID := 0; Db.ErrorMessage := "boom" |} in
  let '(d', err) := Db.Update (Fsm.db Runs.activatedWorld) img in
  err = nil
  /\ Runs.statusOf (Fsm.setDb Runs.activatedWorld d') Runs.key
     = Some Db.StatusFailed
  /\ Runs.statusOf (Fsm.setDb Runs.activatedWorld d') "another/key.tar"
     = None.
Proof.
  intros img.
  pose proof wellFormed_activated as H0.
  pose proof (Update_then_GetByS3Key (Fsm.db Runs.activatedWorld)
                Runs.key Runs.activatedRow img
                H0 activated_lookup eq_refl eq_refl) as H.
  destruct (Db.Update (Fsm.db Runs.activatedWorld) img) as [d' err].
  destruct H as (H1 & H2 & H3).
  split; [exact H1 |]. unfold Runs.statusOf. simpl Fsm.db.
  rewrite H2, (H3 "another/key.tar") by discriminate.
  split; reflexivity.
Defined.

(** X12. Delete and insert again. After the row found under a key is
    deleted, the key is free, the lookup finds nothing, and a new row for
    the same key gets a new id, above the deleted one: ids are not
    handed out twice. *)
Theorem Delete_then_Create
        (d : Db.Database) (key : string) (old img : Db.Image) :
  Repository.wellFormed d ->
  Db.GetByS3Key d key = (Some old, nil) ->
  Db.S3Key img = key ->
  Db.statusCheck (Db.Status img) = true ->
  let '(d1, err1) := Repository.Delete d (Db.ID old) in
  let '(d2, row, err2) := Db.Create d1 img in
  err1 = nil
  /\ Db.GetByS3Key d1 key = (None, nil)
  /\ err2 = nil
  /\ Db.ID old < Db.ID row
  /\ Db.GetByS3Key d2 key = (Some row, nil).
Proof.
  intros (Hk & Hi & Hall) Hg Hkey Hs. subst key.
  unfold Db.GetByS3Key in Hg.
  destruct (Db.online d) eqn:Ho; simpl in Hg; [| discriminate].
  assert (Hf : Db.findKey (Db.images d) (Db.S3Key img) = Some old)
    by now inversion Hg.
  destruct (findKey_In _ _ _ Hf) as [Hin Hold].
  unfold Repository.Delete. rewrite Ho. simpl.
  set (rows := filter (fun row => negb (Db.ID row =? Db.ID old))
                      (Db.images d)).
  assert (Hnone : Db.findKey rows (Db.S3Key img) = None).
  { apply findKey_None. intros Hin'.
    apply in_map_iff in Hin' as (r & Hr & Hrin).
    apply filter_In in Hrin as [Hrin Hne].
    apply Bool.negb_true_iff, Z.eqb_neq in Hne. apply Hne.
    assert (r = old); [| now subst].
    clear - Hk Hrin Hin Hr Hold. rewrite <- Hold in Hr.
    induction (Db.images d) as [| a l IH]; [destruct Hin |].
    simpl in Hk. inversion Hk as [| ? ? Hnin Hnd]; subst.
    destruct Hrin as [<- | Hr'], Hin as [<- | Hm]; auto.
    - destruct Hnin. rewrite Hr. now apply in_map.
    - destruct Hnin. rewrite <- Hr. now apply in_map. }
  unfold Db.Create. simpl. rewrite Ho, Hs, Hnone. simpl.
  unfold Db.GetByS3Key. simpl. rewrite Ho. simpl.
  rewrite Hnone. repeat split.
  - rewrite Forall_forall in Hall. destruct (Hall old Hin). lia.
  - rewrite findKey_app, Hnone. simpl. now rewrite String.eqb_refl.
Qed.

Lemma Delete_then_Create_witness :
  let '(d1, err1) := Repository.Delete (Fsm.db Runs.activatedWorld) 1 in
  let '(d2, row, err2) :=
    Db.Create d1 {| Db.ID := 0; Db.S3Key := Runs.key; Db.SHA256 := "";
                    Db.Status := Db.StatusPending; Db.DevicePath := "";
                    Db.BaseDeviceID := 0; Db.SnapshotID := 0;
                    Db.ErrorMessage := "" |} in
  err1 = nil /\ err2 = nil /\ 1 < Db.ID row.
Proof.
  pose proof (Delete_then_Create (Fsm.db Runs.activatedWorld) Runs.key
                Runs.activatedRow
                {| Db.ID := 0; Db.S3Key := Runs.key; Db.SHA256 := "";
                   Db.Status := Db.StatusPending; Db.DevicePath := "";
                   Db.BaseDeviceID := 0; Db.SnapshotID := 0;
                   Db.ErrorMessage := "" |}
                wellFormed_activated activated_lookup eq_refl eq_refl)
    as H.
  change (Db.ID Runs.activatedRow) with 1 in H.
  destruct (Repository.Delete (Fsm.db Runs.activatedWorld) 1)
    as [d1 err1].
  destruct (Db.Create d1 _) as [[d2 row] err2].
  destruct H as (H1 & _ & H3 & H4 & _).
  split; [exact H1 | split; [exact H3 | exact H4]].
Defined.

Lemma cleanupImageResources_key
      (env : Fsm.Env) (dm : option Devicemapper.Manager) (WorkDir : string)
      (img : Db.Image) (w : Fsm.World) :
  Db.S3Key (snd (fst (Cleanup.cleanupImageResources env dm WorkDir img w)))
  = Db.S3Key img.
Proof.
  unfold Cleanup.cleanupImageResources.
  set (step1 := match dm with Some _ => _ | None => _ end).
  assert (H1 : Db.S3Key (snd step1) = Db.S3Key img).
  { subst step1. destruct dm; [| reflexivity].
    now destruct (negb _). }
  destruct step1 as [w1 img1]. simpl in H1.
  set (step2 := match dm with Some _ => _ | None => _ end).
  assert (H2 : Db.S3Key (snd step2) = Db.S3Key img).
  { subst step2. destruct dm; [| exact H1].
    now destruct (_ >? 0). }
  destruct step2 as [w2 img2]. simpl in H2.
  destruct (Cleanup.exists_ env _);
    [destruct (OS.removeAll _ _); [| exact H2] |];
    (destruct (Cleanup.exists_ env _);
     [destruct (OS.remove _ _); [| exact H2] |]);
    now destruct (Db.Update _ _) as [d [| e]].
Qed.

(** ** The cleanup command's other modes *)

Section CommandsFacts.
Variable env : Fsm.Env.
Variable dmManager : option Devicemapper.Manager.
Variable WorkDir : string.

Lemma cleanupEach_report (listed : list Db.Image) (w : Fsm.World) :
let '(w', report) :=
  Commands.cleanupEach env dmManager WorkDir listed w in
Fsm.db w' = Fsm.db w
/\ map fst report = map Db.S3Key listed
/\ Forall (fun line => snd line <> nil) report.
Proof.
revert w. induction listed as [| img rest IH]; intros w; simpl.
- now repeat split.
- pose proof (cleanupImageResources_fails env dmManager WorkDir img w)
    as H.
  pose proof (cleanupImageResources_key env dmManager WorkDir img w)
    as K.
  destruct (Cleanup.cleanupImageResources env dmManager WorkDir img w)
    as [[w1 img1] err]. destruct H as [Hd He]. simpl in K.
  specialize (IH w1).
  destruct (Commands.cleanupEach env dmManager WorkDir rest w1)
    as [w2 report]. destruct IH as (IH1 & IH2 & IH3).
  simpl. repeat split.
  + congruence.
  + now rewrite K, IH2.
  + constructor; [exact He | exact IH3].
Qed.

Lemma sweepExtracted_online (dir : string)
    (entries : list Commands.DirEntry) (w : Fsm.World) (n : Z) :
Db.online (Fsm.db w) = true ->
Commands.sweepExtracted env dir entries w n = (w, n).
Proof.
intros Ho. induction entries as [| e rest IH]; simpl; [reflexivity |].
unfold Db.GetByS3Key. rewrite Ho. simpl.
now destruct (Commands.IsDir e).
Qed.

Lemma sweepDownloads_online (dir : string)
    (entries : list Commands.DirEntry) (w : Fsm.World) (n : Z) :
Db.online (Fsm.db w) = true ->
Commands.sweepDownloads env dir entries w n = (w, n).
Proof.
intros Ho. induction entries as [| e rest IH]; simpl; [reflexivity |].
unfold Db.GetByS3Key. rewrite Ho. simpl.
now destruct (Commands.IsDir e).
Qed.

Lemma sweepExtracted_offline (dir : string)
    (entries : list Commands.DirEntry) (w : Fsm.World) (n : Z) :
Db.online (Fsm.db w) = false ->
let '(w', _) := Commands.sweepExtracted env dir entries w n in
Fsm.db w' = Fsm.db w
/\ Fsm.kernelLog w' = Fsm.kernelLog w
/\ Fsm.fsLog w'
   = (Fsm.fsLog w
      ++ map (fun e => OS.RemoveAll (Filepath.Join [dir; Commands.Name e]))
           (filter (fun e =>
                      Commands.IsDir e
                      && isNil (OS.removeAll (Fsm.host env)
                                  (Filepath.Join [dir; Commands.Name e])))
                   entries))%list.
Proof.
intros Ho. revert w n Ho.
induction entries as [| e rest IH]; intros w n Ho; simpl.
- now rewrite app_nil_r.
- destruct (Commands.IsDir e); simpl; [| now apply IH].
  unfold Db.GetByS3Key at 1. rewrite Ho. simpl.
  destruct (OS.removeAll (Fsm.host env) _) eqn:Hr; simpl;
    [| now apply IH].
  specialize (IH (Fsm.addFs w [OS.RemoveAll
                                 (Filepath.Join [dir; Commands.Name e])])
                 (wrap64 (n + 1)) Ho).
  destruct (Commands.sweepExtracted env dir rest _ _) as [w' n'].
  destruct IH as (IH1 & IH2 & IH3). simpl in IH1, IH2, IH3.
  repeat split; try assumption.
  now rewrite IH3, <- app_assoc.
Qed.

Lemma sweepDownloads_offline (dir : string)
    (entries : list Commands.DirEntry) (w : Fsm.World) (n : Z) :
Db.online (Fsm.db w) = false ->
let '(w', _) := Commands.sweepDownloads env dir entries w n in
Fsm.db w' = Fsm.db w
/\ Fsm.kernelLog w' = Fsm.kernelLog w
/\ Fsm.fsLog w'
   = (Fsm.fsLog w
      ++ map (fun e => OS.Remove (Filepath.Join [dir; Commands.Name e]))
           (filter (fun e =>
                      negb (Commands.IsDir e)
                      && isNil (OS.remove (Fsm.host env)
                                  (Filepath.Join [dir; Commands.Name e])))
                   entries))%list.
Proof.
intros Ho. revert w n Ho.
induction entries as [| e rest IH]; intros w n Ho; simpl.
- now rewrite app_nil_r.
- destruct (Commands.IsDir e); simpl; [now apply IH |].
  unfold Db.GetByS3Key at 1. rewrite Ho. simpl.
  destruct (OS.remove (Fsm.host env) _) eqn:Hr; simpl;
    [| now apply IH].
  specialize (IH (Fsm.addFs w [OS.Remove
                                 (Filepath.Join [dir; Commands.Name e])])
                 (wrap64 (n + 1)) Ho).
  destruct (Commands.sweepDownloads env dir rest _ _) as [w' n'].
  destruct IH as (IH1 & IH2 & IH3). simpl in IH1, IH2, IH3.
  repeat split; try assumption.
  now rewrite IH3, <- app_assoc.
Qed.

End CommandsFacts.

(** X13. cleanupAllImages returns [nil] whenever the listing worked, and
    yet it has cleaned nothing in the registry: for every listed image,
    whatever its columns, the report line is a failure, and the database
    is as it was. *)
Theorem cleanupAllImages_reports_only_failures
        (env : Fsm.Env) (dm : option Devicemapper.Manager)
        (WorkDir : string) (images : list Db.Image) (w : Fsm.World) :
  let '(w', report, err) :=
    Commands.cleanupAllImages env dm WorkDir (images, nil) w in
  err = nil
  /\ Fsm.db w' = Fsm.db w
  /\ map fst report = map Db.S3Key images
  /\ Forall (fun line => snd line <> nil) report.
Proof.
  unfold Commands.cleanupAllImages.
  pose proof (cleanupEach_report env dm WorkDir images w) as H.
  destruct (Commands.cleanupEach env dm WorkDir images w) as [w' report].
  now split.
Qed.

(** X14. cleanupOrphanedResources takes a name for orphaned only when
    the lookup returns an error, and a key without a row is no error:
    while the database answers, nothing is removed, whatever the two
    directories hold and whatever the registry tracks. *)
Theorem cleanupOrphanedResources_removes_nothing
        (env : Fsm.Env) (WorkDir : string)
        (readDir : string -> error * list Commands.DirEntry)
        (w : Fsm.World) :
  Db.online (Fsm.db w) = true ->
  Commands.cleanupOrphanedResources env WorkDir readDir w = (w, 0, nil).
Proof.
  intros Ho. unfold Commands.cleanupOrphanedResources.
  destruct (readDir (Filepath.Join [WorkDir; "extracted"]))
    as [[| e1] es1];
    [rewrite (sweepExtracted_online env _ es1 w 0 Ho) |];
    (destruct (readDir (Filepath.Join [WorkDir; "downloads"]))
      as [[| e2] es2];
     [rewrite (sweepDownloads_online env _ es2 w 0 Ho) |]); reflexivity.
Qed.

Lemma cleanupOrphanedResources_removes_nothing_witness :
  Commands.cleanupOrphanedResources (Runs.envWith Runs.kernelOk)
    "/var/lib/flyio-machine"
    (fun _ => (nil, [ {| Commands.Name := "stale"; Commands.IsDir := true |};
                      {| Commands.Name := "2.tar";
                         Commands.IsDir := false |} ]))
    Runs.activatedWorld
  = (Runs.activatedWorld, 0, nil).
Proof.
  apply cleanupOrphanedResources_removes_nothing.
  vm_compute. reflexivity.
Defined.

(** X15. While the database does not answer, the same function takes
    every name for orphaned: each directory under extracted and each
    file under downloads that the host lets go is removed, tracked by
    the registry or not; and it still returns [nil]. *)
Theorem cleanupOrphanedResources_offline_removes_all
        (env : Fsm.Env) (WorkDir : string)
        (readDir : string -> error * list Commands.DirEntry)
        (w : Fsm.World) (es1 es2 : list Commands.DirEntry) :
  Db.online (Fsm.db w) = false ->
  readDir (Filepath.Join [WorkDir; "extracted"]) = (nil, es1) ->
  readDir (Filepath.Join [WorkDir; "downloads"]) = (nil, es2) ->
  let extractedDir := Filepath.Join [WorkDir; "extracted"] in
  let downloadDir := Filepath.Join [WorkDir; "downloads"] in
  let '(w', _, err) :=
    Commands.cleanupOrphanedResources env WorkDir readDir w in
  err = nil
  /\ Fsm.db w' = Fsm.db w
  /\ Fsm.fsLog w'
     = (Fsm.fsLog w
        ++ map (fun e =>
                  OS.RemoveAll (Filepath.Join [extractedDir; Commands.Name e]))
             (filter (fun e =>
                        Commands.IsDir e
                        && isNil (OS.removeAll (Fsm.host env)
                                    (Filepath.Join
                                       [extractedDir; Commands.Name e])))
                     es1)
        ++ map (fun e =>
                  OS.Remove (Filepath.Join [downloadDir; Commands.Name e]))
             (filter (fun e =>
                        negb (Commands.IsDir e)
                        && isNil (OS.remove (Fsm.host env)
                                    (Filepath.Join
                                       [downloadDir; Commands.Name e])))
                     es2))%list.
Proof.
  intros Ho H1 H2 extractedDir downloadDir.
  unfold Commands.cleanupOrphanedResources.
  rewrite H1, H2. fold extractedDir downloadDir.
  pose proof (sweepExtracted_offline env extractedDir es1 w 0 Ho) as S1.
  destruct (Commands.sweepExtracted env extractedDir es1 w 0) as [w1 n1].
  destruct S1 as (D1 & _ & L1).
  assert (Ho1 : Db.online (Fsm.db w1) = false) by congruence.
  pose proof (sweepDownloads_offline env downloadDir es2 w1 n1 Ho1) as S2.
  destruct (Commands.sweepDownloads env downloadDir es2 w1 n1) as [w2 n2].
  destruct S2 as (D2 & _ & L2).
  split; [reflexivity |]. split; [congruence |].
  now rewrite L2, L1, <- app_assoc.
Qed.

Lemma cleanupOrphanedResources_offline_removes_all_witness :
  let offline :=
    Fsm.setDb Runs.freshWorld
      {| Db.online := false; Db.images := [Runs.activatedRow];
         Db.lastRowID := 1; Db.device_sequence := Some 3 |} in
  let '(w', _, err) :=
    Commands.cleanupOrphanedResources (Runs.envWith Runs.kernelOk)
      "/var/lib/flyio-machine"
      (fun dir =>
         (nil, if dir == "/var/lib/flyio-machine/extracted"
               then [ {| Commands.Name := "2.tar";
                         Commands.IsDir := true |} ]
               else [])) offline in
  err = nil
  /\ Fsm.fsLog w'
     = [OS.RemoveAll "/var/lib/flyio-machine/extracted/2.tar"].
Proof.
  intros offline.
  pose proof (cleanupOrphanedResources_offline_removes_all
                (Runs.envWith Runs.kernelOk) "/var/lib/flyio-machine"
                (fun dir =>
                   (nil, if dir == "/var/lib/flyio-machine/extracted"
                         then [ {| Commands.Name := "2.tar";
                                   Commands.IsDir := true |} ]
                         else []))
                offline
                [ {| Commands.Name := "2.tar"; Commands.IsDir := true |} ]
                [] eq_refl eq_refl eq_refl) as H.
  cbv zeta in H.
  destruct (Commands.cleanupOrphanedResources _ _ _ offline)
    as [[w' n] err].
  destruct H as (H1 & _ & H3).
  split; [exact H1 |]. rewrite H3. vm_compute. reflexivity.
Defined.

(** ** Handlers, continued *)

Lemma Update_sequence (d : Db.Database) (img : Db.Image) :
  Db.device_sequence (fst (Db.Update d img)) = Db.device_sequence d.
Proof.
  unfold Db.Update. destruct (Db.online d); [| reflexivity].
  destruct (Db.findID _ _); [| reflexivity].
  now destruct (Db.statusCheck _).
Qed.

Lemma UpdateStatus_sequence (d : Db.Database) (id : Z)
      (status msg : string) :
  Db.device_sequence (fst (Db.UpdateStatus d id status msg))
  = Db.device_sequence d.
Proof.
  unfold Db.UpdateStatus. destruct (Db.online d); [| reflexivity].
  destruct (Db.findID _ _); [| reflexivity].
  now destruct (Db.statusCheck _).
Qed.

(** One write to the registry in a handler: the sequence row is not
    part of it. *)
Ltac db_step :=
  match goal with
  | |- context [Db.Update ?db ?i] =>
      let Hu := fresh "Hu" in
      pose proof (Update_sequence db i) as Hu;
      destruct (Db.Update db i) as [? [| ?]]; simpl in Hu |- *
  | |- context [Db.UpdateStatus ?db ?i ?s ?t] =>
      let Hu := fresh "Hu" in
      pose proof (UpdateStatus_sequence db i s t) as Hu;
      destruct (Db.UpdateStatus db i s t) as [? [| ?]]; simpl in Hu |- *
  end.

(** X16. handleCheckDB is idempotent on the registry: once it has
    advanced, the key has a row, the response carries that row's id, and
    a further run finds the row, creates nothing, and answers with the
    same id. *)
Theorem handleCheckDB_idempotent
        (m : Fsm.Machine) (retryCount retryCount' : Z)
        (req : Fsm.ImageRequest) (msg msg1 : option Fsm.ImageResponse)
        (w w1 : Fsm.World) :
  Fsm.handleCheckDB m retryCount req msg w = (w1, msg1, Fsm.Advance) ->
  retryCount' < Fsm.uint64 (Fsm.maxRetries m) ->
  exists img resp1 resp2,
    Db.GetByS3Key (Fsm.db w1) (Fsm.reqS3Key req) = (Some img, nil)
    /\ msg1 = Some resp1
    /\ Fsm.ImageID resp1 = Db.ID img
    /\ Fsm.handleCheckDB m retryCount' req msg1 w1
       = (w1, Some resp2, Fsm.Advance)
    /\ Fsm.ImageID resp2 = Db.ID img
    /\ Fsm.respStatus resp2 = Db.Status img.
Proof.
  intros H Hr.
  assert (Hfound : forall img msg0,
    Db.GetByS3Key (Fsm.db w1) (Fsm.reqS3Key req) = (Some img, nil) ->
    exists resp2,
      Fsm.handleCheckDB m retryCount' req msg0 w1
      = (w1, Some resp2, Fsm.Advance)
      /\ Fsm.ImageID resp2 = Db.ID img
      /\ Fsm.respStatus resp2 = Db.Status img).
  { intros img msg0 Hg. unfold Fsm.handleCheckDB.
    rewrite (retry_within_budget m retryCount' Hr), Hg.
    eexists. now repeat split. }
  unfold Fsm.handleCheckDB in H.
  destruct (retryCount >=? _); [discriminate |].
  unfold Db.GetByS3Key in H.
  destruct (Db.online (Fsm.db w)) eqn:Ho; simpl in H; [| discriminate].
  destruct (Db.findKey (Db.images (Fsm.db w)) (Fsm.reqS3Key req))
    as [img |] eqn:Hf.
  - inversion H; subst; clear H.
    assert (Hg : Db.GetByS3Key (Fsm.db w1) (Fsm.reqS3Key req)
                 = (Some img, nil)).
    { unfold Db.GetByS3Key. now rewrite Ho, Hf. }
    destruct (Hfound img (Some {|
        Fsm.ImageID := Db.ID img; Fsm.respSHA256 := Db.SHA256 img;
        Fsm.DownloadPath :=
          Fsm.DownloadPath
            match msg with Some r => r | None => Fsm.emptyResponse end;
        Fsm.DownloadSize :=
          Fsm.DownloadSize
            match msg with Some r => r | None => Fsm.emptyResponse end;
        Fsm.ExtractedPath :=
          Fsm.ExtractedPath
            match msg with Some r => r | None => Fsm.emptyResponse end;
        Fsm.respDevicePath :=
          Fsm.respDevicePath
            match msg with Some r => r | None => Fsm.emptyResponse end;
        Fsm.respSnapshotID :=
          Fsm.respSnapshotID
            match msg with Some r => r | None => Fsm.emptyResponse end;
        Fsm.respStatus := Db.Status img;
        Fsm.respErrorMessage :=
          Fsm.respErrorMessage
            match msg with Some r => r | None => Fsm.emptyResponse end |})
                Hg) as (resp2 & E & I & S).
    eexists img, _, resp2. repeat split; try eassumption; try reflexivity.
  - unfold Db.Create in H. rewrite Ho in H. simpl in H.
    rewrite Hf in H. inversion H; subst; clear H.
    match goal with
    | |- context [Fsm.setDb w ?d0] =>
        assert (Hg : Db.GetByS3Key (Fsm.db (Fsm.setDb w d0))
                       (Fsm.reqS3Key req)
                     = (Some {| Db.ID := Db.lastRowID (Fsm.db w) + 1;
                                Db.S3Key := Fsm.reqS3Key req;
                                Db.SHA256 := ""; 
                                Db.Status := Db.StatusPending;
                                Db.DevicePath := "";
                                Db.BaseDeviceID := 0; Db.SnapshotID := 0;
                                Db.ErrorMessage := "" |}, nil))
    end.
    { unfold Db.GetByS3Key. simpl.
      rewrite findKey_app, Hf. simpl. now rewrite String.eqb_refl. }
    match goal with
    | |- context [Fsm.handleCheckDB m retryCount' req ?msg0 _] =>
        destruct (Hfound _ msg0 Hg) as (resp2 & E & I & S)
    end.
    eexists _, _, resp2. repeat split; try eassumption; try reflexivity.
Qed.

Lemma handleCheckDB_idempotent_witness :
  exists img resp2,
    Db.GetByS3Key
      (Fsm.db (fst (fst (Fsm.handleCheckDB Runs.linux 0
                           {| Fsm.reqS3Key := Runs.key;
                              Fsm.reqS3Bucket := Runs.bucket |}
                           (Some Fsm.emptyResponse) Runs.freshWorld))))
      Runs.key = (Some img, nil)
    /\ Db.ID img = 1
    /\ Fsm.ImageID resp2 = 1.
Proof.
  destruct (Fsm.handleCheckDB Runs.linux 0
              {| Fsm.reqS3Key := Runs.key; Fsm.reqS3Bucket := Runs.bucket |}
              (Some Fsm.emptyResponse) Runs.freshWorld)
    as [[w1 msg1] o] eqn:H.
  assert (Ho : o = Fsm.Advance) by (vm_compute in H; now inversion H).
  subst o.
  assert (Hid : option_map Fsm.ImageID msg1 = Some 1)
    by (vm_compute in H; now inversion H).
  destruct (handleCheckDB_idempotent Runs.linux 0 1 _ _ _ _ _ H)
    as (img & resp1 & resp2 & H1 & H2 & H3 & _ & H5 & _).
  { vm_compute. reflexivity. }
  exists img, resp2. subst msg1. simpl in Hid. simpl fst.
  split; [exact H1 |]. split; congruence.
Defined.

(** X17. The create_device handler never gives an id back. Once the
    allocation has succeeded, the sequence stays one further whatever
    happens next and however the handler ends: the manager refusing,
    the mount directory, the mount, the copy or the unmount failing, or
    the row not being written. A retry allocates again. *)
Theorem handleCreateDevice_keeps_allocation
        (env : Fsm.Env) (m : Fsm.Machine) (dm : Devicemapper.Manager)
        (retryCount : Z) (req : Fsm.ImageRequest)
        (resp : Fsm.ImageResponse) (w : Fsm.World)
        (d : Db.Database) (id : Z) :
  Fsm.dmManager m = Some dm ->
  retryCount < Fsm.uint64 (Fsm.maxRetries m) ->
  Db.AllocateNextDeviceID (Fsm.txFault env) (Fsm.db w) = (d, id, nil) ->
  let '(w', _, _) :=
    Fsm.handleCreateDevice env m retryCount req (Some resp) w in
  Db.device_sequence (Fsm.db w) = Some id
  /\ Db.device_sequence (Fsm.db w') = Some (wrap64 (id + 1)).
Proof.
  intros Hdm Hr Ha. unfold Fsm.handleCreateDevice.
  rewrite (retry_within_budget m retryCount Hr), Hdm, Ha.
  apply AllocateNextDeviceID_success in Ha as (_ & _ & Hs & ->).
  destruct (Devicemapper.CreateDevice _ _ _) as [cmds [info | err]];
    [| now split].
  destruct (OS.mkdirAll _ _); [| now split].
  destruct (Devicemapper.MountDevice _ _ _ _) as [cmds1 [| e1]];
    [| now split].
  destruct (Fsm.copyDir env _ _).
  - destruct (Devicemapper.UnmountDevice _ _ _) as [cmds2 [| e2]];
      [| now split].
    destruct (fst (Db.GetByS3Key _ _)) as [img |]; [| now split].
    match goal with
    | |- context [Db.Update ?db ?i] =>
        pose proof (Update_sequence db i) as Hu;
        destruct (Db.Update db i) as [d' [| e']]
    end; simpl in Hu |- *; now split.
  - match goal with
    | |- context [Db.UpdateStatus ?db ?i ?s ?t] =>
        pose proof (UpdateStatus_sequence db i s t) as Hu;
        destruct (Db.UpdateStatus db i s t) as [d' e']
    end; simpl in Hu |- *; now split.
Qed.

Lemma handleCreateDevice_keeps_allocation_witness :
  let '(w', _, outcome) :=
    Fsm.handleCreateDevice
      (Runs.envWith (fun c => match c with
                              | Devicemapper.Mount _ _ => Errorf "busy"
                              | _ => nil
                              end))
      Runs.linux 0
      {| Fsm.reqS3Key := Runs.key; Fsm.reqS3Bucket := Runs.bucket |}
      (Some Fsm.emptyResponse) Runs.freshWorld in
  outcome
  = Fsm.Retry (Errorf "failed to mount device: failed to mount device: busy")
  /\ Db.device_sequence (Fsm.db w') = Some 2.
Proof.
  pose proof (handleCreateDevice_keeps_allocation
                (Runs.envWith (fun c => match c with
                                        | Devicemapper.Mount _ _ =>
                                            Errorf "busy"
                                        | _ => nil
                                        end))
                Runs.linux (Devicemapper.LinuxManager "pool") 0
                {| Fsm.reqS3Key := Runs.key;
                   Fsm.reqS3Bucket := Runs.bucket |}
                Fsm.emptyResponse Runs.freshWorld
                (Db.withSequence Runs.freshDb 2) 1
                eq_refl eq_refl eq_refl) as H.
  destruct (Fsm.handleCreateDevice _ _ _ _ _ _) as [[w' msg'] outcome] eqn:E.
  destruct H as [_ H]. split; [| exact H].
  vm_compute in E. now inversion E.
Defined.

(** X18. The complete handler takes an id from the sequence in one
    case only: a manager is there, the row has a device path, and it has
    no snapshot id yet. In every other case, and however the handler
    ends, the sequence is as it was; a row that has a snapshot id keeps
    using it. *)
Theorem handleComplete_sequence
        (env : Fsm.Env) (m : Fsm.Machine) (retryCount : Z)
        (req : Fsm.ImageRequest) (msg : option Fsm.ImageResponse)
        (w : Fsm.World) (img : Db.Image) :
  Db.GetByS3Key (Fsm.db w) (Fsm.reqS3Key req) = (Some img, nil) ->
  let '(w', _, _) := Fsm.handleComplete env m retryCount req msg w in
  Db.device_sequence (Fsm.db w')
  = if (retryCount <? Fsm.uint64 (Fsm.maxRetries m))
       && (match Fsm.dmManager m with Some _ => true | None => false end)
       && negb (Db.DevicePath img == "")
       && (Db.SnapshotID img =? 0)
    then Db.device_sequence
           (fst (fst (Db.AllocateNextDeviceID (Fsm.txFault env) (Fsm.db w))))
    else Db.device_sequence (Fsm.db w).
Proof.
  intros Hg. unfold Fsm.handleComplete.
  rewrite Z.geb_leb, Z.leb_antisym.
  destruct (retryCount <? _); simpl; [| reflexivity].
  rewrite Hg.
  destruct (Fsm.dmManager m) as [dm |]; simpl; [| now db_step].
  destruct (Db.DevicePath img == ""); simpl; [now db_step |].
  set (allocated := if Db.SnapshotID img =? 0 then _ else _).
  assert (Hal : Db.device_sequence (fst (fst allocated))
                = if Db.SnapshotID img =? 0
                  then Db.device_sequence
                         (fst (fst (Db.AllocateNextDeviceID
                                      (Fsm.txFault env) (Fsm.db w))))
                  else Db.device_sequence (Fsm.db w)).
  { subst allocated. now destruct (Db.SnapshotID img =? 0). }
  rewrite <- Hal. clear Hal.
  destruct allocated as [[d sid] [| e]]; simpl; [| now db_step].
  destruct (Devicemapper.CreateSnapshot _ _ _ _) as [cmds [info | err]].
  - db_step; [| assumption]. db_step; congruence.
  - destruct (Strings.Contains _ _); now db_step.
Qed.

Lemma handleComplete_sequence_witness :
  Db.device_sequence
    (Fsm.db (fst (fst (Fsm.handleComplete (Runs.envWith Runs.kernelOk)
                         Runs.linux 0
                         {| Fsm.reqS3Key := Runs.key;
                            Fsm.reqS3Bucket := Runs.bucket |}
                         (Some Fsm.emptyResponse) Runs.activatedWorld))))
  = Some 3.
Proof.
  pose proof (handleComplete_sequence (Runs.envWith Runs.kernelOk)
                Runs.linux 0
                {| Fsm.reqS3Key := Runs.key;
                   Fsm.reqS3Bucket := Runs.bucket |}
                (Some Fsm.emptyResponse) Runs.activatedWorld
                Runs.activatedRow activated_lookup) as H.
  destruct (Fsm.handleComplete _ _ _ _ _ _) as [[w' msg'] o].
  simpl fst. rewrite H. vm_compute. reflexivity.
Defined.

(** ** Device names *)

(** [%d] never prints a letter first: the text starts with a digit or
    with the sign. *)
Lemma itoa_head (n : Z) :
  exists c rest,
    itoa n = String c rest
    /\ In c ["0"; "1"; "2"; "3"; "4"; "5"; "6"; "7"; "8"; "9"; "-"]%char.
Proof.
  unfold itoa.
  assert (U : forall u, u <> Decimal.Nil ->
    exists c rest,
      NilEmpty.string_of_uint u = String c rest
      /\ In c ["0"; "1"; "2"; "3"; "4"; "5"; "6"; "7"; "8"; "9"]%char).
  { intros [| u | u | u | u | u | u | u | u | u | u] Hu;
      [now destruct Hu | ..]; simpl; eexists _, _;
      (split; [reflexivity |]); simpl; tauto. }
  destruct n as [| p | p]; simpl.
  - eexists _, _. split; [reflexivity |]. simpl. tauto.
  - destruct (U (Pos.to_uint p) (DecimalPos.Unsigned.to_uint_nonnil p))
      as (c & rest & E & Hc).
    unfold NilZero.string_of_uint.
    destruct (Pos.to_uint p) eqn:Hp;
      [now destruct (DecimalPos.Unsigned.to_uint_nonnil p) | ..];
      simpl in E |- *; eexists _, _; (split; [reflexivity |]);
      simpl; tauto.
  - eexists _, _. split; [reflexivity |]. simpl. tauto.
Qed.

Lemma itoa_not_snapshot (n : Z) (s : string) :
  "flyio-" ++ itoa n <> "flyio-snapshot-" ++ s.
Proof.
  destruct (itoa_head n) as (c & rest & E & Hc). rewrite E. simpl.
  intros H. inversion H; subst. simpl in Hc.
  repeat (destruct Hc as [Hc | Hc]; [discriminate |]). exact Hc.
Qed.

Lemma DeleteDevice_log (run : Devicemapper.Cmd -> error)
      (dm : Devicemapper.Manager) (deviceID : string) :
  Forall (fun c => c = Devicemapper.DmsetupRemove ("flyio-" ++ deviceID))
         (fst (Devicemapper.DeleteDevice run dm deviceID)).
Proof.
  destruct dm as [pool | goos]; simpl; [| constructor].
  unfold Devicemapper.ran. destruct (isNil _); repeat constructor.
Qed.

Lemma CreateSnapshot_node (run : Devicemapper.Cmd -> error)
      (dm : Devicemapper.Manager) (base : string) (sid : Z)
      (name table : string) :
  In (Devicemapper.DmsetupCreate name table)
     (fst (Devicemapper.CreateSnapshot run dm base sid)) ->
  name = "flyio-snapshot-" ++ itoa sid.
Proof.
  destruct dm as [pool | goos]; simpl; [| tauto].
  unfold Devicemapper.ran.
  repeat match goal with
         | |- context [match run ?c with nil => _ | Errorf _ => _ end] =>
             destruct (run c)
         end;
    destruct (isNil _); simpl; intros H;
    repeat (destruct H as [H | H]; [try discriminate |]);
    try tauto; now inversion H.
Qed.

(** X19. What cleanup asks of the kernel. The only commands
    cleanupImageResources issues are removals of the node named after
    the number, [flyio-N], for the row's snapshot id and base device id.
    The node that CreateSnapshot activates is named [flyio-snapshot-N]:
    cleanup looks for it but never asks for its removal. *)
Theorem cleanupImageResources_spares_snapshot_node
        (env : Fsm.Env) (dm : option Devicemapper.Manager)
        (WorkDir : string) (img : Db.Image) (w : Fsm.World) :
  let '(w', _, _) := Cleanup.cleanupImageResources env dm WorkDir img w in
  exists cmds,
    Fsm.kernelLog w' = (Fsm.kernelLog w ++ cmds)%list
    /\ Forall (fun c =>
                 c = Devicemapper.DmsetupRemove
                       ("flyio-" ++ itoa (Db.SnapshotID img))
                 \/ c = Devicemapper.DmsetupRemove
                          ("flyio-" ++ itoa (Db.BaseDeviceID img))) cmds
    /\ forall run manager base sid name table,
         In (Devicemapper.DmsetupCreate name table)
            (fst (Devicemapper.CreateSnapshot run manager base sid)) ->
         ~ In (Devicemapper.DmsetupRemove name) cmds.
Proof.
  set (Q := fun c =>
              c = Devicemapper.DmsetupRemove
                    ("flyio-" ++ itoa (Db.SnapshotID img))
              \/ c = Devicemapper.DmsetupRemove
                       ("flyio-" ++ itoa (Db.BaseDeviceID img))).
  assert (Hend : forall w',
    (exists cmds, Fsm.kernelLog w' = (Fsm.kernelLog w ++ cmds)%list
                  /\ Forall Q cmds) ->
    exists cmds,
      Fsm.kernelLog w' = (Fsm.kernelLog w ++ cmds)%list
      /\ Forall Q cmds
      /\ forall run manager base sid name table,
           In (Devicemapper.DmsetupCreate name table)
              (fst (Devicemapper.CreateSnapshot run manager base sid)) ->
           ~ In (Devicemapper.DmsetupRemove name) cmds).
  { intros w' (cmds & Hk & HQ). exists cmds. repeat split; trivial.
    intros run manager base sid name table Hin Hrem.
    apply CreateSnapshot_node in Hin. subst name.
    rewrite Forall_forall in HQ.
    destruct (HQ _ Hrem) as [H | H];
      pose proof (f_equal (fun c => match c with
                                    | Devicemapper.DmsetupRemove n => n
                                    | _ => ""
                                    end) H) as H';
      cbv beta iota in H'; symmetry in H';
      exact (itoa_not_snapshot _ _ H'). }
  unfold Cleanup.cleanupImageResources.
  set (step1 := match dm with Some _ => _ | None => _ end).
  assert (H1 : (exists cmds,
                   Fsm.kernelLog (fst step1)
                   = (Fsm.kernelLog w ++ cmds)%list /\ Forall Q cmds)
               /\ Db.BaseDeviceID (snd step1) = Db.BaseDeviceID img).
  { subst step1. destruct dm as [manager |].
    2:{ split; [exists []; now rewrite app_nil_r | reflexivity]. }
    destruct (negb _).
    2:{ split; [exists []; now rewrite app_nil_r | reflexivity]. }
    split; [| reflexivity].
    destruct (Cleanup.exists_ env _); simpl.
    - eexists. split; [reflexivity |].
      eapply Forall_impl; [| apply DeleteDevice_log].
      intros c ->. now left.
    - exists []. now rewrite app_nil_r. }
  destruct step1 as [w1 img1]. simpl in H1.
  destruct H1 as [(cmds1 & K1 & Q1) B1].
  set (step2 := match dm with Some _ => _ | None => _ end).
  assert (H2 : exists cmds,
                 Fsm.kernelLog (fst step2)
                 = (Fsm.kernelLog w ++ cmds)%list /\ Forall Q cmds).
  { subst step2. destruct dm as [manager |]; [| now exists cmds1].
    destruct (_ >? 0); [| now exists cmds1].
    destruct (Cleanup.exists_ env _); simpl; [| now exists cmds1].
    eexists. rewrite K1, <- app_assoc. split; [reflexivity |].
    apply Forall_app. split; [exact Q1 |].
    eapply Forall_impl; [| apply DeleteDevice_log].
    intros c ->. right. now rewrite B1. }
  destruct step2 as [w2 img2]. simpl in H2.
  destruct (Cleanup.exists_ env _);
    [destruct (OS.removeAll _ _); [| now apply Hend] |];
    (destruct (Cleanup.exists_ env _);
     [destruct (OS.remove _ _); [| now apply Hend] |]);
    destruct (Db.Update _ _) as [d [| e]]; now apply Hend.
Qed.

(** ** Where the handlers write and where cleanup looks *)

Lemma append_assoc (a b c : string) : (a ++ b) ++ c = a ++ b ++ c.
Proof. induction a as [| x a IH]; simpl; [reflexivity | now rewrite IH]. Qed.

(** Cleaning [dir/x] goes on, on the pieces of [x], from where cleaning
    [dir] ended. *)
Lemma cleanState_under (dir x : string) :
  dir <> "" ->
  cleanState (dir ++ String "/" x)
  = Filepath.cleanLoop (Filepath.IsAbs dir) (fst (cleanState dir))
      (snd (cleanState dir)) (Strings.Split x "/").
Proof.
  intros Hd. unfold cleanState at 1.
  rewrite (IsAbs_app dir _ Hd). unfold Filepath.Separator.
  rewrite Split_app_separator, cleanLoop_app.
  change (Filepath.cleanLoop (Filepath.IsAbs dir) 0 []
            (Strings.Split dir "/")) with (cleanState dir).
  now destruct (cleanState dir).
Qed.

Lemma cleanElems_length (path : string) :
  List.length (Filepath.cleanElems path)
  = (fst (cleanState path) + List.length (snd (cleanState path)))%nat.
Proof.
  rewrite cleanElems_state, length_app, repeat_length, length_rev.
  reflexivity.
Qed.

(** One more piece makes the cleaned path at most one element longer. *)
Lemma cleanElems_under_piece (dir x : string) :
  dir <> "" -> Filepath.hasSeparator x = false ->
  (List.length (Filepath.cleanElems (dir ++ String "/" x))
   <= List.length (Filepath.cleanElems dir) + 1)%nat.
Proof.
  intros Hd Hx. rewrite !cleanElems_length, (cleanState_under dir x Hd).
  rewrite (Split_single x Hx).
  destruct (cleanState dir) as [dotdot out]. simpl fst. simpl snd.
  simpl Filepath.cleanLoop.
  destruct ((x == "") || (x == ".")); [simpl; lia |].
  destruct (x == "..").
  - destruct out as [| o below]; [| simpl; lia].
    destruct (Filepath.IsAbs dir); simpl; lia.
  - simpl; lia.
Qed.

(** A name that passes the path check adds exactly its own elements. *)
Lemma cleanElems_under_validated (dir name : string) :
  dir <> "" -> Security.ValidatePath name = nil ->
  Filepath.cleanElems (dir ++ String "/" name)
  = (Filepath.cleanElems dir ++ Filepath.cleanElems name)%list.
Proof.
  intros Hd Hv.
  destruct (cleanElems_validated name Hv) as [Hst _].
  destruct (ValidatePath_state name Hv) as [Hrel _].
  rewrite (cleanElems_state (dir ++ String "/" name)).
  rewrite (cleanState_under dir name Hd).
  unfold cleanState in Hst. rewrite Hrel in Hst.
  unfold Filepath.Separator in Hst.
  pose proof (cleanLoop_within _ [] _ Hst (Filepath.IsAbs dir)
                (fst (cleanState dir)) (snd (cleanState dir))) as Hw.
  simpl app in Hw at 1. rewrite Hw. simpl fst. simpl snd.
  rewrite rev_app_distr, rev_involutive, app_assoc.
  now rewrite (cleanElems_state dir).
Qed.

Lemma lastNonEmpty_piece (elems : list string) :
  forall found e,
    Forall (fun x => Filepath.hasSeparator x = false) elems ->
    (forall x, found = Some x -> Filepath.hasSeparator x = false) ->
    Filepath.lastNonEmpty elems found = Some e ->
    Filepath.hasSeparator e = false.
Proof.
  induction elems as [| a rest IH]; intros found e Hall Hf H; simpl in H.
  - now apply Hf.
  - inversion Hall as [| ? ? Ha Hrest]; subst.
    apply (IH _ _ Hrest) in H; [exact H |].
    intros x Hx. destruct (a == ""); [now apply Hf |].
    now inversion Hx; subst.
Qed.

(** Base of a path that is not made of separators only is one piece. *)
Lemma Base_piece (path : string) :
  Filepath.IsAbs path = false ->
  Filepath.hasSeparator (Filepath.Base path) = false.
Proof.
  intros Hrel. unfold Filepath.Base.
  destruct (path == "") eqn:E; [reflexivity |].
  destruct (Filepath.lastNonEmpty _ None) as [e |] eqn:Hl.
  - apply (lastNonEmpty_piece _ _ _ (Split_no_separator path)) in Hl;
      [exact Hl | discriminate].
  - exfalso. apply String.eqb_neq in E.
    destruct path as [| c rest]; [now destruct E |].
    destruct (ascii_dec c "/") as [-> | Hc];
      [pose proof (IsAbs_rooted rest) as Hr;
       unfold Filepath.Separator in Hr; congruence |].
    apply Ascii.eqb_neq in Hc.
    unfold Filepath.Separator in Hl. simpl in Hl. rewrite Hc in Hl.
    assert (Hsome : forall l f, f <> None ->
                               Filepath.lastNonEmpty l f <> None).
    { induction l as [| a l IH]; intros f Hf; simpl; [exact Hf |].
      apply IH. now destruct (a == ""). }
    destruct (Strings.Split rest "/") as [| piece pieces];
      simpl in Hl; [discriminate |].
    revert Hl. apply Hsome. discriminate.
Qed.

Lemma Join3 (a b c : string) :
  a <> "" ->
  Filepath.Join [a; b; c] = Filepath.Clean ((a ++ String "/" b) ++ String "/" c).
Proof.
  intros Ha. apply String.eqb_neq in Ha. simpl Filepath.Join. rewrite Ha.
  f_equal. change (Strings.Join [a; b; c] "/")
    with (a ++ String "/" (b ++ String "/" c)).
  now rewrite (append_assoc a (String "/" b) (String "/" c)).
Qed.

Lemma Join2 (a b : string) :
  a <> "" ->
  Filepath.Join [a; b] = Filepath.Clean (a ++ String "/" b).
Proof.
  intros Ha. apply String.eqb_neq in Ha. simpl Filepath.Join.
  now rewrite Ha.
Qed.

(** The two ways a path under the work directory is built from a key:
    with the key's last element (the handlers) and with the whole key
    (cleanup). *)
Lemma key_paths_differ (workDir sub key : string) :
  workDir <> "" ->
  Security.ValidatePath key = nil ->
  (2 <= List.length (Filepath.cleanElems key))%nat ->
  Filepath.Join [workDir; sub; Filepath.Base key]
  <> Filepath.Join [workDir; sub; key]
  /\ Filepath.Join [Filepath.Join [workDir; sub]; Filepath.Base key]
     <> Filepath.Join [workDir; sub; key].
Proof.
  intros Hw Hv Hlen.
  destruct (ValidatePath_state key Hv) as [Hrel _].
  pose proof (Base_piece key Hrel) as Hb.
  assert (Hd : workDir ++ String "/" sub <> "")
    by (destruct workDir; [now destruct Hw | discriminate]).
  assert (Hwhole :
    List.length (Filepath.cleanElems (Filepath.Join [workDir; sub; key]))
    = (List.length (Filepath.cleanElems (workDir ++ String "/" sub))
       + List.length (Filepath.cleanElems key))%nat).
  { rewrite (Join3 _ _ _ Hw), cleanElems_Clean.
    now rewrite (cleanElems_under_validated _ _ Hd Hv), length_app. }
  split; intros Heq;
    apply (f_equal (fun p => List.length (Filepath.cleanElems p))) in Heq;
    rewrite Hwhole in Heq.
  - rewrite (Join3 _ _ _ Hw), cleanElems_Clean in Heq.
    pose proof (cleanElems_under_piece _ _ Hd Hb). lia.
  - rewrite (Join2 _ _ Hw) in Heq.
    rewrite (Join2 _ _ (Clean_nonempty _)), cleanElems_Clean in Heq.
    pose proof (cleanElems_under_piece _ _
                  (Clean_nonempty (workDir ++ String "/" sub)) Hb) as Hp.
    rewrite cleanElems_Clean in Hp. lia.
Qed.

Lemma handleDownload_path
      (env : Fsm.Env) (m : Fsm.Machine) (retryCount : Z)
      (req : Fsm.ImageRequest) (msg : option Fsm.ImageResponse)
      (w w1 : Fsm.World) (resp1 : Fsm.ImageResponse) :
  Fsm.handleDownload env m retryCount req msg w
  = (w1, Some resp1, Fsm.Advance) ->
  Fsm.DownloadPath resp1
  = Filepath.Join [Filepath.Join [Fsm.workDir m; "downloads"];
                   Filepath.Base (Fsm.reqS3Key req)].
Proof.
  unfold Fsm.handleDownload.
  destruct (retryCount >=? _); [discriminate |].
  destruct msg as [resp |]; [| discriminate].
  destruct (Db.UpdateStatus _ _ _ _) as [d [| e]]; [| discriminate].
  destruct (OS.mkdirAll _ _); [| discriminate].
  destruct (Fsm.download env _ _) as [[| e] [sha size]]; [| discriminate].
  destruct (fst (Db.GetByS3Key _ _)).
  - destruct (Db.Update _ _) as [d' [| e']]; [| discriminate].
    intros H; now inversion H.
  - intros H; now inversion H.
Qed.

Lemma handleValidate_path
      (env : Fsm.Env) (m : Fsm.Machine) (retryCount : Z)
      (req : Fsm.ImageRequest) (resp1 resp2 : Fsm.ImageResponse)
      (w w2 : Fsm.World) :
  Fsm.handleValidate env m retryCount req (Some resp1) w
  = (w2, Some resp2, Fsm.Advance) ->
  Fsm.DownloadPath resp2 = Fsm.DownloadPath resp1
  /\ Fsm.ExtractedPath resp2
     = Filepath.Join [Fsm.workDir m; "extracted";
                      Filepath.Base (Fsm.reqS3Key req)].
Proof.
  unfold Fsm.handleValidate.
  destruct (retryCount >=? _); [discriminate |].
  destruct (Security.ValidateFileSize _ _).
  2:{ destruct (Db.UpdateStatus _ _ _ _); discriminate. }
  destruct (OS.removeAll _ _); [| discriminate].
  destruct (OS.mkdirAll _ _); [| discriminate].
  destruct (Extractor.ExtractTarball _ _ _ _ _) as [[v ops] [| e]].
  - intros H; now inversion H.
  - destruct (Db.UpdateStatus _ _ _ _); discriminate.
Qed.

(** X20. Where the handlers write and where cleanup looks. The download
    and validate handlers name the tarball and the extracted tree after
    the last element of the key; cleanupImageResources looks under the
    whole key. For a key with a directory part, such as
    [images/golang/2.tar], the two never meet: neither path the run
    reports is a path cleanup checks and removes. *)
Theorem cleanup_looks_elsewhere
        (env : Fsm.Env) (m : Fsm.Machine) (retryCount retryCount' : Z)
        (req : Fsm.ImageRequest) (msg : option Fsm.ImageResponse)
        (resp1 resp2 : Fsm.ImageResponse) (w w1 w2 : Fsm.World) :
  Fsm.workDir m <> "" ->
  Security.ValidatePath (Fsm.reqS3Key req) = nil ->
  (2 <= List.length (Filepath.cleanElems (Fsm.reqS3Key req)))%nat ->
  Fsm.handleDownload env m retryCount req msg w
  = (w1, Some resp1, Fsm.Advance) ->
  Fsm.handleValidate env m retryCount' req (Some resp1) w1
  = (w2, Some resp2, Fsm.Advance) ->
  Fsm.DownloadPath resp2
  <> Filepath.Join [Fsm.workDir m; "downloads"; Fsm.reqS3Key req]
  /\ Fsm.ExtractedPath resp2
     <> Filepath.Join [Fsm.workDir m; "extracted"; Fsm.reqS3Key req].
Proof.
  intros Hw Hv Hlen Hd Hx.
  apply handleDownload_path in Hd.
  apply handleValidate_path in Hx as [Hx1 Hx2].
  rewrite Hx1, Hd, Hx2.
  split.
  - exact (proj2 (key_paths_differ _ "downloads" _ Hw Hv Hlen)).
  - exact (proj1 (key_paths_differ _ "extracted" _ Hw Hv Hlen)).
Qed.

Lemma cleanup_looks_elsewhere_witness :
  exists w1 resp1 w2 resp2,
    Fsm.handleDownload (Runs.envWith Runs.kernelOk) Runs.linux 0
      {| Fsm.reqS3Key := Runs.key; Fsm.reqS3Bucket := Runs.bucket |}
      (Some Fsm.emptyResponse) Runs.freshWorld
    = (w1, Some resp1, Fsm.Advance)
    /\ Fsm.handleValidate (Runs.envWith Runs.kernelOk) Runs.linux 0
         {| Fsm.reqS3Key := Runs.key; Fsm.reqS3Bucket := Runs.bucket |}
         (Some resp1) w1
       = (w2, Some resp2, Fsm.Advance)
    /\ Fsm.ExtractedPath resp2 = "/var/lib/flyio-machine/extracted/2.tar"
    /\ Fsm.ExtractedPath resp2
       <> Filepath.Join ["/var/lib/flyio-machine"; "extracted"; Runs.key].
Proof.
  eassert (E1 : Fsm.handleDownload (Runs.envWith Runs.kernelOk) Runs.linux 0
                  {| Fsm.reqS3Key := Runs.key;
                     Fsm.reqS3Bucket := Runs.bucket |}
                  (Some Fsm.emptyResponse) Runs.freshWorld
                = (_, Some _, Fsm.Advance))
    by (vm_compute; reflexivity).
  match type of E1 with
  | _ = (?w1, Some ?resp1, _) =>
      eassert (E2 : Fsm.handleValidate (Runs.envWith Runs.kernelOk)
                      Runs.linux 0
                      {| Fsm.reqS3Key := Runs.key;
                         Fsm.reqS3Bucket := Runs.bucket |}
                      (Some resp1) w1
                    = (_, Some _, Fsm.Advance))
        by (vm_compute; reflexivity)
  end.
  eexists _, _, _, _.
  split; [exact E1 |]. split; [exact E2 |]. split; [reflexivity |].
  exact (proj2 (cleanup_looks_elsewhere
                  (Runs.envWith Runs.kernelOk) Runs.linux 0 0
                  {| Fsm.reqS3Key := Runs.key;
                     Fsm.reqS3Bucket := Runs.bucket |}
                  (Some Fsm.emptyResponse) _ _ _ _ _
                  ltac:(intros H; vm_compute in H; discriminate H)
                  ltac:(vm_compute; reflexivity) ltac:(vm_compute; lia)
                  E1 E2)).
Defined.

(** One step through a handler's body: a call into the repository keeps
    the invariant, anything else is a case distinction. *)
Ltac wf_db :=
  cbn [Fsm.db Fsm.setDb Fsm.addFs Fsm.addKernel Fsm.addFetch
       Fsm.setValidator fst snd] in *.

Ltac wf_step :=
  match goal with
  | |- context [Db.UpdateStatus ?d ?i ?s ?t] =>
      let H := fresh "Hwf" in
      assert (H : Repository.wellFormed (fst (Db.UpdateStatus d i s t)))
        by (apply UpdateStatus_wellFormed; assumption);
      destruct (Db.UpdateStatus d i s t) as [? [| ?]]; wf_db
  | |- context [Db.Update ?d ?i] =>
      let H := fresh "Hwf" in
      assert (H : Repository.wellFormed (fst (Db.Update d i)))
        by (apply Update_wellFormed; assumption);
      destruct (Db.Update d i) as [? [| ?]]; wf_db
  | |- context [Db.Create ?d ?i] =>
      let H := fresh "Hwf" in
      assert (H : Repository.wellFormed (fst (fst (Db.Create d i))))
        by (apply Create_wellFormed; assumption);
      destruct (Db.Create d i) as [[? ?] [| ?]]; wf_db
  | |- context [Db.AllocateNextDeviceID ?f ?d] =>
      let H := fresh "Hwf" in
      assert (H : Repository.wellFormed
                    (fst (fst (Db.AllocateNextDeviceID f d))))
        by (apply AllocateNextDeviceID_wellFormed; assumption);
      destruct (Db.AllocateNextDeviceID f d) as [[? ?] [| ?]]; wf_db
  | |- context [match ?x with _ => _ end] =>
      lazymatch x with
      | context [match _ with _ => _ end] => fail
      | _ => destruct x; wf_db
      end
  end.

(** X21. The handlers keep the registry as the schema wants it. Each of
    the five registered handlers, run at any attempt count on any
    request and world, and ending any way it can, leaves a registry in
    which keys and ids are unique, ids are below the AUTOINCREMENT
    counter and statuses are in the CHECK list, if it found one. *)
Theorem handlers_keep_wellFormed
        (env : Fsm.Env) (m : Fsm.Machine) (state : string)
        (h : Fsm.Handler) :
  In (state, h) (Fsm.Register env m) ->
  forall retryCount req msg w,
    Repository.wellFormed (Fsm.db w) ->
    Repository.wellFormed (Fsm.db (fst (fst (h retryCount req msg w)))).
Proof.
  intros Hin retryCount req msg w Hwf.
  unfold Fsm.Register in Hin. cbn [In] in Hin.
  destruct Hin as [H | [H | [H | [H | [H | []]]]]];
    apply (f_equal snd) in H; cbn [snd] in H; subst h.
  - unfold Fsm.handleCheckDB. repeat wf_step; assumption.
  - unfold Fsm.handleDownload. repeat wf_step; assumption.
  - unfold Fsm.handleValidate. repeat wf_step; assumption.
  - unfold Fsm.handleCreateDevice. repeat wf_step; assumption.
  - unfold Fsm.handleComplete. repeat wf_step; assumption.
Qed.

Lemma handlers_keep_wellFormed_witness :
  Repository.wellFormed
    (Fsm.db (fst (fst (Fsm.handleComplete (Runs.envWith Runs.kernelOk)
                         Runs.linux 0
                         {| Fsm.reqS3Key := Runs.key;
                            Fsm.reqS3Bucket := Runs.bucket |}
                         (Some Fsm.emptyResponse) Runs.activatedWorld)))).
Proof.
  apply (handlers_keep_wellFormed (Runs.envWith Runs.kernelOk) Runs.linux
           Fsm.StateComplete).
  - unfold Fsm.Register. cbn [In]. tauto.
  - exact wellFormed_activated.
Defined.

(** Once a directory is removed with all below it, what was there before
    does not matter for the names under it. *)
Lemma existsAfter_RemoveAll (log1 log2 : list OS.Op) (dir path : string) :
  OS.under dir path = true ->
  OS.existsAfter (log1 ++ OS.RemoveAll dir :: log2) path
  = OS.existsAfter log2 path.
Proof.
  intros H. rewrite existsAfter_app.
  cbn [fold_left OS.replayOp]. rewrite H, Bool.andb_false_r.
  reflexivity.
Qed.

(** X22. The validate handler extracts into an emptied directory. When
    it advances, what it asked of the filesystem is: remove the extract
    directory with all below it, make it again, then the calls of the
    extraction, in this order and nothing else. So whether a name under
    the extract directory exists afterwards is decided by this run
    alone, whatever earlier runs left there. *)
Theorem handleValidate_extracts_into_emptied_dir
        (env : Fsm.Env) (m : Fsm.Machine) (retryCount : Z)
        (req : Fsm.ImageRequest) (resp : Fsm.ImageResponse)
        (w w' : Fsm.World) (msg' : option Fsm.ImageResponse) :
  Fsm.handleValidate env m retryCount req (Some resp) w
  = (w', msg', Fsm.Advance) ->
  let extractDir :=
    Filepath.Join [Fsm.workDir m; "extracted";
                   Filepath.Base (Fsm.reqS3Key req)] in
  let ops :=
    snd (fst (Extractor.ExtractTarball (Fsm.host env) (Fsm.tarAt env)
                (Fsm.DownloadPath resp) extractDir (Fsm.validator w))) in
  Fsm.fsLog w'
  = (Fsm.fsLog w
     ++ OS.RemoveAll extractDir :: OS.MkdirAll extractDir 493 :: ops)%list
  /\ forall path,
       OS.under extractDir path = true ->
       OS.existsAfter (Fsm.fsLog w') path
       = OS.existsAfter (OS.MkdirAll extractDir 493 :: ops) path.
Proof.
  intros H extractDir ops.
  assert (Hlog : Fsm.fsLog w'
                 = (Fsm.fsLog w
                    ++ OS.RemoveAll extractDir
                    :: OS.MkdirAll extractDir 493 :: ops)%list).
  { subst ops. unfold Fsm.handleValidate in H. fold extractDir in H.
    destruct (retryCount >=? _); [discriminate |].
    destruct (Security.ValidateFileSize _ _).
    2:{ destruct (Db.UpdateStatus _ _ _ _); discriminate. }
    destruct (OS.removeAll _ _); [| discriminate].
    destruct (OS.mkdirAll _ _); [| discriminate].
    cbn [Fsm.validator Fsm.addFs] in H.
    destruct (Extractor.ExtractTarball _ _ _ _ _) as [[v l] [| e]].
    - inversion H; subst; clear H. simpl.
      now rewrite <- !app_assoc.
    - destruct (Db.UpdateStatus _ _ _ _); discriminate. }
  split; [exact Hlog |].
  intros path Hunder. rewrite Hlog.
  now apply existsAfter_RemoveAll.
Qed.

Lemma handleValidate_extracts_into_emptied_dir_witness :
  exists w' msg',
    Fsm.handleValidate (Runs.envWith Runs.kernelOk) Runs.linux 0
      {| Fsm.reqS3Key := Runs.key; Fsm.reqS3Bucket := Runs.bucket |}
      (Some Fsm.emptyResponse)
      (Fsm.addFs Runs.freshWorld
         [OS.OpenFile "/var/lib/flyio-machine/extracted/2.tar/stale" 420])
    = (w', msg', Fsm.Advance)
    /\ OS.existsAfter (Fsm.fsLog w')
         "/var/lib/flyio-machine/extracted/2.tar/stale" = false
    /\ OS.existsAfter (Fsm.fsLog w')
         "/var/lib/flyio-machine/extracted/2.tar/bin/hello" = true.
Proof.
  eassert (E : Fsm.handleValidate (Runs.envWith Runs.kernelOk) Runs.linux 0
                 {| Fsm.reqS3Key := Runs.key;
                    Fsm.reqS3Bucket := Runs.bucket |}
                 (Some Fsm.emptyResponse)
                 (Fsm.addFs Runs.freshWorld
                    [OS.OpenFile
                       "/var/lib/flyio-machine/extracted/2.tar/stale" 420])
               = (_, _, Fsm.Advance))
    by (vm_compute; reflexivity).
  eexists _, _. split; [exact E |].
  destruct (handleValidate_extracts_into_emptied_dir _ _ _ _ _ _ _ _ E)
    as [_ H].
  split; rewrite H by (vm_compute; reflexivity); vm_compute; reflexivity.
Defined.

(** ** Retries *)

Lemma UpdateStatus_found
      (d : Db.Database) (key status msg : string) (img : Db.Image) :
  Db.GetByS3Key d key = (Some img, nil) ->
  Db.statusCheck status = true ->
  exists d',
    Db.UpdateStatus d (Db.ID img) status msg = (d', nil)
    /\ Db.GetByS3Key d' key
       = (Some (Db.setStatus (Db.ID img) status msg img), nil).
Proof.
  intros Hg Hs. unfold Db.GetByS3Key in Hg.
  destruct (Db.online d) eqn:Ho; simpl in Hg; [| discriminate].
  assert (Hf : Db.findKey (Db.images d) key = Some img)
    by now inversion Hg.
  destruct (findKey_In _ _ _ Hf) as [Hin Hkey].
  destruct (In_findID _ _ Hin) as [r Hr].
  unfold Db.UpdateStatus. rewrite Ho, Hr, Hs. simpl.
  eexists. split; [reflexivity |].
  unfold Db.GetByS3Key. simpl. rewrite Ho. simpl.
  rewrite findKey_map by apply setStatus_key. now rewrite Hf.
Qed.

Lemma handleDownload_fails
      (env : Fsm.Env) (m : Fsm.Machine) (retryCount : Z)
      (req : Fsm.ImageRequest) (resp : Fsm.ImageResponse) (w : Fsm.World)
      (img : Db.Image) :
  retryCount < Fsm.uint64 (Fsm.maxRetries m) ->
  (forall localPath,
      fst (Fsm.download env (Fsm.reqS3Key req) localPath) <> nil) ->
  OS.mkdirAll (Fsm.host env) (Filepath.Join [Fsm.workDir m; "downloads"])
  = nil ->
  Db.GetByS3Key (Fsm.db w) (Fsm.reqS3Key req) = (Some img, nil) ->
  Db.ID img = Fsm.ImageID resp ->
  exists w' e,
    Fsm.handleDownload env m retryCount req (Some resp) w
    = (w', Some resp, Fsm.Retry e)
    /\ Db.GetByS3Key (Fsm.db w') (Fsm.reqS3Key req)
       = (Some (Db.setStatus (Db.ID img) Db.StatusDownloading "" img), nil)
    /\ Fsm.fetches w' = (Fsm.fetches w ++ [Fsm.reqS3Key req])%list.
Proof.
  intros Hr Hdl Hmk Hg Hid. unfold Fsm.handleDownload.
  rewrite (retry_within_budget m retryCount Hr).
  destruct (UpdateStatus_found _ _ Db.StatusDownloading "" _ Hg eq_refl)
    as (d' & Hu & Hg').
  rewrite <- Hid, Hu, Hmk.
  match goal with
  | |- context [Fsm.download env ?k ?p] =>
      specialize (Hdl p); destruct (Fsm.download env k p) as [[| e] [sha n]]
  end; [now destruct Hdl |].
  eexists _, _. split; [reflexivity |]. split; [exact Hg' | reflexivity].
Qed.

Lemma download_retries (env : Fsm.Env) (m : Fsm.Machine)
      (req : Fsm.ImageRequest) (resp : Fsm.ImageResponse) :
  (forall localPath,
      fst (Fsm.download env (Fsm.reqS3Key req) localPath) <> nil) ->
  OS.mkdirAll (Fsm.host env) (Filepath.Join [Fsm.workDir m; "downloads"])
  = nil ->
  forall (fuel : nat) (retryCount : Z) (w : Fsm.World) (img : Db.Image),
    retryCount + Z.of_nat fuel = Fsm.uint64 (Fsm.maxRetries m) ->
    Db.GetByS3Key (Fsm.db w) (Fsm.reqS3Key req) = (Some img, nil) ->
    Db.ID img = Fsm.ImageID resp ->
    exists w' img',
      Fsm.runTransition fuel (Fsm.handleDownload env m) retryCount req
        (Some resp) w
      = (w', Some resp, Fsm.Abort (Fsm.errMaxRetries m))
      /\ Db.GetByS3Key (Fsm.db w') (Fsm.reqS3Key req) = (Some img', nil)
      /\ Db.ID img' = Db.ID img
      /\ (fuel = 0%nat -> img' = img)
      /\ (fuel <> 0%nat -> Db.Status img' = Db.StatusDownloading)
      /\ Fsm.fetches w'
         = (Fsm.fetches w ++ repeat (Fsm.reqS3Key req) fuel)%list.
Proof.
  intros Hdl Hmk fuel.
  induction fuel as [| fuel IH]; intros retryCount w img Hsum Hg Hid.
  - exists w, img. simpl Fsm.runTransition.
    unfold Fsm.handleDownload.
    assert (Hge : (retryCount >=? Fsm.uint64 (Fsm.maxRetries m)) = true).
    { rewrite Z.geb_leb. apply Z.leb_le. lia. }
    rewrite Hge. simpl. rewrite app_nil_r. repeat split; tauto.
  - destruct (handleDownload_fails env m retryCount req resp w img
                ltac:(lia) Hdl Hmk Hg Hid) as (w1 & e & Hh & Hg1 & Hf1).
    simpl Fsm.runTransition. rewrite Hh.
    assert (Hid1 : Db.ID (Db.setStatus (Db.ID img) Db.StatusDownloading ""
                            img) = Fsm.ImageID resp)
      by now rewrite setStatus_id.
    destruct (IH (retryCount + 1) w1 _ ltac:(lia) Hg1 Hid1)
      as (w' & img' & Hrun & Hg' & Hid' & Hzero & Hpos & Hf').
    exists w', img'. split; [exact Hrun |]. split; [exact Hg' |].
    split; [now rewrite Hid', setStatus_id |].
    split; [discriminate |]. split.
    + intros _. destruct fuel as [| fuel'].
      * rewrite (Hzero eq_refl). unfold Db.setStatus.
        now rewrite Z.eqb_refl.
      * now apply Hpos.
    + rewrite Hf', Hf1, <- app_assoc. reflexivity.
Qed.

(** X23. A download that keeps failing. With the object store refusing
    the key, every attempt of the download transition sets the row to
    [downloading], asks the store again and returns an error; when the
    attempts reach the retry budget the handler aborts without touching
    the row. The run has then fetched once per attempt, and the row is
    left [downloading], not [failed]. *)
Theorem download_retries_leave_downloading
        (env : Fsm.Env) (m : Fsm.Machine) (req : Fsm.ImageRequest)
        (resp : Fsm.ImageResponse) (w : Fsm.World) (img : Db.Image) :
  (forall localPath,
      fst (Fsm.download env (Fsm.reqS3Key req) localPath) <> nil) ->
  OS.mkdirAll (Fsm.host env) (Filepath.Join [Fsm.workDir m; "downloads"])
  = nil ->
  Db.GetByS3Key (Fsm.db w) (Fsm.reqS3Key req) = (Some img, nil) ->
  Db.ID img = Fsm.ImageID resp ->
  0 < Fsm.uint64 (Fsm.maxRetries m) ->
  let attempts := Z.to_nat (Fsm.uint64 (Fsm.maxRetries m)) in
  let '(w', msg', outcome) :=
    Fsm.runTransition attempts (Fsm.handleDownload env m) 0 req
      (Some resp) w in
  outcome = Fsm.Abort (Fsm.errMaxRetries m)
  /\ (exists img',
         Db.GetByS3Key (Fsm.db w') (Fsm.reqS3Key req) = (Some img', nil)
         /\ Db.ID img' = Db.ID img
         /\ Db.Status img' = Db.StatusDownloading)
  /\ Fsm.fetches w'
     = (Fsm.fetches w ++ repeat (Fsm.reqS3Key req) attempts)%list.
Proof.
  intros Hdl Hmk Hg Hid Hpos attempts.
  destruct (download_retries env m req resp Hdl Hmk attempts 0 w img
              ltac:(subst attempts; lia) Hg Hid)
    as (w' & img' & Hrun & Hg' & Hid' & _ & Hst & Hf).
  rewrite Hrun. split; [reflexivity |]. split; [| exact Hf].
  exists img'. split; [exact Hg' |]. split; [exact Hid' |].
  apply Hst. subst attempts. lia.
Qed.

Lemma download_retries_leave_downloading_witness :
  let env :=
    {| Fsm.host := Examples.okHost;
       Fsm.tarAt := fun _ => Runs.imageArchive;
       Fsm.kernel := Runs.kernelOk;
       Fsm.download := fun _ _ => (Errorf "NoSuchKey", ("", 0));
       Fsm.copyDir := fun _ _ => nil;
       Fsm.txFault := Db.NoFault |} in
  let req := {| Fsm.reqS3Key := Runs.key; Fsm.reqS3Bucket := Runs.bucket |} in
  let '(w', _, outcome) :=
    Fsm.runTransition 3 (Fsm.handleDownload env Runs.linux) 0 req
      (Some {| Fsm.ImageID := 1; Fsm.respSHA256 := "";
               Fsm.DownloadPath := ""; Fsm.DownloadSize := 0;
               Fsm.ExtractedPath := ""; Fsm.respDevicePath := "";
               Fsm.respSnapshotID := 0; Fsm.respStatus := "";
               Fsm.respErrorMessage := "" |})
      Runs.activatedWorld in
  outcome = Fsm.Abort (Fsm.errMaxRetries Runs.linux)
  /\ Fsm.fetches w'
     = (Fsm.fetches Runs.activatedWorld ++ [Runs.key; Runs.key; Runs.key])%list.
Proof.
  intros env req.
  pose proof (download_retries_leave_downloading env Runs.linux req
                {| Fsm.ImageID := 1; Fsm.respSHA256 := "";
                   Fsm.DownloadPath := ""; Fsm.DownloadSize := 0;
                   Fsm.ExtractedPath := ""; Fsm.respDevicePath := "";
                   Fsm.respSnapshotID := 0; Fsm.respStatus := "";
                   Fsm.respErrorMessage := "" |}
                Runs.activatedWorld Runs.activatedRow
                ltac:(intros p; discriminate)
                ltac:(vm_compute; reflexivity)
                activated_lookup eq_refl
                ltac:(vm_compute; reflexivity)) as H.
  cbv zeta in H.
  change (Z.to_nat (Fsm.uint64 (Fsm.maxRetries Runs.linux))) with 3%nat in H.
  destruct (Fsm.runTransition 3 _ 0 req _ Runs.activatedWorld)
    as [[w' msg'] outcome].
  destruct H as (H1 & _ & H3). split; [exact H1 | exact H3].
Defined.
